(** * data_maintenance: the record classifier and the merge executor

    A shallow embedding of [pages/data_merger.py] (the three pandas
    classifiers [find_new_records], [find_deleted_records],
    [find_changed_records]) and of [merge_process.py] (schema
    introspection, archival and the three SQL phases of
    [run_merge_process]), followed by the properties of the specification
    that concern them.  The second half covers the rest of the code around
    them: the page [main] of [pages/data_merger.py], the summary of
    [pages/data_viewer.py] and the saved column mappings of
    [pages/mapping_page.py], with the properties the code itself shows.

    Conventions of the embedding.
    - A cell is NULL/NaN, an integer or a string ([value]); pandas compares
      them element-wise, SQL with three-valued logic.
    - A [DataFrame] (and a stored table) is a list of column labels and a
      list of rows, each row a list of cells in column order.  Label lookups
      take the first occurrence; the data model has one value per column
      name, so frames with repeated labels are outside the modelled domain
      ([wf_frame]).
    - Cells are dynamically typed, and a column has the type of its cells.
      What pandas and the store make of types is not computed: pandas
      refuses to merge a numeric key column with a string one and
      compares an integer column that has a missing value as float64, and
      the store refuses to compare or assign across types.  The theorems
      that depend on it say so in a hypothesis ([keys_of_one_kind],
      [exact_ints], [stamps_typed]).
    - Python exceptions are values of [exn]; a function that can raise
      returns a [result].  The text of an exception of the store stands for
      the whole text the driver reports, which no theorem states.
    - The relational store is PostgreSQL reached through SQLAlchemy
      ([postgresql+psycopg2] in the pages): unquoted identifiers fold to
      lower case, an unqualified column reference that names a column of
      two joined tables is rejected, every table has the system columns,
      which a statement can read and an INSERT cannot list (their cells
      are not modelled), DDL is transactional, and [with engine.begin()]
      commits on normal exit and rolls back when its body raises.
    - A statement is given by what it does, not by its text: the names
      spliced into it are taken to leave the statement the one that is
      written ([quotable], [plain]), which the theorems on accepted
      statements assume.
    - A Streamlit page is run from top to bottom with what its widgets
      return; a run sees at most one button clicked. *)

From stdpp Require Import gmap strings list fin_maps.
From Stdlib Require Import ZArith Bool Lia Ascii.
Import ListNotations.

Local Open Scope string_scope.
Local Open Scope list_scope.

(** ** Strings *)

Module Str.

Definition lower_ascii (a : ascii) : ascii :=
  let n := nat_of_ascii a in
  if (65 <=? n)%nat && (n <=? 90)%nat then ascii_of_nat (n + 32) else a.

(** [str.lower()], on the ASCII letters. *)
Fixpoint lower (s : string) : string :=
  match s with
  | EmptyString => EmptyString
  | String a s' => String (lower_ascii a) (lower s')
  end.

(** [needle in hay] on Python strings. *)
Fixpoint contains (needle hay : string) : bool :=
  String.prefix needle hay
  || match hay with
     | EmptyString => false
     | String _ hay' => contains needle hay'
     end.

(** [x in xs] on a list of strings. *)
Definition mem (x : string) (xs : list string) : bool :=
  existsb (String.eqb x) xs.

Fixpoint nodupb (xs : list string) : bool :=
  match xs with
  | [] => true
  | x :: xs' => negb (mem x xs') && nodupb xs'
  end.

(** [len([c for c in xs if c == x])] *)
Definition count (x : string) (xs : list string) : nat :=
  length (List.filter (String.eqb x) xs).

End Str.

(** ** Values *)

(** A cell.  There is no float: pandas holds an integer column that has a
    missing value as float64, which tells integers apart up to 2^53
    ([Pd.exact_ints]). *)
Inductive value :=
| VNull
| VInt (z : Z)
| VStr (s : string).

Definition value_eqb (a b : value) : bool :=
  match a, b with
  | VNull, VNull => true
  | VInt x, VInt y => Z.eqb x y
  | VStr x, VStr y => String.eqb x y
  | _, _ => false
  end.

Definition is_null (v : value) : bool :=
  match v with VNull => true | _ => false end.

(** A key tuple: the cells of the business-key columns, in key order. *)
Definition key_eqb (a b : list value) : bool :=
  (length a =? length b)%nat && forallb (fun p => value_eqb (fst p) (snd p)) (combine a b).

(** ** Exceptions and results *)

Inductive exn :=
| KeyError (key : string)             (* a label that is not there *)
| IndexError                          (* [xs[0]] on an empty list *)
| ValueError (msg : string)
| MergeError (msg : string)           (* pandas.errors.MergeError *)
| ProgrammingError (msg : string)     (* the store rejects the statement *)
| OperationalError (msg : string)     (* the store is unreachable or times out *)
| StreamlitAPIException (msg : string). (* a widget refuses its arguments *)

(** [str(e)].  For an exception of the store, [msg] stands for the whole
    text the driver reports (the class of the error, the message of the
    server with its quoted names, and the statement): the embedding fixes
    a short text of its own, and no theorem states what that text is. *)
Definition str_exn (e : exn) : string :=
  match e with
  | KeyError k => "'" +:+ k +:+ "'"
  | IndexError => "list index out of range"
  | ValueError m => m
  | MergeError m => m
  | ProgrammingError m => m
  | OperationalError m => m
  | StreamlitAPIException m => m
  end.

Inductive result (A : Type) :=
| Ok (a : A)
| Err (e : exn).
Arguments Ok {A} a.
Arguments Err {A} e.

#[global] Instance result_ret : MRet result := @Ok.
#[global] Instance result_bind : MBind result := fun A B f r =>
  match r with
  | Ok a => f a
  | Err e => Err e
  end.

Definition is_ok {A} (r : result A) : bool :=
  match r with Ok _ => true | Err _ => false end.

(** ** pandas *)

Module Pd.

Record DataFrame := mkDF { columns : list string; rows : list (list value) }.

(** The cell of row [r] under label [c]. *)
Fixpoint cell (cols : list string) (r : list value) (c : string) : value :=
  match cols, r with
  | c' :: cols', v :: r' => if String.eqb c' c then v else cell cols' r' c
  | _, _ => VNull
  end.

(** Every row has one cell per label. *)
Definition rectangular (df : DataFrame) : Prop :=
  Forall (fun r => length r = length (columns df)) (rows df).

(** Rectangular, with one value per label. *)
Definition wf_frame (df : DataFrame) : Prop :=
  List.NoDup (columns df) /\ rectangular df.

(** Element-wise [!=]: a missing value differs from everything. *)
Definition ne (a b : value) : bool :=
  is_null a || is_null b || negb (value_eqb a b).

(** Element-wise [==]: a missing value equals nothing. *)
Definition eq (a b : value) : bool :=
  negb (is_null a) && negb (is_null b) && value_eqb a b.

(** [df[c]] *)
Definition getitem (df : DataFrame) (c : string) : result (list value) :=
  if Str.mem c (columns df)
  then Ok (map (fun r => cell (columns df) r c) (rows df))
  else Err (KeyError c).

(** [df[mask]] *)
Definition mask_rows (df : DataFrame) (mask : list bool) : DataFrame :=
  mkDF (columns df) (map fst (List.filter snd (combine (rows df) mask))).

(** [df[cs]] for a list of labels. *)
Definition select (df : DataFrame) (cs : list string) : result DataFrame :=
  match List.find (fun c => negb (Str.mem c (columns df))) cs with
  | Some c => Err (KeyError c)
  | None => Ok (mkDF cs (map (fun r => map (cell (columns df) r) cs) (rows df)))
  end.

(** The cells of [r] whose label satisfies [keep]. *)
Fixpoint keep_cells (keep : string -> bool) (cols : list string) (r : list value)
  : list value :=
  match cols, r with
  | c :: cols', v :: r' =>
      if keep c then v :: keep_cells keep cols' r' else keep_cells keep cols' r'
  | _, _ => []
  end.

(** [df.drop(columns=cs)] *)
Definition drop (df : DataFrame) (cs : list string) : result DataFrame :=
  match List.find (fun c => negb (Str.mem c (columns df))) cs with
  | Some c => Err (KeyError c)
  | None =>
      let keep c := negb (Str.mem c cs) in
      Ok (mkDF (List.filter keep (columns df))
               (map (keep_cells keep (columns df)) (rows df)))
  end.

Inductive how := how_left | how_inner.

Definition key_of (cols : list string) (on : list string) (r : list value) : list value :=
  map (cell cols r) on.

(** The labels of [right] that are not join keys: its key columns are
    dropped from the result. *)
Definition rest_labels (right : DataFrame) (on : list string) : list string :=
  List.filter (fun c => negb (Str.mem c on)) (columns right).

(** A label that remains on both sides takes the suffixes. *)
Definition left_labels (left right : DataFrame) (on : list string) (lsuffix : string)
  : list string :=
  map (fun c => if negb (Str.mem c on) && Str.mem c (rest_labels right on)
                then c +:+ lsuffix else c) (columns left).

Definition right_labels (left right : DataFrame) (on : list string) (rsuffix : string)
  : list string :=
  map (fun c => if Str.mem c (columns left) then c +:+ rsuffix else c) (rest_labels right on).

(** [df._get_label_or_level_values(k)] for a join key: the label is
    there, once. *)
Definition label_values (df : DataFrame) (k : string) : result unit :=
  if negb (Str.mem k (columns df)) then Err (KeyError k)
  else if negb (Str.count k (columns df) =? 1)%nat
       then Err (ValueError ("The column label '" +:+ k +:+ "' is not unique."))
       else Ok tt.

(** The labels [indicator=True] takes for itself: the two of its working
    columns, then that of the indicator. *)
Definition indicator_check (left right : DataFrame) : result unit :=
  let taken c := Str.mem c (columns left) || Str.mem c (columns right) in
  if taken "_left_indicator" || taken "_right_indicator"
  then Err (ValueError "Cannot use `indicator=True` option when data contains a column named _left_indicator or _right_indicator")
  else if taken "_merge"
  then Err (ValueError "Cannot use name of an existing column for indicator column")
  else Ok tt.

(** What the suffixes must not do: repeat a label on one side, or turn a
    label into one that the other frame has and keeps under its own name
    (for frames without repeated labels, these are the tests pandas makes). *)
Definition suffix_clash (left right : DataFrame) (on : list string)
    (suffixes : string * string) : bool :=
  let llabels := left_labels left right on (fst suffixes) in
  let rlabels := right_labels left right on (snd suffixes) in
  negb (Str.nodupb llabels) || negb (Str.nodupb rlabels)
  || existsb (fun l => Str.mem l (rest_labels right on) && negb (Str.mem l (columns left)))
             llabels
  || existsb (fun r => Str.mem r (columns left) && negb (Str.mem r (rest_labels right on)))
             rlabels.

(** The join keys, one after the other: the column of the right frame,
    then that of the left one. *)
Fixpoint merge_keys (left right : DataFrame) (on : list string) : result unit :=
  match on with
  | [] => Ok tt
  | k :: on' => _ ← label_values right k; _ ← label_values left k; merge_keys left right on'
  end.

(** What pandas refuses, in the order in which it looks: a key that is not
    a label of the right frame and of the left one, or labels more than one
    column; with [indicator=True], a label that the indicator needs; an
    empty [on], on which its join routine takes the first key of an empty
    list; suffixes that clash.  The text of its [MergeError] also names the
    labels. *)
Definition merge_checks (left right : DataFrame) (on : list string)
    (suffixes : string * string) (indicator : bool) : result unit :=
  _ ← merge_keys left right on;
  _ ← (if indicator then indicator_check left right else Ok tt);
  match on with
  | [] => Err IndexError
  | _ :: _ =>
      if suffix_clash left right on suffixes
      then Err (MergeError "Passing 'suffixes' which cause duplicate columns is not allowed.")
      else Ok tt
  end.

(** The right rows whose key tuple equals that of the left row [l];
    missing keys match each other. *)
Definition matches (left right : DataFrame) (on : list string) (l : list value)
  : list (list value) :=
  List.filter (fun r => key_eqb (key_of (columns left) on l) (key_of (columns right) on r))
              (rows right).

(** The joined rows for one left row, in the order of its matches. *)
Definition joined (left right : DataFrame) (on : list string) (h : how)
    (indicator : bool) (l : list value) : list (list value) :=
  let tag s := if indicator then [VStr s] else [] in
  match matches left right on l with
  | [] => match h with
          | how_left => [l ++ map (fun _ => VNull) (rest_labels right on) ++ tag "left_only"]
          | how_inner => []
          end
  | ms => map (fun r => l ++ map (cell (columns right) r) (rest_labels right on) ++ tag "both") ms
  end.

(** [left.merge(right, on=on, how=h, suffixes=suffixes, indicator=indicator)]:
    the join keeps the order of the left rows. *)
Definition merge (left right : DataFrame) (on : list string) (h : how)
    (suffixes : string * string) (indicator : bool) : result DataFrame :=
  _ ← merge_checks left right on suffixes indicator;
  Ok (mkDF (left_labels left right on (fst suffixes)
            ++ right_labels left right on (snd suffixes)
            ++ (if indicator then ["_merge"] else []))
           (flat_map (joined left right on h indicator) (rows left))).

(** [series_a != series_b] *)
Definition series_ne (a b : list value) : list bool :=
  map (fun p => ne (fst p) (snd p)) (combine a b).

(** [pd.concat(conditions, axis=1).any(axis=1)] over a frame of [n] rows. *)
Fixpoint any_axis1 (conditions : list (list bool)) (n : nat) : list bool :=
  match conditions with
  | [] => repeat false n
  | c :: cs => map (fun p => fst p || snd p) (combine c (any_axis1 cs n))
  end.

Definition concat_any (conditions : list (list bool)) (n : nat) : result (list bool) :=
  match conditions with
  | [] => Err (ValueError "No objects to concatenate")
  | _ :: _ => Ok (any_axis1 conditions n)
  end.

(** [[f(x) for x in xs]] where [f] may raise. *)
Fixpoint mapM {A B} (f : A -> result B) (xs : list A) : result (list B) :=
  match xs with
  | [] => Ok []
  | x :: xs' => y ← f x; ys ← mapM f xs'; Ok (y :: ys)
  end.

(** [df.columns = df.columns.str.lower()] *)
Definition lower_columns (df : DataFrame) : DataFrame :=
  mkDF (map Str.lower (columns df)) (rows df).

(** *** The frames the embedding speaks for

    A cell carries no dtype.  pandas gives a column of integers the dtype
    int64, a column of strings the dtype object and a column of integers
    with a missing value the dtype float64; it refuses to merge a key
    column of numbers with one of strings, and it compares floats where the
    embedding compares integers.  The theorems that say what a classifier
    returns are stated for frames on which this makes no difference: the
    cells under each key are integers, or are strings, in both frames, and
    every integer is one that a float holds exactly. *)
Definition is_int (v : value) : bool := match v with VInt _ => true | _ => false end.
Definition is_str (v : value) : bool := match v with VStr _ => true | _ => false end.

Definition keys_of_one_kind (left right : DataFrame) (on : list string) : Prop :=
  forall k, In k on ->
    let cells df := map (fun r => cell (columns df) r k) (rows df) in
    forallb is_int (cells left ++ cells right) = true
    \/ forallb is_str (cells left ++ cells right) = true.

Definition exact (v : value) : bool :=
  match v with VInt z => (Z.abs z <=? 2 ^ 53)%Z | _ => true end.

Definition exact_ints (df : DataFrame) : Prop :=
  forallb (forallb exact) (rows df) = true.

(** No label is one that [indicator=True] takes for itself. *)
Definition free_of_indicator (df : DataFrame) : Prop :=
  forall c, In c ["_left_indicator"; "_right_indicator"; "_merge"] -> ~ In c (columns df).

End Pd.

(** ** pages/data_merger.py: the record classifier *)

Module Classifier.
Import Pd.

(** [next((col for col in df.columns if col.lower() == "status"), None)] *)
Definition status_col (df : DataFrame) : option string :=
  List.find (fun col => String.eqb (Str.lower col) "status") (columns df).

(** [df_target[df_target[status_col] != "0"]], or the frame itself when it
    has no status column. *)
Definition active_rows (df_target : DataFrame) : result DataFrame :=
  match status_col df_target with
  | Some sc =>
      st ← getitem df_target sc;
      Ok (mask_rows df_target (map (fun v => ne v (VStr "0")) st))
  | None => Ok df_target
  end.

Definition find_new_records (df_source df_target : DataFrame)
    (business_keys : list string) : result DataFrame :=
  merged_df ← merge df_source df_target business_keys how_left ("_x", "_y") true;
  ind ← getitem merged_df "_merge";
  drop (mask_rows merged_df (map (fun v => eq v (VStr "left_only")) ind)) ["_merge"].

Definition find_deleted_records (df_source df_target : DataFrame)
    (business_keys : list string) : result DataFrame :=
  df_target_active ← active_rows df_target;
  src_keys ← select df_source business_keys;
  merged_df ← merge df_target_active src_keys business_keys how_left ("_x", "_y") true;
  ind ← getitem merged_df "_merge";
  drop (mask_rows merged_df (map (fun v => eq v (VStr "left_only")) ind)) ["_merge"].

(** [compare_fields]: the source labels that are neither keys nor excluded
    and that the target has too. *)
Definition compare_fields_of (df_source df_target : DataFrame)
    (business_keys exclude_fields : list string) : list string :=
  List.filter (fun col => Str.mem col (columns df_target))
    (List.filter (fun col => negb (Str.mem col (business_keys ++ exclude_fields)))
                 (columns df_source)).

Definition find_changed_records (df_source df_target : DataFrame)
    (business_keys exclude_fields : list string) : result DataFrame :=
  let df_source := lower_columns df_source in
  let df_target := lower_columns df_target in
  let business_keys := map Str.lower business_keys in
  let exclude_fields := map Str.lower exclude_fields in
  df_target ← active_rows df_target;
  let compare_fields := compare_fields_of df_source df_target business_keys exclude_fields in
  right ← select df_target (business_keys ++ compare_fields);
  merged_df ← merge df_source right business_keys how_inner (EmptyString, "_target") false;
  conditions ← mapM (fun field =>
                        a ← getitem merged_df field;
                        b ← getitem merged_df (field +:+ "_target");
                        Ok (series_ne a b)) compare_fields;
  mask ← concat_any conditions (length (rows merged_df));
  let changed_records := mask_rows merged_df mask in
  let columns_to_keep :=
    List.filter (fun col => negb (Str.contains "_target" col)) (columns changed_records) in
  select changed_records columns_to_keep.

End Classifier.


(** ** The relational store *)

Module Sql.

(** Three-valued comparison: [None] is SQL's unknown. *)
Definition sql_eq (a b : value) : option bool :=
  match a, b with
  | VNull, _ | _, VNull => None
  | _, _ => Some (value_eqb a b)
  end.

Definition sql_ne (a b : value) : option bool := negb <$> sql_eq a b.

Definition sql_and (a b : option bool) : option bool :=
  match a, b with
  | Some false, _ | _, Some false => Some false
  | Some true, Some true => Some true
  | _, _ => None
  end.

Definition sql_or (a b : option bool) : option bool :=
  match a, b with
  | Some true, _ | _, Some true => Some true
  | Some false, Some false => Some false
  | _, _ => None
  end.

(** A WHERE or ON condition keeps a row only when it is true. *)
Definition holds (c : option bool) : bool :=
  match c with Some true => true | _ => false end.

(** One row of ["table_registry"."quarter_detail"], without its
    [Update_type].  [Status] is written into the statements unquoted and
    the other three between quotes. *)
Record VersionDescriptor := mkVD {
  Status : Z;
  EFFECTIVE_START_DATE : string;
  EFFECTIVE_END_DATE : string;
  VERSION_ID : string
}.

(** The tables by (schema, name), and the registry by update type when its
    table is there. *)
Record Database := mkDB {
  tables : gmap (string * string) Pd.DataFrame;
  quarter_detail : option (gmap string VersionDescriptor)
}.

Definition set_tables (db : Database) (ts : gmap (string * string) Pd.DataFrame) : Database :=
  mkDB ts (quarter_detail db).

(** The statements [merge_process.py] sends, with the values its f-strings
    splice in. *)
Inductive statement :=
| AlterTableRename (schema_name table new_name : string)
| CreateTableAsTable (schema_name table from : string)
| CreateTableIfAbsent (schema_name target_table source_table : string)
| InsertNew (schema_name source_table target_table : string)
    (mapped_columns source_values business_keys : list string)
    (first_key : string) (vd : VersionDescriptor)
| TermDelete (schema_name source_table target_table : string)
    (business_keys : list string) (first_key : string) (vd : VersionDescriptor)
| InsertChangeNew (schema_name source_table target_table : string)
    (mapped_columns source_values business_keys : list string)
    (vd : VersionDescriptor).

Definition relation (db : Database) (schema_name table : string) : result Pd.DataFrame :=
  match tables db !! (schema_name, table) with
  | Some t => Ok t
  | None => Err (ProgrammingError ("relation " +:+ schema_name +:+ "." +:+ table
                                   +:+ " does not exist"))
  end.

(** The system columns, which every table has besides its own.  A
    statement can read them and cannot write them.  Their cells are not
    part of the embedding ([Pd.cell] answers NULL for a label that is not
    one of the table's): what a statement selects is stated for keys that
    are columns of the tables. *)
Definition system_columns : list string :=
  ["tableoid"; "cmax"; "xmax"; "cmin"; "xmin"; "ctid"].

(** A column that an expression over a table can name. *)
Definition has_column (cols : list string) (c : string) : bool :=
  Str.mem c cols || Str.mem c system_columns.

(** The names are spliced into the statements without quotes and are
    taken to be plain identifiers: an unquoted identifier folds to lower
    case, and [alias.ident] must then be a column of that table. *)
Definition column_of (alias : string) (cols : list string) (ident : string) : result string :=
  let c := Str.lower ident in
  if has_column cols c then Ok c
  else Err (ProgrammingError ("column " +:+ alias +:+ "." +:+ c +:+ " does not exist")).

(** A column that [INSERT INTO t (...)] can name: one of the table's own. *)
Definition own_column (cols : list string) (ident : string) : result string :=
  let c := Str.lower ident in
  if Str.mem c cols then Ok c
  else Err (ProgrammingError ("column " +:+ c +:+ " of relation does not exist")).

Inductive side := of_s | of_t.

(** An unqualified identifier over [s JOIN t]. *)
Definition resolve (scols tcols : list string) (ident : string) : result (side * string) :=
  let c := Str.lower ident in
  match has_column scols c, has_column tcols c with
  | true, true => Err (ProgrammingError ("column reference " +:+ c +:+ " is ambiguous"))
  | true, false => Ok (of_s, c)
  | false, true => Ok (of_t, c)
  | false, false => Err (ProgrammingError ("column " +:+ c +:+ " does not exist"))
  end.

(** [a.k1 = b.k1 AND a.k2 = b.k2 ...] over resolved key columns. *)
Definition on_keys (acols bcols : list string) (keys : list string)
    (a b : list value) : option bool :=
  fold_right (fun k acc => sql_and (sql_eq (Pd.cell acols a k) (Pd.cell bcols b k)) acc)
             (Some true) keys.

(** The right-hand sides joined to [a] by [a LEFT JOIN b ON ...]: its
    matches, or one all-NULL row ([None]) when it has none. *)
Definition left_join (acols bcols keys : list string) (bs : list (list value))
    (a : list value) : list (option (list value)) :=
  match List.filter (fun b => holds (on_keys acols bcols keys a b)) bs with
  | [] => [None]
  | ms => map Some ms
  end.

Definition joined_cell (cols : list string) (r : option (list value)) (c : string) : value :=
  match r with
  | Some r => Pd.cell cols r c
  | None => VNull
  end.

(** The four stamped columns that close every INSERT column list. *)
Definition stamp_columns : list string :=
  ["status"; "effective_start_date"; "effective_end_date"; "version_id"].

Definition stamp_values (vd : VersionDescriptor) : list value :=
  [VInt (Status vd); VStr (EFFECTIVE_START_DATE vd);
   VStr (EFFECTIVE_END_DATE vd); VStr (VERSION_ID vd)].

(** The row stored for one selected row: each target column takes the
    value listed for it, or NULL when the column list leaves it out. *)
Definition inserted_row (tcols into : list string) (vals : list value) : list value :=
  map (fun c => Pd.cell into vals c) tcols.

(** A comma- or AND-separated list spliced from an empty Python list leaves
    a statement that does not parse. *)
Definition spliced {A} (xs : list A) : result unit :=
  match xs with
  | [] => Err (ProgrammingError "syntax error")
  | _ :: _ => Ok tt
  end.

(** The column list of [INSERT INTO t (...)]: every name a column of [t],
    none twice. *)
Definition insert_columns (tcols idents : list string) : result (list string) :=
  into ← Pd.mapM (own_column tcols) idents;
  if Str.nodupb into then Ok into
  else Err (ProgrammingError "column specified more than once").

(** The SELECT list of the two INSERTs: unqualified source column names
    over the join of [s] and [t], then the four literals. *)
Definition select_list (scols tcols source_values : list string)
  : result (list (side * string)) :=
  Pd.mapM (resolve scols tcols) source_values.

Definition selected_values (scols tcols : list string) (sel : list (side * string))
    (vd : VersionDescriptor) (s : list value) (t : option (list value)) : list value :=
  map (fun p => match fst p with
                | of_s => Pd.cell scols s (snd p)
                | of_t => joined_cell tcols t (snd p)
                end) sel ++ stamp_values vd.

(** [set_cell cols r c v]: row [r] with the cell under [c] replaced. *)
Fixpoint set_cell (cols : list string) (r : list value) (c : string) (v : value)
  : list value :=
  match cols, r with
  | c' :: cols', x :: r' =>
      if String.eqb c' c then v :: r' else x :: set_cell cols' r' c v
  | _, _ => r
  end.

(** Step 5: [FROM s LEFT JOIN t ON keys WHERE t.k0 IS NULL]. *)
Definition new_selected (scols tcols keys : list string) (k0 : string)
    (srows trows : list (list value)) : list (list value * option (list value)) :=
  List.filter (fun p => is_null (joined_cell tcols (snd p) k0))
    (flat_map (fun s => map (pair s) (left_join scols tcols keys trows s)) srows).

(** Step 6: the WHERE of the UPDATE, for the target row [t]:
    [t.k0 = t1.k0 AND t.status != 0 AND s.k0 IS NULL] for some row of
    [t1 LEFT JOIN s ON keys]. *)
Definition term_where (scols tcols keys : list string) (k0 : string)
    (srows trows : list (list value)) (t : list value) : bool :=
  existsb (fun t1 =>
    existsb (fun s =>
      holds (sql_and (sql_and (sql_eq (Pd.cell tcols t k0) (Pd.cell tcols t1 k0))
                              (sql_ne (Pd.cell tcols t "status") (VInt 0)))
                     (Some (is_null (joined_cell scols s k0)))))
      (left_join tcols scols keys srows t1))
    trows.

Definition term_update (tcols : list string) (vd : VersionDescriptor) (t : list value)
  : list value :=
  set_cell tcols (set_cell tcols t "status" (VInt (Status vd)))
           "effective_end_date" (VStr (EFFECTIVE_END_DATE vd)).

(** Step 7: the WHERE of the change insert for a joined pair:
    [t.status != 0 AND (s.m1 <> t.m1 OR s.m2 <> t.m2 ...)]. *)
Definition change_where (scols tcols compared : list string)
    (s t : list value) : bool :=
  holds (sql_and (sql_ne (Pd.cell tcols t "status") (VInt 0))
                 (fold_right (fun m acc => sql_or (sql_ne (Pd.cell scols s m) (Pd.cell tcols t m)) acc)
                             (Some false) compared)).

(** Step 7: [FROM s JOIN t ON keys WHERE ...]. *)
Definition change_selected (scols tcols keys compared : list string)
    (srows trows : list (list value)) : list (list value * list value) :=
  flat_map (fun s =>
    map (pair s)
        (List.filter (fun t => holds (on_keys scols tcols keys s t)
                               && change_where scols tcols compared s t) trows))
    srows.

(** [t.status != 0] *)
Definition sql_active (tcols : list string) (t : list value) : bool :=
  holds (sql_ne (Pd.cell tcols t "status") (VInt 0)).

(** A target row the UPDATE of step 6 is meant for: active, with its key
    cells present, and matched by no source row on the keys. *)
Definition sql_terminated (s t : Pd.DataFrame) (keys : list string) (r : list value) : bool :=
  sql_active (Pd.columns t) r
  && forallb (fun k => negb (is_null (Pd.cell (Pd.columns t) r (Str.lower k)))) keys
  && forallb (fun srow => negb (holds (on_keys (Pd.columns t) (Pd.columns s)
                                                (map Str.lower keys) r srow)))
             (Pd.rows s).

Definition execute_statement (q : statement) (db : Database) : result Database :=
  match q with
  | AlterTableRename sch table new_name =>
      t ← relation db sch table;
      match tables db !! (sch, new_name) with
      | Some _ => Err (ProgrammingError ("relation " +:+ new_name +:+ " already exists"))
      | None => Ok (set_tables db (<[(sch, new_name) := t]> (delete (sch, table) (tables db))))
      end
  | CreateTableAsTable sch table from =>
      t ← relation db sch from;
      match tables db !! (sch, table) with
      | Some _ => Err (ProgrammingError ("relation " +:+ table +:+ " already exists"))
      | None => Ok (set_tables db (<[(sch, table) := t]> (tables db)))
      end
  | CreateTableIfAbsent sch target_table source_table =>
      match tables db !! (sch, target_table) with
      | Some _ => Ok db
      | None =>
          s ← relation db sch source_table;
          Ok (set_tables db (<[(sch, target_table) := Pd.mkDF (Pd.columns s) []]> (tables db)))
      end
  | InsertNew sch source_table target_table mapped source_values keys first_key vd =>
      t ← relation db sch target_table;
      s ← relation db sch source_table;
      let scols := Pd.columns s in
      let tcols := Pd.columns t in
      _ ← spliced mapped;
      _ ← spliced keys;
      into ← insert_columns tcols (mapped ++ stamp_columns);
      sel ← select_list scols tcols source_values;
      sk ← Pd.mapM (column_of "s" scols) keys;
      tk ← Pd.mapM (column_of "t" tcols) keys;
      k0 ← column_of "t" tcols first_key;
      let picked := new_selected scols tcols sk k0 (Pd.rows s) (Pd.rows t) in
      let fresh := map (fun p => inserted_row tcols into
                                   (selected_values scols tcols sel vd (fst p) (snd p)))
                       picked in
      Ok (set_tables db (<[(sch, target_table) := Pd.mkDF tcols (Pd.rows t ++ fresh)]> (tables db)))
  | TermDelete sch source_table target_table keys first_key vd =>
      t ← relation db sch target_table;
      s ← relation db sch source_table;
      let scols := Pd.columns s in
      let tcols := Pd.columns t in
      _ ← spliced keys;
      _ ← column_of "t" tcols "status";
      _ ← column_of "t" tcols "effective_end_date";
      tk ← Pd.mapM (column_of "t1" tcols) keys;
      sk ← Pd.mapM (column_of "s" scols) keys;
      k0 ← column_of "t" tcols first_key;
      _ ← column_of "s" scols first_key;
      let updated := map (fun r => if term_where scols tcols sk k0 (Pd.rows s) (Pd.rows t) r
                                   then term_update tcols vd r else r) (Pd.rows t) in
      Ok (set_tables db (<[(sch, target_table) := Pd.mkDF tcols updated]> (tables db)))
  | InsertChangeNew sch source_table target_table mapped source_values keys vd =>
      t ← relation db sch target_table;
      s ← relation db sch source_table;
      let scols := Pd.columns s in
      let tcols := Pd.columns t in
      _ ← spliced mapped;
      _ ← spliced keys;
      into ← insert_columns tcols (mapped ++ stamp_columns);
      sel ← select_list scols tcols source_values;
      sk ← Pd.mapM (column_of "s" scols) keys;
      tk ← Pd.mapM (column_of "t" tcols) keys;
      _ ← column_of "t" tcols "status";
      sm ← Pd.mapM (column_of "s" scols) mapped;
      tm ← Pd.mapM (column_of "t" tcols) mapped;
      let picked := change_selected scols tcols sk sm (Pd.rows s) (Pd.rows t) in
      let fresh := map (fun p => inserted_row tcols into
                                   (selected_values scols tcols sel vd (fst p) (Some (snd p))))
                       picked in
      Ok (set_tables db (<[(sch, target_table) := Pd.mkDF tcols (Pd.rows t ++ fresh)]> (tables db)))
  end.

End Sql.

(** ** merge_process.py: the merge executor *)

Module Merge.
Import Sql.

(** The engine: the database, the number of statements sent so far, and
    the outage the store will meet, if any: the statement with that number
    is answered by an [OperationalError] with that message. *)
Record Engine := mkEngine {
  db : Database;
  sent : nat;
  outage : option (nat * string)
}.

(** Code that talks to the engine and may raise. *)
Definition M (A : Type) : Type := Engine -> Engine * result A.

#[global] Instance M_ret : MRet M := fun A a e => (e, Ok a).
#[global] Instance M_bind : MBind M := fun A B f m e =>
  match m e with
  | (e', Ok a) => f a e'
  | (e', Err x) => (e', Err x)
  end.

(** Plain Python that may raise. *)
Definition lift {A} (r : result A) : M A := fun e => (e, r).

Definition answer (e : Engine) : option string :=
  match outage e with
  | Some (n, msg) => if (n =? sent e)%nat then Some msg else None
  | None => None
  end.

Definition tick (e : Engine) (d : Database) : Engine :=
  mkEngine d (S (sent e)) (outage e).

(** [conn.execute(query)] *)
Definition execute (q : statement) : M unit := fun e =>
  match answer e with
  | Some msg => (tick e (db e), Err (OperationalError msg))
  | None =>
      match execute_statement q (db e) with
      | Ok d => (tick e d, Ok tt)
      | Err x => (tick e (db e), Err x)
      end
  end.

(** [pd.read_sql(query, conn)] for a query that reads [f] off the database. *)
Definition read_sql {A} (f : Database -> result A) : M A := fun e =>
  match answer e with
  | Some msg => (tick e (db e), Err (OperationalError msg))
  | None => (tick e (db e), f (db e))
  end.

(** [with engine.begin() as conn: body]: commit when the body returns,
    roll the database back when it raises. *)
Definition begin {A} (body : M A) : M A := fun e =>
  match body e with
  | (e', Ok a) => (e', Ok a)
  | (e', Err x) => (mkEngine (db e) (sent e') (outage e'), Err x)
  end.

(** A Python dict with string keys, in insertion order. *)
Fixpoint dict_set (d : list (string * string)) (k v : string) : list (string * string) :=
  match d with
  | [] => [(k, v)]
  | (k', v') :: d' => if String.eqb k' k then (k', v) :: d' else (k', v') :: dict_set d' k v
  end.

Fixpoint dict_get (d : list (string * string)) (k default : string) : string :=
  match d with
  | [] => default
  | (k', v') :: d' => if String.eqb k' k then v' else dict_get d' k default
  end.

(** [SELECT column_name FROM information_schema.columns WHERE table_schema
    = ... AND table_name = ...]: no row when there is no such table. *)
Definition information_schema_columns (schema_name table_name : string)
    (d : Database) : result (list string) :=
  match tables d !! (schema_name, table_name) with
  | Some t => Ok (Pd.columns t)
  | None => Ok []
  end.

Definition fetch_column_names (schema_name table_name : string) : M (list (string * string)) :=
  df ← begin (read_sql (information_schema_columns schema_name table_name));
  let column_mapping := fold_left (fun d col => dict_set d (Str.lower col) col) df [] in
  mret column_mapping.

Definition fetch_quarter_details : M (gmap string VersionDescriptor) :=
  begin (read_sql (fun d =>
    match quarter_detail d with
    | Some qd => Ok qd
    | None => Err (ProgrammingError "relation table_registry.quarter_detail does not exist")
    end)).

(** [quarter_details.loc[update_type, ...]] *)
Definition loc (quarter_details : gmap string VersionDescriptor) (update_type : string)
  : result VersionDescriptor :=
  match quarter_details !! update_type with
  | Some vd => Ok vd
  | None => Err (KeyError update_type)
  end.

(** [business_keys[0]] *)
Definition first (business_keys : list string) : result string :=
  match business_keys with
  | k :: _ => Ok k
  | [] => Err IndexError
  end.

Definition ensure_target_table_exists (schema_name target_table source_table : string)
  : M unit :=
  begin (execute (CreateTableIfAbsent schema_name target_table source_table)).

(** [[target_columns.get(col.lower(), col) for col in source_columns.keys()]] *)
Definition mapped_columns_of (source_columns target_columns : list (string * string))
  : list string :=
  map (fun col => dict_get target_columns (Str.lower col) col) (map fst source_columns).

Definition completed : string := "Merge process completed successfully!".

(** The body of the [try] of [run_merge_process]. *)
Definition merge_steps (schema_name source_table target_table : string)
    (business_keys exclude_fields : list string) : M string :=
  (* Step 1: Fetch all column names dynamically *)
  source_columns ← fetch_column_names schema_name source_table;
  target_columns ← fetch_column_names schema_name target_table;
  let mapped_columns := mapped_columns_of source_columns target_columns in
  (* Step 2: Archive target table *)
  let archive_query := AlterTableRename schema_name target_table (target_table +:+ "_bu") in
  let create_backup_query :=
    CreateTableAsTable schema_name target_table (target_table +:+ "_bu") in
  _ ← begin (_ ← execute archive_query; execute create_backup_query);
  (* Step 3: Ensure target table exists before inserting *)
  _ ← ensure_target_table_exists schema_name target_table source_table;
  (* Step 4: Fetch quarter details *)
  quarter_details ← fetch_quarter_details;
  (* Step 5: Insert new records *)
  insert_new_query ← lift (
    vd ← loc quarter_details "New";
    k0 ← first business_keys;
    Ok (InsertNew schema_name source_table target_table mapped_columns
                  (map snd source_columns) business_keys k0 vd));
  _ ← begin (execute insert_new_query);
  (* Step 6: Term-date deleted records *)
  term_delete_query ← lift (
    vd ← loc quarter_details "Delete";
    k0 ← first business_keys;
    Ok (TermDelete schema_name source_table target_table business_keys k0 vd));
  _ ← begin (execute term_delete_query);
  (* Step 7: Insert change-based new records *)
  insert_change_new_query ← lift (
    vd ← loc quarter_details "Change-Based New";
    Ok (InsertChangeNew schema_name source_table target_table mapped_columns
                        (map snd source_columns) business_keys vd));
  _ ← begin (execute insert_change_new_query);
  mret completed.

(** [run_merge_process]: every exception of the body becomes a string. *)
Definition run_merge_process (engine : Engine) (schema_name source_table target_table : string)
    (business_keys exclude_fields : list string) : Engine * string :=
  match merge_steps schema_name source_table target_table business_keys exclude_fields engine with
  | (e, Ok message) => (e, message)
  | (e, Err x) => (e, "Merge failed: " +:+ str_exn x)
  end.

(** The store rejected the statement. *)
Definition rejected (x : exn) : Prop := exists m, x = ProgrammingError m.

(** The keys of a column mapping are its values, lower-cased. *)
Definition lowered (d : list (string * string)) : Prop :=
  forall k v, In (k, v) d -> Str.lower v = k.


(** [main] of [pages/data_merger.py]: the result is shown as a success
    when its lower-cased text contains "completed". *)
Definition shown_as_success (result : string) : bool :=
  Str.contains "completed" (Str.lower result).

End Merge.

(** ** The classes, by key *)

Module Classes.
Import Pd Classifier.

(** The key tuples of the rows of a frame. *)
Definition frame_keys (df : DataFrame) (business_keys : list string) : list (list value) :=
  map (key_of (columns df) business_keys) (rows df).

(** The test [active_rows] applies to one target row. *)
Definition is_active (df_target : DataFrame) (t : list value) : bool :=
  match status_col df_target with
  | Some sc => ne (cell (columns df_target) t sc) (VStr "0")
  | None => true
  end.

(** The key tuple of [r] has no equal among the rows of [other]. *)
Definition unmatched (df other : DataFrame) (business_keys : list string)
    (r : list value) : bool :=
  negb (existsb (key_eqb (key_of (columns df) business_keys r))
                (frame_keys other business_keys)).

(** Two cells that differ for pandas: one of them is missing, or they are
    not the same value. *)
Definition differ (a b : value) : Prop := a = VNull \/ b = VNull \/ a <> b.

(** What a merge that returned has checked. *)
Record checked (left right : DataFrame) (on : list string) (sfx : string * string)
    (ind : bool) : Prop := {
  chk_on : on <> [];
  chk_left : forall k, In k on -> In k (columns left);
  chk_right : forall k, In k on -> In k (columns right);
  chk_count_l : forall k, In k on -> Str.count k (columns left) = 1;
  chk_count_r : forall k, In k on -> Str.count k (columns right) = 1;
  chk_ind : ind = true -> ~ In "_merge" (columns left) /\ ~ In "_merge" (columns right);
  chk_ll : List.NoDup (left_labels left right on (fst sfx));
  chk_rl : List.NoDup (right_labels left right on (snd sfx))
}.

(** The intermediate frames of [find_changed_records]. *)
Section ChangedParts.
Variables (S T : DataFrame) (K E : list string).

(** The active target rows, under lower-cased labels. *)
Definition active_target : DataFrame :=
  mkDF (columns (lower_columns T))
       (List.filter (is_active (lower_columns T)) (rows (lower_columns T))).

Definition compare_fields : list string :=
  compare_fields_of (lower_columns S) active_target (map Str.lower K) (map Str.lower E).

(** [df_target[business_keys + compare_fields]] *)
Definition right_frame : DataFrame :=
  mkDF (map Str.lower K ++ compare_fields)
       (map (fun r => map (cell (columns (lower_columns T)) r)
                          (map Str.lower K ++ compare_fields))
            (rows active_target)).

(** The labels of [merged_df]. *)
Definition merged_labels : list string :=
  columns (lower_columns S) ++ map (fun f => f +:+ "_target") compare_fields.

(** [columns_to_keep] *)
Definition kept_labels : list string :=
  List.filter (fun col => negb (Str.contains "_target" col)) merged_labels.

(** The row of [pd.concat(conditions, axis=1).any(axis=1)] for one merged row. *)
Definition differs (r : list value) : bool :=
  existsb (fun f => ne (cell merged_labels r f) (cell merged_labels r (f +:+ "_target")))
          compare_fields.

End ChangedParts.

(** The four classes of a key tuple [kt]: in the result of one of the three
    classifiers, or in both frames without being Changed. *)
Definition New (S T : DataFrame) (K : list string) (kt : list value) : Prop :=
  exists N, find_new_records S T K = Ok N /\ In kt (frame_keys N K).

Definition Terminated (S T : DataFrame) (K : list string) (kt : list value) : Prop :=
  exists D, find_deleted_records S T K = Ok D /\ In kt (frame_keys D K).

Definition Changed (S T : DataFrame) (K E : list string) (kt : list value) : Prop :=
  exists C, find_changed_records S T K E = Ok C /\ In kt (frame_keys C (map Str.lower K)).

Definition Unchanged (S T : DataFrame) (K E : list string) (kt : list value) : Prop :=
  In kt (frame_keys S K) /\ In kt (frame_keys T K) /\ ~ Changed S T K E kt.

(** The key tuples of the source and of the active target rows. *)
Definition key_space (S T : DataFrame) (K : list string) (kt : list value) : Prop :=
  In kt (frame_keys S K)
  \/ exists t, In t (rows T) /\ is_active T t = true /\ key_of (columns T) K t = kt.

Definition exactly_one (a b c d : Prop) : Prop :=
  (a /\ ~ b /\ ~ c /\ ~ d) \/ (~ a /\ b /\ ~ c /\ ~ d)
  \/ (~ a /\ ~ b /\ c /\ ~ d) \/ (~ a /\ ~ b /\ ~ c /\ d).

End Classes.

(** ** Concrete inputs *)

Module Inputs.
Import Pd Sql Merge.

(** Scenario A of the specification: the source holds keys 1, 2, 3 and the
    target the active keys 1 and 2, key 2 with another value. *)
Definition S_A : DataFrame := mkDF ["id"; "val"]
  [[VInt 1; VStr "A"]; [VInt 2; VStr "B"]; [VInt 3; VStr "C"]].
Definition T_A : DataFrame := mkDF ["id"; "val"; "status"]
  [[VInt 1; VStr "A"; VStr "1"]; [VInt 2; VStr "X"; VStr "1"]].

(** Scenario B: the target holds key 5, inactive, and key 6, active;
    neither is in the source. *)
Definition T_B : DataFrame := mkDF ["id"; "val"; "status"]
  [[VInt 5; VStr "E"; VStr "0"]; [VInt 6; VStr "F"; VStr "1"]].

(** The same target with its status as integers, as the executor writes
    and tests them: key 5 is terminated, key 6 is active. *)
Definition T_int : DataFrame := mkDF ["id"; "val"; "status"]
  [[VInt 5; VStr "E"; VInt 0]; [VInt 6; VStr "F"; VInt 1]].

(** A target without a status column. *)
Definition T_plain : DataFrame := mkDF ["id"; "val"]
  [[VInt 1; VStr "A"]; [VInt 2; VStr "X"]; [VInt 4; VStr "D"]].

(** One key-matched pair whose compared column is missing on both sides,
    and one where it is missing in the target only. *)
Definition S_null : DataFrame := mkDF ["id"; "val"] [[VInt 1; VNull]].
Definition T_null : DataFrame := mkDF ["id"; "val"; "status"] [[VInt 1; VNull; VStr "1"]].
Definition S_half : DataFrame := mkDF ["id"; "val"] [[VInt 1; VStr "A"]].

(** One key-matched pair that differs in the column [note] only. *)
Definition S_note : DataFrame := mkDF ["id"; "val"; "note"]
  [[VInt 1; VStr "A"; VStr "first"]].
Definition T_note : DataFrame := mkDF
  ["id"; "val"; "note"; "status"; "effective_start_date"; "effective_end_date"; "version_id"]
  [[VInt 1; VStr "A"; VStr "second"; VInt 1; VStr "2024-01-01"; VStr "9999-12-31"; VStr "v1"]].
Definition stamps : list string :=
  ["status"; "effective_start_date"; "effective_end_date"; "version_id"].

(** A composite key [(a, b)]: the first target row has its match in the
    source, the second has none and shares the value of [a]. *)
Definition S_pair : DataFrame := mkDF ["a"; "b"] [[VInt 1; VInt 1]].
Definition T_pair : DataFrame := mkDF ["a"; "b"; "status"; "effective_end_date"]
  [[VInt 1; VInt 1; VInt 1; VStr "9999-12-31"]; [VInt 1; VInt 2; VInt 1; VStr "9999-12-31"]].

(** A store with a source, a stamped target and the three registry rows. *)
Definition source : DataFrame := mkDF ["id"; "val"]
  [[VInt 1; VStr "A"]; [VInt 2; VStr "B"]; [VInt 3; VStr "C"]].
Definition target : DataFrame := mkDF
  ["id"; "val"; "status"; "effective_start_date"; "effective_end_date"; "version_id"]
  [[VInt 1; VStr "A"; VInt 1; VStr "2024-01-01"; VStr "9999-12-31"; VStr "v1"];
   [VInt 2; VStr "X"; VInt 1; VStr "2024-01-01"; VStr "9999-12-31"; VStr "v1"];
   [VInt 9; VStr "Z"; VInt 1; VStr "2024-01-01"; VStr "9999-12-31"; VStr "v1"]].
Definition v_new : VersionDescriptor := mkVD 1 "2024-04-01" "9999-12-31" "v2".
Definition v_delete : VersionDescriptor := mkVD 0 "2024-01-01" "2024-03-31" "v2".
Definition v_change : VersionDescriptor := mkVD 1 "2024-04-01" "9999-12-31" "v2".
Definition registry : gmap string VersionDescriptor :=
  <["New" := v_new]> (<["Delete" := v_delete]> (<["Change-Based New" := v_change]> ∅)).
Definition database : Database :=
  mkDB (<[("public", "source") := source]> (<[("public", "target") := target]> ∅))
       (Some registry).

(** The store answers every statement. *)
Definition engine : Engine := mkEngine database 0 None.

(** The same with the pair of frames that differ in [note] only. *)
Definition engine_note : Engine :=
  mkEngine (mkDB (<[("public", "source") := S_note]> (<[("public", "target") := T_note]> ∅))
                 (Some registry)) 0 None.

(** The store is lost at statement [n] of the run; statement 3 is the copy
    of the archive, which follows the rename. *)
Definition engine_lost_at (n : nat) : Engine :=
  mkEngine database 0 (Some (n, "server closed the connection unexpectedly")).

End Inputs.

(** ** merge_process.py: names, and the run by its parts *)

Module Names.

(** The double quote. *)
Definition dquote : string := String (ascii_of_nat 34) EmptyString.

(** [f'"{schema_name}"."{table_name}"'] *)
Definition quote_table_name (schema_name table_name : string) : string :=
  dquote +:+ schema_name +:+ dquote +:+ "." +:+ dquote +:+ table_name +:+ dquote.

(** A name that a statement can hold between double quotes: it has no
    double quote, and no colon, with which [text()] starts a bind
    parameter. *)
Definition quotable (name : string) : bool :=
  negb (Str.contains dquote name) && negb (Str.contains ":" name).

Definition is_digit (a : ascii) : bool :=
  let n := nat_of_ascii a in (48 <=? n)%nat && (n <=? 57)%nat.

Definition is_word (a : ascii) : bool :=
  let n := nat_of_ascii a in
  (97 <=? n)%nat && (n <=? 122)%nat || (65 <=? n)%nat && (n <=? 90)%nat
  || is_digit a || (n =? 95)%nat.

Fixpoint all_word (name : string) : bool :=
  match name with
  | EmptyString => true
  | String a name' => is_word a && all_word name'
  end.

(** A name that a statement can hold as it is, after the dot of a
    qualifier: letters, digits and underscores, the first no digit. *)
Definition plain (name : string) : bool :=
  match name with
  | EmptyString => false
  | String a _ => negb (is_digit a) && all_word name
  end.

(** The last column whose lower-cased name is [k]. *)
Definition last_spelling (cols : list string) (k : string) : option string :=
  List.find (fun c => String.eqb (Str.lower c) k) (rev cols).

End Names.

Module RunParts.
Import Pd Sql Merge.

(** Step 2 of [run_merge_process]. *)
Definition archive (schema_name target_table : string) : M unit :=
  begin (_ ← execute (AlterTableRename schema_name target_table (target_table +:+ "_bu"));
         execute (CreateTableAsTable schema_name target_table (target_table +:+ "_bu"))).

(** Steps 3 to 7, with the column mappings of step 1. *)
Definition after_archive (schema_name source_table target_table : string)
    (business_keys : list string) (source_columns target_columns : list (string * string))
  : M string :=
  let mapped_columns := mapped_columns_of source_columns target_columns in
  _ ← ensure_target_table_exists schema_name target_table source_table;
  quarter_details ← fetch_quarter_details;
  insert_new_query ← lift (
    vd ← loc quarter_details "New";
    k0 ← first business_keys;
    Ok (InsertNew schema_name source_table target_table mapped_columns
                  (map snd source_columns) business_keys k0 vd));
  _ ← begin (execute insert_new_query);
  term_delete_query ← lift (
    vd ← loc quarter_details "Delete";
    k0 ← first business_keys;
    Ok (TermDelete schema_name source_table target_table business_keys k0 vd));
  _ ← begin (execute term_delete_query);
  insert_change_new_query ← lift (
    vd ← loc quarter_details "Change-Based New";
    Ok (InsertChangeNew schema_name source_table target_table mapped_columns
                        (map snd source_columns) business_keys vd));
  _ ← begin (execute insert_change_new_query);
  mret completed.

(** The database once the target has been archived: the backup table holds
    the rows of the target, which is there as before. *)
Definition archived (d : Database) (schema_name target_table : string) (t : DataFrame)
  : Database :=
  set_tables d (<[(schema_name, target_table +:+ "_bu") := t]> (tables d)).

(** What a run leaves of a database on a store that answers every
    statement. *)
Definition left_by_run (d : Database) (schema_name target_table : string) : Database :=
  match tables d !! (schema_name, target_table),
        tables d !! (schema_name, target_table +:+ "_bu") with
  | Some t, None => archived d schema_name target_table t
  | _, _ => d
  end.

(** The keys are columns of the source table (when there is one), as the
    multiselect of the page provides them. *)
Definition keys_of_source (d : Database) (schema_name source_table : string)
    (business_keys : list string) : Prop :=
  forall s, tables d !! (schema_name, source_table) = Some s ->
    forall k, In k business_keys -> In k (columns s).

(** [a.k = b.k] for every key [k]: the key cells of [a] are there and are
    those of [b]. *)
Definition same_key (acols bcols keys : list string) (a b : list value) : Prop :=
  forall k, In k keys -> cell acols a k <> VNull /\ cell acols a k = cell bcols b k.

(** A target row the classification calls terminated: its status is
    neither missing nor 0, and no source row has its key tuple. *)
Definition terminated (s t : DataFrame) (keys : list string) (r : list value) : Prop :=
  cell (columns t) r "status" <> VNull
  /\ cell (columns t) r "status" <> VInt 0
  /\ (forall k, In k keys -> cell (columns t) r k <> VNull)
  /\ forall srow, In srow (rows s) -> ~ same_key (columns t) (columns s) keys r srow.

(** A target row the UPDATE of step 6 rewrites: its status is neither
    missing nor 0, and its cell of the first key [k0] is there and is that
    of a target row [t1] that no source row matches on the keys. *)
Definition marked (s t : DataFrame) (keys : list string) (k0 : string)
    (r : list value) : Prop :=
  cell (columns t) r "status" <> VNull
  /\ cell (columns t) r "status" <> VInt 0
  /\ exists t1, In t1 (rows t)
       /\ cell (columns t) r k0 <> VNull
       /\ cell (columns t) r k0 = cell (columns t) t1 k0
       /\ forall srow, In srow (rows s) ->
            ~ same_key (columns t) (columns s) keys t1 srow.

(** [r'] is [r] with the status and the end date of [vd], and no other
    cell changed. *)
Definition term_dated (tcols : list string) (vd : VersionDescriptor)
    (r r' : list value) : Prop :=
  length r' = length r
  /\ cell tcols r' "status" = VInt (Status vd)
  /\ cell tcols r' "effective_end_date" = VStr (EFFECTIVE_END_DATE vd)
  /\ forall c, c <> "status" -> c <> "effective_end_date" ->
       cell tcols r' c = cell tcols r c.

(** The status column holds integers and the end date holds text, as the
    statements of the run write them. *)
Definition stamps_typed (t : DataFrame) : Prop :=
  forall r, In r (rows t) ->
    (cell (columns t) r "status" = VNull
     \/ exists z, cell (columns t) r "status" = VInt z)
    /\ (cell (columns t) r "effective_end_date" = VNull
        \/ exists x, cell (columns t) r "effective_end_date" = VStr x).

(** A source row with a missing key cell. *)
Definition has_null_key (scols keys : list string) (s : list value) : bool :=
  existsb (fun k => is_null (cell scols s k)) keys.

End RunParts.

(** ** pages/data_merger.py: the page around the classifier *)

Module Page.
Import Pd Classifier Sql Merge.

(** [st.session_state]: a selection is a string or [None]. *)
Definition session_state : Type := gmap string (option string).

(** [st.session_state.setdefault(key, value)] *)
Definition setdefault (key : string) (value : option string) (st : session_state)
  : session_state :=
  match st !! key with
  | Some _ => st
  | None => <[key := value]> st
  end.

Definition store_user_selections (schema source_table target_table : option string)
    (st : session_state) : session_state :=
  setdefault "target_table" target_table
    (setdefault "source_table" source_table
       (setdefault "selected_schema" schema st)).

(** [SELECT "c1", "c2", ... FROM t]: a quoted name is a column of the
    table as it is spelled, or the store rejects the query. *)
Definition select_quoted (t : DataFrame) (cs : list string) : result DataFrame :=
  match List.find (fun c => negb (Str.mem c (columns t))) cs with
  | Some c => Err (ProgrammingError ("column " +:+ c +:+ " does not exist"))
  | None => Ok (mkDF cs (map (fun r => map (cell (columns t) r) cs) (rows t)))
  end.

Definition fetch_table_data (schema_name table_name : string) (columns : list string)
    (fetch_all : bool) : M DataFrame :=
  begin (read_sql (fun d =>
    t ← relation d schema_name table_name;
    if fetch_all then Ok t else select_quoted t columns)).

(** What a button of the page writes: the heading with the number of
    records above the frame, a success box, or an error box. *)
Inductive shown :=
| Found (count : nat) (df : DataFrame)
| Success (msg : string)
| Error (msg : string).

(** [df.empty] *)
Definition empty (df : DataFrame) : bool :=
  match columns df, rows df with
  | [], _ | _, [] => true
  | _, _ => false
  end.

(** [if not df.empty: st.write(f"### ... {len(df)}"); st.dataframe(df)
     else: st.success(nothing)] *)
Definition report (df : DataFrame) (nothing : string) : shown :=
  if negb (empty df) then Found (length (rows df)) df else Success nothing.

Definition default_exclude : list string :=
  ["STATUS"; "EFFECTIVE_START_DATE"; "EFFECTIVE_END_DATE"; "VERSION_ID"].

(** [[col for col in default_exclude if col in target_columns
      or col.lower() in [c.lower() for c in target_columns]]] *)
Definition valid_defaults (target_columns : list string) : list string :=
  List.filter (fun col => Str.mem col target_columns
                          || Str.mem (Str.lower col) (map Str.lower target_columns))
              default_exclude.

(** [st.multiselect(label, options, default=default)]: Streamlit raises
    when a default is not one of the options; otherwise the widget
    returns what the user has selected. *)
Definition multiselect (options default selected : list string) : result (list string) :=
  match List.find (fun d => negb (Str.mem d options)) default with
  | Some d =>
      Err (StreamlitAPIException
             ("The default value '" +:+ d +:+ "' is not part of the options."))
  | None => Ok selected
  end.

(** The four buttons of the page; a run of the script sees at most one
    of them clicked. *)
Inductive button :=
| Find_New_Records
| Find_Deleted_Records
| Find_Changed_Records
| Merge_Button.

(** What the widgets return in one run of the script: the three select
    boxes ([None] when there is nothing to choose from), the two
    multiselects and the clicked button. *)
Record widgets := mkWidgets {
  selected_schema : option string;
  source_table : option string;
  target_table : option string;
  business_keys : list string;
  exclude_fields : list string;
  clicked : option button
}.

(** [if x: body]: a selection that is [None] or the empty string skips
    the body. *)
Definition if_selected {A} (x : option string) (body : string -> M (option A))
  : M (option A) :=
  match x with
  | Some (String _ _ as name) => body name
  | _ => mret None
  end.

Section Main.

(** What the store lists in [information_schema.schemata] (without
    [pg_catalog] and [information_schema]) and, for a schema, in
    [information_schema.tables].  The page uses both lists as the
    options of its select boxes only. *)
Variable schemata : Database -> list string.
Variable table_names : string -> Database -> list string.

Definition get_schemas : M (list string) :=
  read_sql (fun d => Ok (schemata d)).

Definition get_tables (schema_name : string) : M (list string) :=
  read_sql (fun d => Ok (table_names schema_name d)).

Definition get_column_names (schema_name table_name : string) : M (list string) :=
  read_sql (information_schema_columns schema_name table_name).

(** The four [if st.button(...)] blocks of [main]: what the clicked button
    writes, [None] when no button is clicked. *)
Definition buttons (selected_schema source_table target_table : string)
    (target_columns business_keys exclude_fields : list string)
    (clicked : option button) : M (option shown) :=
  match clicked with
  | Some Find_New_Records =>
      df_source ← fetch_table_data selected_schema source_table business_keys true;
      df_target ← fetch_table_data selected_schema target_table business_keys false;
      new_records ← lift (find_new_records df_source df_target business_keys);
      mret (Some (report new_records "No new records found."))
  | Some Find_Deleted_Records =>
      df_target ← fetch_table_data selected_schema target_table business_keys true;
      df_source ← fetch_table_data selected_schema source_table business_keys false;
      deleted_records ← lift (find_deleted_records df_source df_target business_keys);
      mret (Some (report deleted_records "No deleted records found."))
  | Some Find_Changed_Records =>
      df_source ← fetch_table_data selected_schema source_table target_columns true;
      df_target ← fetch_table_data selected_schema target_table target_columns true;
      changed_records ← lift (find_changed_records df_source df_target business_keys
                                                   exclude_fields);
      mret (Some (report changed_records "No changed records found."))
  | Some Merge_Button =>
      fun engine =>
        let (e, result) :=
          run_merge_process engine selected_schema source_table target_table
                            business_keys exclude_fields in
        (e, Ok (Some (if shown_as_success result then Success result else Error result)))
  | None => mret None
  end.

(** [main], from the first query to the output of the clicked button.
    The title and the link that closes the page are not modelled. *)
Definition main (ui : widgets) : M (option shown) :=
  schemas ← get_schemas;
  if_selected (selected_schema ui) (fun selected_schema =>
    tables ← get_tables selected_schema;
    if_selected (source_table ui) (fun source_table =>
    if_selected (target_table ui) (fun target_table =>
      source_columns ← get_column_names selected_schema source_table;
      target_columns ← get_column_names selected_schema target_table;
      let business_keys := business_keys ui in
      exclude_fields ← lift (multiselect target_columns (valid_defaults target_columns)
                                         (exclude_fields ui));
      buttons selected_schema source_table target_table
              target_columns business_keys exclude_fields (clicked ui)))).

End Main.

End Page.

(** ** pages/data_viewer.py *)

Module Viewer.
Import Pd Sql Merge Names.

(** [f'"{col}"'] *)
Definition quoted (col : string) : string := dquote +:+ col +:+ dquote.

Definition get_column_names (schema_name table_name : string) : M (list string) :=
  cols ← read_sql (information_schema_columns schema_name table_name);
  mret (map quoted cols).

(** [required_cols], each name between double quotes. *)
Definition required_cols : list string :=
  map quoted ["STATUS"; "EFFECTIVE_START_DATE"; "EFFECTIVE_END_DATE"; "VERSION_ID"].

(** [pd.DataFrame({"Error": [f"Missing required columns: {', '.join(missing_cols)}"]})] *)
Definition error_frame (missing_cols : list string) : DataFrame :=
  mkDF ["Error"]
       [[VStr ("Missing required columns: " +:+ String.concat ", " missing_cols)]].

Section Summary.

(** The rows the store returns for the grouping query
    (the four columns and the count of each group, ordered by
    [VERSION_ID]) over a table; how it orders the groups of one version is
    left to the store. *)
Variable grouped : DataFrame -> list (list value).

Definition generate_summary (schema_name table_name : string) : M DataFrame :=
  columns ← get_column_names schema_name table_name;
  let missing_cols := List.filter (fun col => negb (Str.mem col columns)) required_cols in
  match missing_cols with
  | _ :: _ => mret (error_frame missing_cols)
  | [] =>
      read_sql (fun d =>
        t ← relation d schema_name table_name;
        Ok (mkDF ["STATUS"; "EFFECTIVE_START_DATE"; "EFFECTIVE_END_DATE"; "VERSION_ID";
                  "count_of_records"] (grouped t)))
  end.

End Summary.

End Viewer.

(** ** pages/mapping_page.py *)

Module Mapping.
Import Pd Sql Merge.

(** [table_registry.column_mapping]: the columns the statements name.  The
    unique index on the first four, which ON CONFLICT refers to, is taken
    to exist. *)
Definition mapping_table : string * string := ("table_registry", "column_mapping").
Definition key_columns : list string :=
  ["schema_name"; "source_table"; "target_table"; "source_column"].
Definition mapping_columns : list string := key_columns ++ ["target_column"].

(** [conn.execute(query, params)] for a statement given by what it does to
    the database. *)
Definition execute_with (q : Database -> result Database) : M unit := fun e =>
  match answer e with
  | Some msg => (tick e (db e), Err (OperationalError msg))
  | None =>
      match q (db e) with
      | Ok d => (tick e d, Ok tt)
      | Err x => (tick e (db e), Err x)
      end
  end.

(** [INSERT INTO table_registry.column_mapping (...) VALUES (...)
     ON CONFLICT (schema_name, source_table, target_table, source_column)
     DO UPDATE SET target_column = EXCLUDED.target_column]
    for the five values [vals]. *)
Definition upsert_mapping (vals : list value) (d : Database) : result Database :=
  t ← relation d "table_registry" "column_mapping";
  _ ← mapM (column_of "column_mapping" (columns t)) mapping_columns;
  let conflicts r := holds (on_keys mapping_columns (columns t) key_columns vals r) in
  let rows' :=
    if existsb conflicts (rows t)
    then map (fun r => if conflicts r
                       then set_cell (columns t) r "target_column"
                                     (cell mapping_columns vals "target_column")
                       else r) (rows t)
    else rows t ++ [inserted_row (columns t) mapping_columns vals] in
  Ok (set_tables d (<[mapping_table := mkDF (columns t) rows']> (tables d))).

(** [row[label]] for a row of [df.iterrows()] *)
Definition row_item (df : DataFrame) (row : list value) (label : string) : result value :=
  if Str.mem label (columns df) then Ok (cell (columns df) row label)
  else Err (KeyError label).

(** [for x in xs: body(x)] *)
Fixpoint for_each {A} (xs : list A) (body : A -> M unit) : M unit :=
  match xs with
  | [] => mret tt
  | x :: xs' => _ ← body x; for_each xs' body
  end.

Definition save_column_mapping (schema_name source_table target_table : string)
    (mapping_df : DataFrame) : M unit :=
  begin (for_each (rows mapping_df) (fun row =>
    source_column ← lift (row_item mapping_df row "source_column");
    target_column ← lift (row_item mapping_df row "target_column");
    execute_with (upsert_mapping [VStr schema_name; VStr source_table; VStr target_table;
                                  source_column; target_column]))).

(** The WHERE of [load_saved_mappings]. *)
Definition of_tables (tcols : list string) (schema_name source_table target_table : string)
    (r : list value) : bool :=
  holds (sql_and (sql_and (sql_eq (cell tcols r "schema_name") (VStr schema_name))
                          (sql_eq (cell tcols r "source_table") (VStr source_table)))
                 (sql_eq (cell tcols r "target_table") (VStr target_table))).

Definition load_saved_mappings (schema_name source_table target_table : string)
  : M DataFrame :=
  begin (read_sql (fun d =>
    t ← relation d "table_registry" "column_mapping";
    _ ← mapM (column_of "column_mapping" (columns t)) mapping_columns;
    Ok (mkDF ["source_column"; "target_column"]
             (map (fun r => [cell (columns t) r "source_column";
                             cell (columns t) r "target_column"])
                  (List.filter (of_tables (columns t) schema_name source_table target_table)
                               (rows t)))))).

(** A Python dict whose keys and values are cells, in insertion order. *)
Fixpoint vdict_set (d : list (value * value)) (k v : value) : list (value * value) :=
  match d with
  | [] => [(k, v)]
  | (k', v') :: d' => if value_eqb k' k then (k', v) :: d' else (k', v') :: vdict_set d' k v
  end.

Fixpoint vdict_get (d : list (value * value)) (k default : value) : value :=
  match d with
  | [] => default
  | (k', v') :: d' => if value_eqb k' k then v' else vdict_get d' k default
  end.

(** [{col: col for col in source_columns if col in target_columns}] *)
Definition auto_mapping (source_columns target_columns : list string)
  : list (string * string) :=
  fold_left (fun d col => dict_set d col col)
            (List.filter (fun col => Str.mem col target_columns) source_columns) [].

(** [dict(zip(saved_mappings["source_column"], saved_mappings["target_column"]))
     if not saved_mappings.empty else {}] *)
Definition saved_mapping_dict (saved_mappings : DataFrame) : result (list (value * value)) :=
  if negb (Page.empty saved_mappings)
  then a ← getitem saved_mappings "source_column";
       b ← getitem saved_mappings "target_column";
       Ok (fold_left (fun d p => vdict_set d (fst p) (snd p)) (combine a b) [])
  else Ok [].

(** [{col: saved_mapping_dict.get(col, auto_mapping.get(col, empty string))
      for col in source_columns}], as the list of its items. *)
Definition final_mapping (source_columns target_columns : list string)
    (saved : list (value * value)) : list (value * value) :=
  fold_left (fun d col =>
               vdict_set d (VStr col)
                 (vdict_get saved (VStr col)
                            (VStr (dict_get (auto_mapping source_columns target_columns)
                                            col EmptyString))))
            source_columns [].

Definition get_column_names (schema_name table_name : string) : M (list string) :=
  begin (read_sql (information_schema_columns schema_name table_name)).

(** [main], from the selected tables to the mapping the page hands to its
    editor. *)
Definition main_mapping (selected_schema source_table target_table : string)
  : M (list (value * value)) :=
  source_columns ← get_column_names selected_schema source_table;
  target_columns ← get_column_names selected_schema target_table;
  saved_mappings ← load_saved_mappings selected_schema source_table target_table;
  saved ← lift (saved_mapping_dict saved_mappings);
  mret (final_mapping source_columns target_columns saved).

(** The target saved last for the source column [c] of the given tables. *)
Definition saved_target (tcols : list string) (schema_name source_table target_table c : string)
    (rs : list (list value)) : option value :=
  match rev (List.filter (fun r => of_tables tcols schema_name source_table target_table r
                                   && value_eqb (cell tcols r "source_column") (VStr c)) rs) with
  | r :: _ => Some (cell tcols r "target_column")
  | [] => None
  end.

(** The key of a stored mapping row. *)
Definition key4 (tcols : list string) (r : list value) : list value :=
  map (cell tcols r) key_columns.

(** A stored row of the given tables and source column. *)
Definition matching (tcols : list string) (schema_name source_table target_table c : string)
    (r : list value) : bool :=
  of_tables tcols schema_name source_table target_table r
  && value_eqb (cell tcols r "source_column") (VStr c).

(** A stored row in conflict with the values of an upsert. *)
Definition hit (tcols : list string) (vals r : list value) : bool :=
  holds (on_keys mapping_columns tcols key_columns vals r).

Section Saving.
Variables (schema_name source_table target_table : string) (mapping_df : DataFrame).

(** The body of the loop of [save_column_mapping]. *)
Definition save_row (row : list value) : M unit :=
  source_column ← lift (row_item mapping_df row "source_column");
  target_column ← lift (row_item mapping_df row "target_column");
  execute_with (upsert_mapping [VStr schema_name; VStr source_table; VStr target_table;
                                source_column; target_column]).

Definition source_of (row : list value) : value :=
  cell (columns mapping_df) row "source_column".
Definition target_of (row : list value) : value :=
  cell (columns mapping_df) row "target_column".

End Saving.

End Mapping.

(** ** More concrete inputs *)

Module MoreInputs.
Import Pd Sql Merge Inputs Mapping.

(** A table with two columns that differ in case only. *)
Definition T_case : DataFrame := mkDF ["Id"; "id"; "val"] [].
Definition engine_case : Engine :=
  mkEngine (mkDB (<[("public", "mixed") := T_case]> (tables database)) (Some registry)) 0 None.

(** A store without the target. *)
Definition engine_no_target : Engine :=
  mkEngine (mkDB (<[("public", "source") := source]> ∅) (Some registry)) 0 None.

(** A store whose registry has no row for "New". *)
Definition engine_no_new : Engine :=
  mkEngine (mkDB (tables database) (Some (delete "New" registry))) 0 None.

(** The target with its stamp columns spelled in upper case, as the page
    proposes them. *)
Definition target_upper : DataFrame := mkDF
  ["id"; "val"; "STATUS"; "EFFECTIVE_START_DATE"; "EFFECTIVE_END_DATE"; "VERSION_ID"]
  (rows target).
Definition engine_upper : Engine :=
  mkEngine (mkDB (<[("public", "source") := source]>
                    (<[("public", "target") := target_upper]> ∅))
                 (Some registry)) 0 None.

(** A target whose status is text: key 9 is inactive, key 8 is active, and
    neither is in the source. *)
Definition target_text : DataFrame := mkDF ["id"; "val"; "STATUS"]
  [[VInt 1; VStr "A"; VStr "1"]; [VInt 8; VStr "Y"; VStr "1"]; [VInt 9; VStr "Z"; VStr "0"]].
Definition engine_text : Engine :=
  mkEngine (mkDB (<[("public", "source") := source]>
                    (<[("public", "target") := target_text]> ∅))
                 (Some registry)) 0 None.

(** A target named "completed", with a backup left by an earlier run. *)
Definition engine_completed : Engine :=
  mkEngine (mkDB (<[("public", "completed") := target_upper]>
                    (<[("public", "completed_bu") := target_upper]> (tables database)))
                 (Some registry)) 0 None.

(** A source that has a status column of its own. *)
Definition S_stamped : DataFrame := mkDF ["id"; "val"; "status"]
  [[VInt 1; VStr "A"; VInt 1]].

(** The composite-key pair as tables of a store. *)
Definition database_pair : Database :=
  mkDB (<[("public", "source") := S_pair]> (<[("public", "target") := T_pair]> ∅))
       (Some registry).

(** What the store lists for the select boxes of the page. *)
Definition schemata (d : Database) : list string := ["public"].
Definition table_names (schema_name : string) (d : Database) : list string :=
  ["source"; "target"; "completed"].

(** A store with the table of the saved mappings, which holds one mapping
    of the column [val], and the mapping the editor hands back. *)
Definition column_mapping : DataFrame :=
  mkDF ["schema_name"; "source_table"; "target_table"; "source_column"; "target_column"]
       [[VStr "public"; VStr "source"; VStr "target"; VStr "val"; VStr "value"]].
Definition engine_mapping : Engine :=
  mkEngine (mkDB (<[mapping_table := column_mapping]> (tables database)) (Some registry))
           0 None.
Definition edited_mapping : DataFrame :=
  mkDF ["source_column"; "target_column"]
       [[VStr "id"; VStr "id"]; [VStr "val"; VStr "val"]].

(** The same store, lost at the second statement it is sent. *)
Definition engine_mapping_lost : Engine :=
  mkEngine (db engine_mapping) 0 (Some (1, "server closed the connection unexpectedly")).

End MoreInputs.

(** ** General facts: labels, key tuples, cells, masks *)

Module Facts.
Import Pd.

Lemma mem_In x xs : Str.mem x xs = true <-> In x xs.
Proof.
  unfold Str.mem. rewrite existsb_exists. split.
  - intros (y & Hy & E). apply String.eqb_eq in E. now subst.
  - intros H. exists x. split; [assumption | apply String.eqb_refl].
Qed.

Lemma mem_false x xs : Str.mem x xs = false <-> ~ In x xs.
Proof.
  rewrite <- mem_In. destruct (Str.mem x xs); split; intros; congruence.
Qed.

Lemma find_absent_None cols cs :
  List.find (fun c => negb (Str.mem c cols)) cs = None <-> (forall c, In c cs -> In c cols).
Proof.
  split.
  - intros H c Hc. apply mem_In.
    pose proof (List.find_none _ _ H c Hc) as E. simpl in E.
    now apply negb_false_iff in E.
  - intros H. induction cs as [|c cs IH]; simpl; [reflexivity|].
    assert (Str.mem c cols = true) as -> by (apply mem_In, H; now left).
    simpl. apply IH. intros c' Hc'. apply H. now right.
Qed.

Lemma nodupb_NoDup xs : Str.nodupb xs = true <-> List.NoDup xs.
Proof.
  induction xs as [|x xs IH]; simpl.
  - split; [constructor | reflexivity].
  - rewrite andb_true_iff, negb_true_iff, mem_false, IH. split.
    + intros [? ?]. constructor; assumption.
    + intros H. inversion H; subst. split; assumption.
Qed.

Lemma value_eqb_eq a b : value_eqb a b = true <-> a = b.
Proof.
  destruct a, b; simpl; split; intros H; try congruence; try discriminate.
  - apply Z.eqb_eq in H. now subst.
  - inversion H. apply Z.eqb_refl.
  - apply String.eqb_eq in H. now subst.
  - inversion H. apply String.eqb_refl.
Qed.

Lemma key_eqb_eq a b : key_eqb a b = true <-> a = b.
Proof.
  unfold key_eqb. revert b. induction a as [|x a IH]; intros [|y b]; simpl.
  - split; reflexivity.
  - split; discriminate.
  - split; discriminate.
  - specialize (IH b). split.
    + intros H. apply andb_prop in H as [Hl H]. apply andb_prop in H as [Hx Hf].
      apply value_eqb_eq in Hx. subst. f_equal. apply IH. now rewrite Hl, Hf.
    + intros E. inversion E; subst. destruct IH as [_ IH]. specialize (IH eq_refl).
      apply andb_prop in IH as [Hl Hf]. rewrite Hl, Hf.
      assert (value_eqb y y = true) as -> by now apply value_eqb_eq.
      reflexivity.
Qed.

Lemma key_eqb_refl a : key_eqb a a = true.
Proof. now apply key_eqb_eq. Qed.

Lemma existsb_key_eqb kt kts : existsb (key_eqb kt) kts = true <-> In kt kts.
Proof.
  rewrite existsb_exists. split.
  - intros (x & Hx & E). apply key_eqb_eq in E. now subst.
  - intros H. exists kt. split; [assumption | apply key_eqb_refl].
Qed.

(** A mask computed row by row selects the rows that satisfy it. *)
Lemma mask_filter {A} (f : A -> bool) (rs : list A) :
  map fst (List.filter snd (combine rs (map f rs))) = List.filter f rs.
Proof.
  induction rs as [|r rs IH]; simpl; [reflexivity|].
  destruct (f r); simpl; now rewrite IH.
Qed.

(** The same for a mask computed from one column. *)
Lemma mask_column {A B} (f : A -> B) (g : B -> bool) (rs : list A) :
  map fst (List.filter snd (combine rs (map g (map f rs)))) = List.filter (fun r => g (f r)) rs.
Proof. rewrite map_map. apply (mask_filter (fun r => g (f r))). Qed.

Lemma cell_app_l cols1 cols2 r1 r2 c :
  In c cols1 -> length r1 = length cols1 ->
  cell (cols1 ++ cols2) (r1 ++ r2) c = cell cols1 r1 c.
Proof.
  revert r1. induction cols1 as [|c1 cols1 IH]; intros [|v r1] Hin Hlen; simpl in *;
    try contradiction; try discriminate.
  destruct (String.eqb c1 c) eqn:E; [reflexivity|].
  apply IH; [|lia]. destruct Hin as [->|]; [|assumption].
  rewrite String.eqb_refl in E. discriminate.
Qed.

Lemma cell_app_r cols1 cols2 r1 r2 c :
  ~ In c cols1 -> length r1 = length cols1 ->
  cell (cols1 ++ cols2) (r1 ++ r2) c = cell cols2 r2 c.
Proof.
  revert r1. induction cols1 as [|c1 cols1 IH]; intros [|v r1] Hin Hlen; simpl in *;
    try discriminate; [reflexivity|].
  destruct (String.eqb c1 c) eqn:E.
  - apply String.eqb_eq in E. exfalso. apply Hin. now left.
  - apply IH; [|lia]. intros H. apply Hin. now right.
Qed.

Lemma cell_absent cols r c : ~ In c cols -> cell cols r c = VNull.
Proof.
  revert r. induction cols as [|c1 cols IH]; intros [|v r] Hin; simpl; try reflexivity.
  destruct (String.eqb c1 c) eqn:E.
  - apply String.eqb_eq in E. exfalso. apply Hin. now left.
  - apply IH. intros H. apply Hin. now right.
Qed.

(** The cells selected under the labels [cs] are found again under them. *)
Lemma cell_map (g : string -> value) cs c : In c cs -> cell cs (map g cs) c = g c.
Proof.
  induction cs as [|c1 cs IH]; simpl; [contradiction|].
  intros Hin. destruct (String.eqb c1 c) eqn:E.
  - apply String.eqb_eq in E. now subst.
  - apply IH. destruct Hin as [->|]; [|assumption].
    rewrite String.eqb_refl in E. discriminate.
Qed.

(** Renaming the labels leaves a cell in place when its own label is kept
    and no label is repeated after the renaming. *)
Lemma cell_rename (f : string -> string) cols r c :
  In c cols -> f c = c -> List.NoDup (map f cols) ->
  cell (map f cols) r c = cell cols r c.
Proof.
  revert r. induction cols as [|c1 cols IH]; intros r Hin Hf Hnd; simpl in *; [contradiction|].
  destruct r as [|v r]; [reflexivity|].
  inversion Hnd as [|? ? Hnot Hnd']; subst.
  destruct (String.eqb_spec c1 c) as [->|Hne].
  - rewrite Hf, String.eqb_refl. reflexivity.
  - destruct Hin as [->|Hin]; [contradiction|].
    destruct (String.eqb_spec (f c1) c) as [E|_].
    + exfalso. apply Hnot. rewrite E, <- Hf. now apply in_map.
    + now apply IH.
Qed.

Lemma keep_cells_app keep cols1 cols2 r1 r2 :
  length r1 = length cols1 ->
  keep_cells keep (cols1 ++ cols2) (r1 ++ r2)
  = keep_cells keep cols1 r1 ++ keep_cells keep cols2 r2.
Proof.
  revert r1. induction cols1 as [|c cols1 IH]; intros [|v r1] Hlen; simpl in *;
    try discriminate; [reflexivity|].
  rewrite IH by lia. now destruct (keep c).
Qed.

Lemma keep_cells_all keep cols r :
  (forall c, In c cols -> keep c = true) -> length r = length cols ->
  keep_cells keep cols r = r.
Proof.
  revert r. induction cols as [|c cols IH]; intros [|v r] Hk Hlen; simpl in *;
    try discriminate; [reflexivity|].
  rewrite Hk by now left. f_equal. apply IH; [|lia]. intros c' Hc'. apply Hk. now right.
Qed.

Lemma filter_all {A} (f : A -> bool) l :
  (forall x, In x l -> f x = true) -> List.filter f l = l.
Proof.
  induction l as [|x l IH]; simpl; intros H; [reflexivity|].
  rewrite H by now left. f_equal. apply IH. intros y Hy. apply H. now right.
Qed.

Lemma filter_none {A} (f : A -> bool) l :
  (forall x, In x l -> f x = false) -> List.filter f l = [].
Proof.
  induction l as [|x l IH]; simpl; intros H; [reflexivity|].
  rewrite H by now left. apply IH. intros y Hy. apply H. now right.
Qed.

End Facts.

(** ** The merge and the left-only pipeline *)

Module MergeFacts.
Import Pd Classifier Classes Facts.

Lemma status_col_In df sc : status_col df = Some sc -> In sc (columns df).
Proof. unfold status_col. intros H. apply List.find_some in H. tauto. Qed.

Lemma active_rows_spec T :
  active_rows T = Ok (mkDF (columns T) (List.filter (is_active T) (rows T))).
Proof.
  unfold active_rows, is_active. destruct (status_col T) as [sc|] eqn:E.
  - unfold getitem. apply status_col_In in E.
    apply mem_In in E. rewrite E. simpl. unfold mask_rows. simpl.
    now rewrite mask_column.
  - rewrite filter_all by reflexivity. now destruct T.
Qed.

Lemma label_values_Ok df k :
  label_values df k = Ok tt <-> In k (columns df) /\ Str.count k (columns df) = 1.
Proof.
  unfold label_values. rewrite <- mem_In.
  destruct (Str.mem k (columns df)); simpl; [|split; [discriminate | intros [? _]; discriminate]].
  destruct (Nat.eqb_spec (Str.count k (columns df)) 1) as [E|E]; simpl.
  - tauto.
  - split; [discriminate | tauto].
Qed.

Lemma merge_keys_Ok left right on :
  merge_keys left right on = Ok tt <->
  forall k, In k on ->
    (In k (columns left) /\ Str.count k (columns left) = 1)
    /\ (In k (columns right) /\ Str.count k (columns right) = 1).
Proof.
  induction on as [|k on IH]; simpl.
  - split; [intros _ k [] | reflexivity].
  - destruct (label_values right k) as [[]|x] eqn:Er; cbn [mbind result_bind].
    + destruct (label_values left k) as [[]|y] eqn:El; cbn [mbind result_bind].
      * apply label_values_Ok in Er, El. rewrite IH. split.
        -- intros H k' [<-|Hk']; [tauto | now apply H].
        -- intros H k' Hk'. apply H. now right.
      * split; [discriminate|]. intros H. destruct (H k (or_introl eq_refl)) as [Hl _].
        apply label_values_Ok in Hl. congruence.
    + split; [discriminate|]. intros H. destruct (H k (or_introl eq_refl)) as [_ Hr].
      apply label_values_Ok in Hr. congruence.
Qed.

Lemma indicator_check_Ok left right :
  indicator_check left right = Ok tt <->
  forall c, In c ["_left_indicator"; "_right_indicator"; "_merge"] ->
    ~ In c (columns left) /\ ~ In c (columns right).
Proof.
  unfold indicator_check. split.
  - intros H c Hc. rewrite <- !mem_false.
    destruct (Str.mem "_left_indicator" (columns left)) eqn:E1; [discriminate|].
    destruct (Str.mem "_left_indicator" (columns right)) eqn:E2; [discriminate|].
    destruct (Str.mem "_right_indicator" (columns left)) eqn:E3; [discriminate|].
    destruct (Str.mem "_right_indicator" (columns right)) eqn:E4; [discriminate|].
    destruct (Str.mem "_merge" (columns left)) eqn:E5; [discriminate|].
    destruct (Str.mem "_merge" (columns right)) eqn:E6; [discriminate|].
    simpl in Hc. destruct Hc as [<-|[<-|[<-|[]]]]; split; assumption.
  - intros H.
    destruct (H "_left_indicator") as [E1 E2]; [simpl; tauto|].
    destruct (H "_right_indicator") as [E3 E4]; [simpl; tauto|].
    destruct (H "_merge") as [E5 E6]; [simpl; tauto|].
    apply mem_false in E1, E2, E3, E4, E5, E6.
    now rewrite E1, E2, E3, E4, E5, E6.
Qed.

(** The suffixes clash on none of the four counts. *)
Lemma suffix_clash_false left right on sfx :
  suffix_clash left right on sfx = false <->
  List.NoDup (left_labels left right on (fst sfx))
  /\ List.NoDup (right_labels left right on (snd sfx))
  /\ (forall l, In l (left_labels left right on (fst sfx)) ->
         In l (rest_labels right on) -> In l (columns left))
  /\ (forall r, In r (right_labels left right on (snd sfx)) ->
         In r (columns left) -> In r (rest_labels right on)).
Proof.
  unfold suffix_clash. rewrite !orb_false_iff, !negb_false_iff, !nodupb_NoDup.
  assert (Hex : forall (p : string -> bool) ls,
            existsb p ls = false <-> forall x, In x ls -> p x = false).
  { intros p ls. induction ls as [|x ls IH]; simpl.
    - split; [intros _ x [] | reflexivity].
    - rewrite orb_false_iff, IH. split.
      + intros [Hx H] y [<-|Hy]; [assumption | now apply H].
      + intros H. split; [apply H; now left | intros y Hy; apply H; now right]. }
  rewrite !Hex. split.
  - intros [[[Hl Hr] H3] H4]. repeat split; try assumption.
    + intros l Hl' Hin. specialize (H3 l Hl'). apply mem_In in Hin. rewrite Hin in H3.
      simpl in H3. apply negb_false_iff in H3. now apply mem_In.
    + intros r Hr' Hin. specialize (H4 r Hr'). apply mem_In in Hin. rewrite Hin in H4.
      simpl in H4. apply negb_false_iff in H4. now apply mem_In.
  - intros (Hl & Hr & H3 & H4). repeat split; try assumption.
    + intros l Hl'. destruct (Str.mem l (rest_labels right on)) eqn:E; [|reflexivity].
      simpl. apply negb_false_iff, mem_In, H3; [assumption | now apply mem_In].
    + intros r Hr'. destruct (Str.mem r (columns left)) eqn:E; [|reflexivity].
      simpl. apply negb_false_iff, mem_In, H4; [assumption | now apply mem_In].
Qed.

Lemma merge_checks_Ok left right on sfx ind :
  merge_checks left right on sfx ind = Ok tt -> checked left right on sfx ind.
Proof.
  unfold merge_checks. intros H.
  destruct (merge_keys left right on) as [[]|x] eqn:Ek; [|discriminate].
  cbn [mbind result_bind] in H.
  destruct (if ind then indicator_check left right else Ok tt) as [[]|x] eqn:Ei; [|discriminate].
  cbn [mbind result_bind] in H.
  pose proof (proj1 (merge_keys_Ok _ _ _) Ek) as Hk.
  destruct on as [|k0 on0] eqn:Eon; [discriminate|]. rewrite <- Eon in *.
  destruct (suffix_clash left right on sfx) eqn:Es; [discriminate|].
  apply suffix_clash_false in Es as (Hl & Hr & _ & _).
  split; try assumption.
  - rewrite Eon. discriminate.
  - intros k Hin. now apply Hk.
  - intros k Hin. now apply Hk.
  - intros k Hin. now apply Hk.
  - intros k Hin. now apply Hk.
  - intros ->. apply indicator_check_Ok with (c := "_merge") in Ei; [assumption|].
    simpl. tauto.
Qed.

Lemma merge_Ok left right on h sfx ind m :
  merge left right on h sfx ind = Ok m ->
  checked left right on sfx ind /\
  m = mkDF (left_labels left right on (fst sfx) ++ right_labels left right on (snd sfx)
            ++ (if ind then ["_merge"] else []))
           (flat_map (joined left right on h ind) (rows left)).
Proof.
  unfold merge. destruct (merge_checks left right on sfx ind) as [[]|] eqn:E; simpl;
    [|discriminate].
  intros [= <-]. split; [now apply merge_checks_Ok | reflexivity].
Qed.

Lemma filter_flat_map {A B} (p : B -> bool) (f : A -> list B) l :
  List.filter p (flat_map f l) = flat_map (fun x => List.filter p (f x)) l.
Proof.
  induction l as [|x l IH]; simpl; [reflexivity|].
  now rewrite List.filter_app, IH.
Qed.

Lemma flat_map_if {A} (p : A -> bool) (g : A -> A) l :
  flat_map (fun x => if p x then [g x] else []) l = map g (List.filter p l).
Proof.
  induction l as [|x l IH]; simpl; [reflexivity|].
  destruct (p x); simpl; now rewrite IH.
Qed.

Lemma matches_nil left right on l :
  matches left right on l = [] <-> unmatched left right on l = true.
Proof.
  unfold matches, unmatched, frame_keys. rewrite negb_true_iff. split.
  - intros H. destruct (existsb _ _) eqn:E; [|reflexivity].
    apply existsb_exists in E as (kt & Hin & Hk).
    apply in_map_iff in Hin as (r & <- & Hr).
    assert (In r (List.filter (fun r => key_eqb (key_of (columns left) on l)
                                               (key_of (columns right) on r)) (rows right)))
      as Hf by (apply filter_In; split; assumption).
    rewrite H in Hf. destruct Hf.
  - intros H. apply filter_none. intros r Hr.
    destruct (key_eqb _ _) eqn:E; [|reflexivity].
    rewrite <- H. symmetry. apply existsb_exists.
    exists (key_of (columns right) on r). split; [|assumption].
    apply in_map_iff. now exists r.
Qed.

Lemma app_suffix_neq_merge c s :
  s = "_x" \/ s = "_y" -> c +:+ s <> "_merge".
Proof.
  intros [-> | ->];
  destruct c as [|a1 [|a2 [|a3 [|a4 [|a5 [|a6 c]]]]]]; simpl; try discriminate;
  intros H; injection H; intros; try discriminate;
  destruct c; discriminate.
Qed.

Lemma map_flat_map' {A B C} (f : B -> C) (g : A -> list B) l :
  map f (flat_map g l) = flat_map (fun x => map f (g x)) l.
Proof.
  induction l as [|x l IH]; simpl; [reflexivity|].
  now rewrite List.map_app, IH.
Qed.

Lemma flat_map_ext_in' {A B} (f g : A -> list B) l :
  (forall x, In x l -> f x = g x) -> flat_map f l = flat_map g l.
Proof.
  induction l as [|x l IH]; simpl; intros H; [reflexivity|].
  rewrite H by now left. f_equal. apply IH. intros y Hy. apply H. now right.
Qed.

Lemma left_labels_length left right on s :
  length (left_labels left right on s) = length (columns left).
Proof. unfold left_labels. apply List.length_map. Qed.

Lemma right_labels_length left right on s :
  length (right_labels left right on s) = length (rest_labels right on).
Proof. unfold right_labels. apply List.length_map. Qed.

Lemma rest_labels_In right on c :
  In c (rest_labels right on) <-> In c (columns right) /\ ~ In c on.
Proof.
  unfold rest_labels. rewrite filter_In, negb_true_iff, mem_false. tauto.
Qed.

Lemma merge_label_free left right on :
  ~ In "_merge" (columns left) -> ~ In "_merge" (columns right) ->
  ~ In "_merge" (left_labels left right on "_x" ++ right_labels left right on "_y").
Proof.
  intros Hl Hr H. apply in_app_or in H as [H|H].
  - unfold left_labels in H. apply in_map_iff in H as (c & E & Hc).
    destruct (negb _ && _).
    + revert E. apply app_suffix_neq_merge. now left.
    + subst. contradiction.
  - unfold right_labels in H. apply in_map_iff in H as (c & E & Hc).
    apply rest_labels_In in Hc as [Hc _].
    destruct (Str.mem c (columns left)).
    + revert E. apply app_suffix_neq_merge. now right.
    + subst. contradiction.
Qed.

(** [merged_df[merged_df["_merge"] == "left_only"].drop(columns=["_merge"])]
    after a left merge with the indicator: the left rows without a match,
    in their order, each followed by a missing value for every column that
    came from the right. *)
Lemma left_only_rows left right on m :
  merge left right on how_left ("_x", "_y") true = Ok m ->
  rectangular left ->
  (ind ← getitem m "_merge";
   drop (mask_rows m (map (fun v => eq v (VStr "left_only")) ind)) ["_merge"])
  = Ok (mkDF (left_labels left right on "_x" ++ right_labels left right on "_y")
             (map (fun l => l ++ map (fun _ => VNull) (rest_labels right on))
                  (List.filter (unmatched left right on) (rows left)))).
Proof.
  intros Hm Hrect. apply merge_Ok in Hm as [Hc ->]. simpl fst. simpl snd.
  destruct (chk_ind _ _ _ _ _ Hc eq_refl) as [Hl Hr].
  pose proof (merge_label_free left right on Hl Hr) as Hfree.
  set (LL := left_labels left right on "_x") in *.
  set (RL := right_labels left right on "_y") in *.
  assert (Hlen : length (LL ++ RL) = length (columns left) + length (rest_labels right on)).
  { rewrite List.length_app. unfold LL, RL.
    now rewrite left_labels_length, right_labels_length. }
  unfold getitem. simpl columns. simpl rows.
  assert (Str.mem "_merge" (LL ++ RL ++ ["_merge"]) = true) as ->.
  { apply mem_In. rewrite !in_app_iff. right. right. now left. }
  cbn [mbind result_bind]. unfold drop, mask_rows. simpl columns. simpl rows.
  assert (List.find (fun c => negb (Str.mem c (LL ++ RL ++ ["_merge"]))) ["_merge"] = None) as ->.
  { apply find_absent_None. intros c [<-|[]]. rewrite !in_app_iff. right. right. now left. }
  f_equal. f_equal.
  - rewrite List.app_assoc, List.filter_app. simpl.
    rewrite List.app_nil_r. apply filter_all. intros c Hc'.
    apply negb_true_iff. simpl. rewrite orb_false_r.
    destruct (String.eqb_spec c "_merge") as [->|]; [contradiction|reflexivity].
  - rewrite mask_column.
    rewrite filter_flat_map, map_flat_map'.
    rewrite <- flat_map_if.
    apply flat_map_ext_in'. intros l Hin.
    assert (Hll : length l = length (columns left)).
    { exact (proj1 (List.Forall_forall _ _) Hrect l Hin). }
    assert (Hrow : forall xs tag, length xs = length (rest_labels right on) ->
              cell (LL ++ RL ++ ["_merge"]) (l ++ xs ++ [tag]) "_merge" = tag
              /\ keep_cells (fun c => negb (Str.mem c ["_merge"])) (LL ++ RL ++ ["_merge"])
                            (l ++ xs ++ [tag]) = l ++ xs).
    { intros xs tag Hxs. rewrite !List.app_assoc.
      assert (length (l ++ xs) = length (LL ++ RL)) as Hl2
        by (rewrite Hlen, List.length_app; lia).
      split.
      - rewrite cell_app_r by assumption. simpl. reflexivity.
      - rewrite keep_cells_app by assumption. simpl. rewrite List.app_nil_r.
        apply keep_cells_all; [|assumption]. intros c Hc'.
        apply negb_true_iff. simpl. rewrite orb_false_r.
        destruct (String.eqb_spec c "_merge") as [->|]; [contradiction|reflexivity]. }
    unfold joined. destruct (matches left right on l) as [|r0 ms] eqn:Em.
    + apply matches_nil in Em. rewrite Em.
      destruct (Hrow (map (fun _ => VNull) (rest_labels right on)) (VStr "left_only"))
        as [Hcell Hkeep]; [apply List.length_map|].
      simpl. rewrite Hcell. simpl. f_equal. exact Hkeep.
    + assert (unmatched left right on l = false) as ->.
      { destruct (unmatched left right on l) eqn:Eu; [|reflexivity].
        apply matches_nil in Eu. congruence. }
      rewrite filter_none; [reflexivity|].
      intros jr Hjr. apply in_map_iff in Hjr as (r & <- & _).
      destruct (Hrow (map (cell (columns right) r) (rest_labels right on)) (VStr "both"))
        as [Hcell _]; [apply List.length_map|].
      now rewrite Hcell.
Qed.

End MergeFacts.

(** ** What the three classifiers return *)

Module ClassifierFacts.
Import Pd Classifier Classes Facts MergeFacts.

Lemma filter_filter' {A} (f g : A -> bool) l :
  List.filter g (List.filter f l) = List.filter (fun x => f x && g x) l.
Proof.
  induction l as [|x l IH]; simpl; [reflexivity|].
  destruct (f x); simpl; [destruct (g x)|]; now rewrite IH.
Qed.

Lemma rectangular_filter df (p : list value -> bool) :
  rectangular df -> rectangular (mkDF (columns df) (List.filter p (rows df))).
Proof.
  unfold rectangular. simpl. rewrite !List.Forall_forall.
  intros H r Hr. apply filter_In in Hr as [Hr _]. now apply H.
Qed.

Lemma select_Ok df cs out :
  select df cs = Ok out ->
  (forall c, In c cs -> In c (columns df)) /\
  out = mkDF cs (map (fun r => map (cell (columns df) r) cs) (rows df)).
Proof.
  unfold select. destruct (List.find _ cs) eqn:E; [discriminate|].
  intros [= <-]. split; [|reflexivity]. now apply find_absent_None.
Qed.

(** The key tuples of [df[business_keys]] are those of [df]. *)
Lemma frame_keys_select df K :
  frame_keys (mkDF K (map (fun r => map (cell (columns df) r) K) (rows df))) K
  = frame_keys df K.
Proof.
  unfold frame_keys, key_of. simpl. rewrite map_map. apply map_ext. intros r.
  apply map_ext_in. intros k Hk. now apply cell_map.
Qed.

Lemma rest_labels_keys K rs : rest_labels (mkDF K rs) K = [].
Proof.
  unfold rest_labels. simpl. apply filter_none. intros c Hc.
  apply negb_false_iff. now apply mem_In.
Qed.

(** [find_deleted_records] returns the target frame cut down to its active
    rows without a key match in the source. *)
Lemma deleted_spec S T K D :
  find_deleted_records S T K = Ok D -> rectangular T ->
  D = mkDF (columns T)
           (List.filter (fun t => is_active T t && unmatched T S K t) (rows T)).
Proof.
  unfold find_deleted_records. rewrite active_rows_spec. cbn [mbind result_bind].
  destruct (select S K) as [src|] eqn:Es; [|discriminate]. cbn [mbind result_bind].
  apply select_Ok in Es as [HK ->].
  set (Tact := mkDF (columns T) (List.filter (is_active T) (rows T))).
  set (src := mkDF K _).
  destruct (merge Tact src K how_left ("_x", "_y") true) as [m|] eqn:Em; [|discriminate].
  cbn [mbind result_bind]. intros H Hrect.
  rewrite (left_only_rows _ _ _ _ Em (rectangular_filter T _ Hrect)) in H.
  injection H as <-.
  assert (Hrest : rest_labels src K = []) by apply rest_labels_keys.
  unfold right_labels, left_labels. rewrite Hrest. simpl.
  rewrite List.app_nil_r. f_equal.
  - rewrite <- (List.map_id (columns T)) at 2. apply map_ext. intros c.
    now rewrite andb_false_r.
  - rewrite filter_filter'.
    rewrite (map_ext _ (fun l => l)) by (intros l; apply List.app_nil_r).
    rewrite List.map_id. apply List.filter_ext. intros t. f_equal.
    unfold unmatched. simpl. unfold src. now rewrite frame_keys_select.
Qed.

(** [find_new_records] returns the source rows without a key match in the
    target, each followed by a missing value for every other target
    column. *)
Lemma new_spec S T K N :
  find_new_records S T K = Ok N -> rectangular S ->
  checked S T K ("_x", "_y") true /\
  N = mkDF (left_labels S T K "_x" ++ right_labels S T K "_y")
           (map (fun l => l ++ map (fun _ => VNull) (rest_labels T K))
                (List.filter (unmatched S T K) (rows S))).
Proof.
  unfold find_new_records.
  destruct (merge S T K how_left ("_x", "_y") true) as [m|] eqn:Em; [|discriminate].
  cbn [mbind result_bind]. intros H Hrect.
  rewrite (left_only_rows _ _ _ _ Em Hrect) in H. injection H as <-.
  split; [|reflexivity]. now apply merge_Ok in Em as [Hc _].
Qed.

(** A key column keeps its label and its place through the merge. *)
Lemma key_of_merged left right on sfx ind l xs :
  checked left right on sfx ind -> length l = length (columns left) ->
  key_of (left_labels left right on (fst sfx) ++ right_labels left right on (snd sfx))
         on (l ++ xs)
  = key_of (columns left) on l.
Proof.
  intros Hc Hlen. unfold key_of. apply map_ext_in. intros k Hk.
  pose proof (chk_left _ _ _ _ _ Hc k Hk) as Hin.
  assert (Hf : (fun c => if negb (Str.mem c on) && Str.mem c (rest_labels right on)
                         then c +:+ fst sfx else c) k = k).
  { simpl. apply mem_In in Hk. now rewrite Hk. }
  rewrite cell_app_l.
  - unfold left_labels. apply cell_rename; [assumption | exact Hf | apply (chk_ll _ _ _ _ _ Hc)].
  - unfold left_labels. apply in_map_iff. exists k. split; [exact Hf | assumption].
  - now rewrite left_labels_length.
Qed.

Lemma new_keys S T K N kt :
  find_new_records S T K = Ok N -> rectangular S ->
  (In kt (frame_keys N K) <-> In kt (frame_keys S K) /\ ~ In kt (frame_keys T K)).
Proof.
  intros H Hrect. apply new_spec in H as [Hc ->]; [|assumption].
  unfold frame_keys at 1. simpl. rewrite map_map. rewrite in_map_iff. split.
  - intros (l & <- & Hl). apply filter_In in Hl as [Hl Hu].
    rewrite (key_of_merged S T K ("_x", "_y") true); [|assumption|].
    2: exact (proj1 (List.Forall_forall _ _) Hrect l Hl).
    split.
    + unfold frame_keys. now apply in_map.
    + unfold unmatched in Hu. apply negb_true_iff in Hu. intros Hin.
      apply existsb_key_eqb in Hin. congruence.
  - intros [Hin Hnot]. unfold frame_keys in Hin. apply in_map_iff in Hin as (l & <- & Hl).
    exists l. split.
    + apply (key_of_merged S T K ("_x", "_y") true); [assumption|].
      exact (proj1 (List.Forall_forall _ _) Hrect l Hl).
    + apply filter_In. split; [assumption|]. unfold unmatched. apply negb_true_iff.
      destruct (existsb _ _) eqn:E; [|reflexivity].
      apply existsb_key_eqb in E. contradiction.
Qed.

Lemma deleted_keys S T K D kt :
  find_deleted_records S T K = Ok D -> rectangular T ->
  (In kt (frame_keys D K) <->
   (exists t, In t (rows T) /\ is_active T t = true /\ key_of (columns T) K t = kt)
   /\ ~ In kt (frame_keys S K)).
Proof.
  intros H Hrect. apply deleted_spec in H; [|assumption]. subst D.
  unfold frame_keys at 1. simpl. rewrite in_map_iff. split.
  - intros (t & <- & Ht). apply filter_In in Ht as [Ht Hu].
    apply andb_prop in Hu as [Ha Hu]. split.
    + now exists t.
    + unfold unmatched in Hu. apply negb_true_iff in Hu. intros Hin.
      apply existsb_key_eqb in Hin. congruence.
  - intros [(t & Ht & Ha & <-) Hnot]. exists t. split; [reflexivity|].
    apply filter_In. split; [assumption|]. rewrite Ha. simpl.
    unfold unmatched. apply negb_true_iff.
    destruct (existsb _ _) eqn:E; [|reflexivity].
    apply existsb_key_eqb in E. contradiction.
Qed.

Lemma append_empty c : c +:+ EmptyString = c.
Proof.
  induction c as [|a c IH]; [reflexivity|].
  change (String a (c +:+ EmptyString) = String a c). now rewrite IH.
Qed.

Lemma contains_target c : Str.contains "_target" (c +:+ "_target") = true.
Proof.
  induction c as [|a c IH]; [reflexivity|].
  change (String.prefix "_target" (String a (c +:+ "_target"))
          || Str.contains "_target" (c +:+ "_target") = true).
  rewrite IH. apply orb_true_r.
Qed.

Lemma combine_map {A B C} (a : A -> B) (b : A -> C) rs :
  combine (map a rs) (map b rs) = map (fun r => (a r, b r)) rs.
Proof. induction rs as [|r rs IH]; simpl; [reflexivity | now rewrite IH]. Qed.

Lemma series_ne_map {A} (a b : A -> value) rs :
  series_ne (map a rs) (map b rs) = map (fun r => ne (a r) (b r)) rs.
Proof. unfold series_ne. now rewrite combine_map, map_map. Qed.

Lemma any_axis1_rows {A F} (g : F -> A -> bool) (fs : list F) (rs : list A) :
  any_axis1 (map (fun f => map (g f) rs) fs) (length rs)
  = map (fun r => existsb (fun f => g f r) fs) rs.
Proof.
  induction fs as [|f fs IH]; simpl.
  - induction rs as [|r rs IHr]; simpl; [reflexivity | now rewrite IHr].
  - rewrite IH, combine_map, map_map. reflexivity.
Qed.

Lemma concat_any_map {A} (g : A -> list bool) xs n :
  xs <> [] -> concat_any (map g xs) n = Ok (any_axis1 (map g xs) n).
Proof. destruct xs; [congruence | reflexivity]. Qed.

Lemma mapM_map {A B} (f : A -> result B) (g : A -> B) xs :
  (forall x, In x xs -> f x = Ok (g x)) -> mapM f xs = Ok (map g xs).
Proof.
  induction xs as [|x xs IH]; simpl; intros H; [reflexivity|].
  rewrite H by now left. cbn [mbind result_bind].
  rewrite IH; [reflexivity|]. intros y Hy. apply H. now right.
Qed.

(** A row read back under its own labels. *)
Lemma row_roundtrip cols r :
  List.NoDup cols -> length r = length cols -> map (cell cols r) cols = r.
Proof.
  revert r. induction cols as [|c cols IH]; intros [|v r] Hnd Hlen; simpl in *;
    try discriminate; [reflexivity|].
  inversion Hnd as [|? ? Hnot Hnd']; subst.
  rewrite String.eqb_refl. f_equal.
  transitivity (map (cell cols r) cols); [|apply IH; [assumption | lia]].
  apply map_ext_in. intros c' Hc'.
  destruct (String.eqb_spec c c') as [->|]; [contradiction | reflexivity].
Qed.

(** Cells stored under renamed labels are found under the renamed label. *)
Lemma cell_renamed (h : string -> string) (g : string -> value) cs f :
  List.NoDup (map h cs) -> In f cs -> cell (map h cs) (map g cs) (h f) = g f.
Proof.
  induction cs as [|c cs IH]; simpl; intros Hnd Hin; [contradiction|].
  inversion Hnd as [|? ? Hnot Hnd']; subst.
  destruct (String.eqb_spec (h c) (h f)) as [E|Hne].
  - destruct Hin as [->|Hin]; [reflexivity|].
    exfalso. apply Hnot. rewrite E. now apply in_map.
  - destruct Hin as [->|Hin]; [contradiction|]. now apply IH.
Qed.

Lemma joined_inner left right on l :
  joined left right on how_inner false l
  = map (fun r => l ++ map (cell (columns right) r) (rest_labels right on))
        (matches left right on l).
Proof.
  unfold joined. destruct (matches left right on l); [reflexivity|].
  apply map_ext. intros r. now rewrite List.app_nil_r.
Qed.

Section Changed.
Variables (S T : DataFrame) (K E : list string).

Local Abbreviation S' := (lower_columns S).
Local Abbreviation T' := (lower_columns T).
Local Abbreviation K' := (map Str.lower K).
Local Abbreviation E' := (map Str.lower E).
Local Abbreviation Tact := (active_target T).
Local Abbreviation cf := (compare_fields S T K E).
Local Abbreviation right := (right_frame S T K E).
Local Abbreviation mc := (merged_labels S T K E).
Local Abbreviation keep := (kept_labels S T K E).

Lemma cf_In f :
  In f cf <-> In f (columns S') /\ ~ In f K' /\ ~ In f E' /\ In f (columns T').
Proof.
  unfold cf, compare_fields_of. rewrite !filter_In, negb_true_iff, mem_false, mem_In.
  simpl. rewrite in_app_iff. tauto.
Qed.

Lemma rest_right : rest_labels right K' = cf.
Proof.
  unfold rest_labels, right. simpl. rewrite List.filter_app.
  rewrite filter_none, filter_all; [reflexivity| |].
  - intros f Hf. apply cf_In in Hf as (_ & Hk & _). apply negb_true_iff. now apply mem_false.
  - intros k Hk. apply negb_false_iff. now apply mem_In.
Qed.

Lemma left_labels_right : left_labels S' right K' EmptyString = columns S'.
Proof.
  unfold left_labels. rewrite <- (List.map_id (columns S')) at 2. apply map_ext.
  intros c. rewrite append_empty. now destruct (_ && _).
Qed.

Lemma right_labels_right :
  right_labels S' right K' "_target" = map (fun f => f +:+ "_target") cf.
Proof.
  unfold right_labels. rewrite rest_right. apply map_ext_in. intros f Hf.
  apply cf_In in Hf as (Hs & _). apply mem_In in Hs. now rewrite Hs.
Qed.

Lemma changed_spec C :
  find_changed_records S T K E = Ok C ->
  cf <> [] /\
  checked S' right K' (EmptyString, "_target") false /\
  C = mkDF keep
           (map (fun r => map (cell mc r) keep)
                (List.filter (differs S T K E) (flat_map (joined S' right K' how_inner false) (rows S)))).
Proof.
  unfold find_changed_records. fold S' T' K' E'.
  rewrite active_rows_spec. cbn [mbind result_bind]. fold Tact. fold cf.
  destruct (select Tact (K' ++ cf)) as [rt|] eqn:Es; [|discriminate].
  apply select_Ok in Es as [_ ->]. cbn [mbind result_bind].
  change (merge S' _ K' how_inner (EmptyString, "_target") false)
    with (merge S' right K' how_inner (EmptyString, "_target") false).
  destruct (merge S' right K' how_inner (EmptyString, "_target") false) as [m|] eqn:Em;
    [|discriminate].
  apply merge_Ok in Em as [Hc ->]. cbn [mbind result_bind].
  simpl fst. simpl snd. rewrite left_labels_right, right_labels_right, List.app_nil_r.
  fold mc. simpl rows. simpl columns.
  set (mrows := flat_map (joined S' right K' how_inner false) (rows S)).
  rewrite (mapM_map _ (fun f => map (fun r => ne (cell mc r f) (cell mc r (f +:+ "_target")))
                                    mrows)).
  2:{ intros f Hf. unfold getitem. simpl columns. simpl rows.
      assert (Str.mem f mc = true) as ->.
      { apply mem_In. unfold mc. apply in_or_app. left. now apply cf_In in Hf. }
      cbn [mbind result_bind].
      assert (Str.mem (f +:+ "_target") mc = true) as ->.
      { apply mem_In. unfold mc. apply in_or_app. right.
        apply in_map_iff. now exists f. }
      cbn [mbind result_bind]. now rewrite series_ne_map. }
  cbn [mbind result_bind].
  assert (Hcases : cf = [] \/ cf <> []) by (destruct cf; [now left | now right]).
  destruct Hcases as [Hnil | Hne]; [rewrite Hnil; discriminate|].
  
  rewrite concat_any_map by assumption.
  cbn [mbind result_bind].
  rewrite (any_axis1_rows (fun f r => ne (cell mc r f) (cell mc r (f +:+ "_target")))).
  unfold mask_rows. simpl columns. simpl rows.
  rewrite mask_filter. fold keep.
  unfold select. simpl columns. simpl rows.
  assert (List.find (fun c => negb (Str.mem c mc)) keep = None) as ->.
  { apply find_absent_None. intros c Hc'. unfold keep in Hc'.
    now apply filter_In in Hc' as [? _]. }
  intros [= <-]. split; [exact Hne | split; [exact Hc | reflexivity]].
Qed.

Lemma lowered_length s :
  rectangular S -> In s (rows S) -> length s = length (columns S').
Proof.
  intros Hrect Hs. simpl. rewrite List.length_map.
  exact (proj1 (List.Forall_forall _ _) Hrect s Hs).
Qed.

(** The rows of the inner merge: a source row followed by the compared
    cells of an active target row with the same key tuple. *)
Lemma merged_rows_In mrow :
  In mrow (flat_map (joined S' right K' how_inner false) (rows S)) <->
  exists s t, In s (rows S) /\ In t (rows T) /\ is_active T' t = true
    /\ key_of (columns S') K' s = key_of (columns T') K' t
    /\ mrow = s ++ map (cell (columns T') t) cf.
Proof.
  rewrite in_flat_map. setoid_rewrite joined_inner. rewrite rest_right.
  assert (Hproj : forall t cs, (forall c, In c cs -> In c (K' ++ cf)) ->
            map (cell (columns right) (map (cell (columns T') t) (K' ++ cf))) cs
            = map (cell (columns T') t) cs).
  { intros t cs Hcs. apply map_ext_in. intros c Hc. simpl. apply cell_map. now apply Hcs. }
  split.
  - intros (s & Hs & Hin). apply in_map_iff in Hin as (rr & <- & Hrr).
    unfold matches in Hrr. apply filter_In in Hrr as [Hrr Hk].
    simpl in Hrr. apply in_map_iff in Hrr as (t & <- & Ht).
    apply filter_In in Ht as [Ht Ha]. exists s, t.
    repeat split; try assumption.
    + apply key_eqb_eq in Hk. rewrite Hk. unfold key_of. apply Hproj.
      intros c Hc. apply in_or_app. now left.
    + f_equal. apply Hproj. intros c Hc. apply in_or_app. now right.
  - intros (s & t & Hs & Ht & Ha & Hk & ->). exists s. split; [assumption|].
    apply in_map_iff. exists (map (cell (columns T') t) (K' ++ cf)). split.
    + f_equal. apply Hproj. intros c Hc. apply in_or_app. now right.
    + unfold matches. apply filter_In. split.
      * simpl. apply in_map_iff. exists t. split; [reflexivity|].
        apply filter_In. split; assumption.
      * apply key_eqb_eq. rewrite Hk. symmetry. unfold key_of. apply Hproj.
        intros c Hc. apply in_or_app. now left.
Qed.

(** Every changed row carries the key tuple of a source row and of an
    active target row, as long as the key labels survive the final
    projection. *)
Lemma changed_keys C kt :
  find_changed_records S T K E = Ok C -> rectangular S ->
  (forall k, In k K' -> Str.contains "_target" k = false) ->
  In kt (frame_keys C K') ->
  In kt (frame_keys S' K') /\
  exists t, In t (rows T) /\ is_active T' t = true /\ key_of (columns T') K' t = kt.
Proof.
  intros HC Hrect Hclean Hin. apply changed_spec in HC as (_ & Hc & ->).
  unfold frame_keys in Hin. simpl in Hin. rewrite map_map in Hin.
  apply in_map_iff in Hin as (mrow & <- & Hm).
  apply filter_In in Hm as [Hm _]. apply merged_rows_In in Hm as (s & t & Hs & Ht & Ha & Hk & ->).
  assert (Hkey : key_of keep K' (map (cell mc (s ++ map (cell (columns T') t) cf)) keep)
                 = key_of (columns S') K' s).
  { unfold key_of. apply map_ext_in. intros k Hk'.
    assert (In k (columns S')) as Hks by exact (chk_left _ _ _ _ _ Hc k Hk').
    rewrite cell_map.
    - unfold mc. apply cell_app_l; [assumption|]. now apply lowered_length.
    - unfold keep. apply filter_In. split.
      + unfold mc. apply in_or_app. now left.
      + apply negb_true_iff. now apply Hclean. }
  rewrite Hkey. split.
  - unfold frame_keys. simpl. now apply in_map.
  - exists t. repeat split; try assumption. now symmetry.
Qed.

(** When no source label contains the marker [_target], the result is the
    source frame cut down to the rows that differ, in a compared field,
    from an active target row with the same key tuple. *)
Lemma changed_rows C :
  find_changed_records S T K E = Ok C -> rectangular S -> 
  (forall c, In c (columns S') -> Str.contains "_target" c = false) ->
  columns C = columns S' /\
  forall r, In r (rows C) <->
    In r (rows S) /\
    exists t, In t (rows T) /\ is_active T' t = true
      /\ key_of (columns S') K' r = key_of (columns T') K' t
      /\ exists f, In f cf /\ ne (cell (columns S') r f) (cell (columns T') t f) = true.
Proof.
  intros HC Hrect Hclean. apply changed_spec in HC as (_ & Hc & ->).
  assert (Hnd : List.NoDup (columns S')).
  { rewrite <- left_labels_right. exact (chk_ll _ _ _ _ _ Hc). }
  assert (Hndr : List.NoDup (map (fun f => f +:+ "_target") cf)).
  { rewrite <- right_labels_right. exact (chk_rl _ _ _ _ _ Hc). }
  assert (Hkeep : keep = columns S').
  { unfold keep, mc. rewrite List.filter_app, filter_all, filter_none.
    - apply List.app_nil_r.
    - intros c Hc'. apply in_map_iff in Hc' as (f & <- & _).
      apply negb_false_iff. apply contains_target.
    - intros c Hc'. apply negb_true_iff. now apply Hclean. }
  simpl columns. simpl rows. split; [exact Hkeep|]. rewrite Hkeep.
  assert (Hcells : forall s t, In s (rows S) ->
    map (cell mc (s ++ map (cell (columns T') t) cf)) (columns S') = s
    /\ forall f, In f cf ->
         cell mc (s ++ map (cell (columns T') t) cf) f = cell (columns S') s f
         /\ cell mc (s ++ map (cell (columns T') t) cf) (f +:+ "_target")
            = cell (columns T') t f).
  { intros s t Hs.
    assert (Hlen : length s = length (columns S')) by now apply lowered_length.
    split.
    - transitivity (map (cell (columns S') s) (columns S')); [|now apply row_roundtrip].
      apply map_ext_in. intros c Hc'. unfold mc. now apply cell_app_l.
    - intros f Hf. pose proof (proj1 (cf_In f) Hf) as (Hfs & _). unfold mc. split.
      + now apply cell_app_l.
      + rewrite cell_app_r; [|intros Hbad; apply Hclean in Hbad;
                               rewrite contains_target in Hbad; discriminate|assumption].
        now apply (cell_renamed (fun f => f +:+ "_target")). }
  intros r. rewrite in_map_iff. split.
  - intros (mrow & <- & Hm). apply filter_In in Hm as [Hm Hd].
    apply merged_rows_In in Hm as (s & t & Hs & Ht & Ha & Hk & ->).
    destruct (Hcells s t Hs) as [Hrow Hf]. rewrite Hrow. split; [assumption|].
    exists t. repeat split; try assumption.
    apply existsb_exists in Hd as (f & Hfin & Hne). exists f. split; [assumption|].
    destruct (Hf f Hfin) as [E1 E2]. rewrite E1, E2 in Hne. exact Hne.
  - intros (Hs & t & Ht & Ha & Hk & f & Hfin & Hne).
    destruct (Hcells r t Hs) as [Hrow Hf].
    exists (r ++ map (cell (columns T') t) cf). split; [assumption|].
    apply filter_In. split.
    + apply merged_rows_In. exists r, t. repeat split; assumption.
    + apply existsb_exists. exists f. split; [assumption|].
      destruct (Hf f Hfin) as [E1 E2]. rewrite E1, E2. exact Hne.
Qed.

End Changed.

Lemma lower_ascii_idem a : Str.lower_ascii (Str.lower_ascii a) = Str.lower_ascii a.
Proof. destruct a as [[] [] [] [] [] [] [] []]; reflexivity. Qed.

Lemma lower_idem s : Str.lower (Str.lower s) = Str.lower s.
Proof.
  induction s as [|a s IH]; simpl; [reflexivity|].
  now rewrite lower_ascii_idem, IH.
Qed.

Lemma count_pos x xs : In x xs -> 1 <= Str.count x xs.
Proof.
  unfold Str.count. induction xs as [|y xs IH]; simpl; [contradiction|].
  intros [->|Hin].
  - rewrite String.eqb_refl. simpl. lia.
  - specialize (IH Hin). destruct (String.eqb x y); simpl; lia.
Qed.

(** Lower-casing the labels keeps a cell in place when the lower-cased
    label names one column. *)
Lemma cell_lower cols r k :
  In k cols -> Str.count (Str.lower k) (map Str.lower cols) = 1 ->
  cell (map Str.lower cols) r (Str.lower k) = cell cols r k.
Proof.
  revert r. induction cols as [|c cols IH]; intros r Hin Hcount; [contradiction|].
  destruct r as [|v r]; [reflexivity|]. simpl.
  unfold Str.count in Hcount. simpl in Hcount.
  destruct (String.eqb_spec c k) as [->|Hne].
  - now rewrite String.eqb_refl.
  - destruct Hin as [->|Hin]; [contradiction|].
    rewrite (String.eqb_sym (Str.lower k)) in Hcount.
    destruct (String.eqb_spec (Str.lower c) (Str.lower k)) as [E|_].
    + exfalso. simpl in Hcount.
      pose proof (count_pos (Str.lower k) (map Str.lower cols) (in_map _ _ _ Hin)) as Hp.
      unfold Str.count in Hp. lia.
    + apply IH; assumption.
Qed.

Lemma key_of_lower cols K r :
  (forall k, In k K -> In k cols) ->
  (forall k, In k (map Str.lower K) -> Str.count k (map Str.lower cols) = 1) ->
  key_of (map Str.lower cols) (map Str.lower K) r = key_of cols K r.
Proof.
  intros HK Hc. unfold key_of. rewrite map_map. apply map_ext_in. intros k Hk.
  apply cell_lower; [now apply HK | apply Hc; now apply in_map].
Qed.

Lemma frame_keys_lower df K :
  (forall k, In k K -> In k (columns df)) ->
  (forall k, In k (map Str.lower K) -> Str.count k (columns (lower_columns df)) = 1) ->
  frame_keys (lower_columns df) (map Str.lower K) = frame_keys df K.
Proof.
  intros HK Hc. unfold frame_keys. simpl. apply map_ext. intros r.
  now apply key_of_lower.
Qed.

(** The status test reads the same cell before and after the labels are
    lower-cased. *)
Lemma is_active_lower T t : is_active (lower_columns T) t = is_active T t.
Proof.
  unfold is_active, status_col. simpl. revert t.
  induction (columns T) as [|c cols IH]; intros t; [reflexivity|].
  simpl. rewrite lower_idem.
  destruct (String.eqb_spec (Str.lower c) "status") as [E|Hne].
  - destruct t as [|v t]; [reflexivity|]. simpl. now rewrite !String.eqb_refl.
  - specialize (IH (List.tl t)).
    destruct (List.find _ (map Str.lower cols)) as [sc'|] eqn:E1;
    destruct (List.find (fun col => String.eqb (Str.lower col) "status") cols) as [sc|] eqn:E2.
    + destruct t as [|v t]; [reflexivity|]. simpl in *.
      apply List.find_some in E1 as [_ E1]. apply List.find_some in E2 as [_ E2].
      apply String.eqb_eq in E1, E2.
      destruct (String.eqb_spec (Str.lower c) sc') as [<-|_].
      { rewrite lower_idem in E1. contradiction. }
      destruct (String.eqb_spec c sc) as [<-|_]; [contradiction|].
      exact IH.
    + destruct t as [|v t]; [reflexivity|]. simpl in *.
      apply List.find_some in E1 as [_ E1]. apply String.eqb_eq in E1.
      destruct (String.eqb_spec (Str.lower c) sc') as [<-|_].
      { rewrite lower_idem in E1. contradiction. }
      exact IH.
    + destruct t as [|v t]; [reflexivity|]. simpl in *.
      apply List.find_some in E2 as [_ E2]. apply String.eqb_eq in E2.
      destruct (String.eqb_spec c sc) as [<-|_]; [contradiction|].
      exact IH.
    + reflexivity.
Qed.

End ClassifierFacts.

(** ** Properties of the record classifier *)

Module ClassifierTheorems.
Import Pd Classifier Classes Facts MergeFacts ClassifierFacts.

Lemma count_NoDup x xs : List.NoDup xs -> In x xs -> Str.count x xs = 1.
Proof.
  unfold Str.count. induction xs as [|y xs IH]; simpl; intros Hnd Hin; [contradiction|].
  inversion Hnd as [|? ? Hnot Hnd']; subst.
  destruct (String.eqb_spec x y) as [->|Hne].
  - simpl. rewrite filter_none; [reflexivity|].
    intros z Hz. destruct (String.eqb_spec y z) as [->|]; [contradiction | reflexivity].
  - destruct Hin as [->|Hin]; [contradiction|]. now apply IH.
Qed.

Lemma find_None_forall {A} (p : A -> bool) xs :
  (forall x, In x xs -> p x = false) -> List.find p xs = None.
Proof.
  induction xs as [|x xs IH]; simpl; intros H; [reflexivity|].
  rewrite H by now left. apply IH. intros y Hy. apply H. now right.
Qed.

(** What makes a merge pass its checks. *)
Lemma merge_checks_pass left right on sfx ind :
  on <> [] ->
  (forall k, In k on -> In k (columns left)) ->
  (forall k, In k on -> In k (columns right)) ->
  (forall k, In k on -> Str.count k (columns left) = 1) ->
  (forall k, In k on -> Str.count k (columns right) = 1) ->
  (ind = true -> free_of_indicator left /\ free_of_indicator right) ->
  suffix_clash left right on sfx = false ->
  merge_checks left right on sfx ind = Ok tt.
Proof.
  intros Hon Hl Hr Hcl Hcr Hind Hclash. unfold merge_checks.
  rewrite (proj2 (merge_keys_Ok left right on)) by (intros k Hk; repeat split; auto).
  cbn [mbind result_bind].
  assert ((if ind then indicator_check left right else Ok tt) = Ok tt) as ->.
  { destruct ind; [|reflexivity]. destruct (Hind eq_refl) as [Ha Hb].
    apply indicator_check_Ok. intros c Hc. split; [now apply Ha | now apply Hb]. }
  cbn [mbind result_bind].
  destruct on as [|k0 on0] eqn:Eon; [contradiction|]. rewrite <- Eon in *. clear Eon.
  now rewrite Hclash.
Qed.

(** A right frame that holds the keys only clashes with no label. *)
Lemma merge_checks_keys_only left right on ind :
  on <> [] -> List.NoDup on -> List.NoDup (columns left) ->
  (forall k, In k on -> In k (columns left)) ->
  columns right = on ->
  (ind = true -> free_of_indicator left) ->
  merge_checks left right on ("_x", "_y") ind = Ok tt.
Proof.
  intros Hon Hnd Hl Hin Hr Hind.
  assert (Hrest : rest_labels right on = []).
  { unfold rest_labels. rewrite Hr. apply filter_none. intros c Hc.
    apply negb_false_iff. now apply mem_In. }
  assert (Hll : left_labels left right on "_x" = columns left).
  { unfold left_labels. rewrite Hrest. simpl.
    rewrite (map_ext _ (fun c => c)); [now rewrite List.map_id|].
    intros c. now rewrite andb_false_r. }
  apply merge_checks_pass; simpl; try assumption.
  - now rewrite Hr.
  - intros k Hk. now apply count_NoDup; [|apply Hin].
  - intros k Hk. rewrite Hr. now apply count_NoDup.
  - intros Hi. split; [now apply Hind|]. intros c Hc. rewrite Hr. intros Hk.
    apply (Hind Hi c Hc). now apply Hin.
  - apply suffix_clash_false. simpl. rewrite Hll. unfold right_labels. rewrite Hrest.
    repeat split; [assumption | constructor | now intros l _ [] | now intros r []].
Qed.

(** ** Terminated rows *)

Lemma ne_string v s : ne v (VStr s) = negb (value_eqb v (VStr s)).
Proof. now destruct v. Qed.

Lemma ne_differ a b : ne a b = true <-> differ a b.
Proof.
  unfold ne, differ. destruct a, b; simpl; split; intros H; try tauto; try discriminate;
    try (right; right; discriminate).
  - right. right. intros [= E]. apply negb_true_iff, Z.eqb_neq in H. contradiction.
  - destruct H as [H|[H|H]]; try discriminate. apply negb_true_iff, Z.eqb_neq. congruence.
  - right. right. intros [= E]. apply negb_true_iff, String.eqb_neq in H. contradiction.
  - destruct H as [H|[H|H]]; try discriminate. apply negb_true_iff, String.eqb_neq. congruence.
Qed.

(** [find_deleted_records] returns, under the labels of the target, the
    rows of the target that pass its status test and whose key tuple is
    that of no source row, in their order. *)
Lemma find_deleted_records_rows S T K :
  wf_frame T -> List.NoDup (columns S) -> free_of_indicator T ->
  K <> [] -> List.NoDup K ->
  (forall k, In k K -> In k (columns S) /\ In k (columns T)) ->
  find_deleted_records S T K
  = Ok (mkDF (columns T)
             (List.filter (fun t => is_active T t && unmatched T S K t) (rows T))).
Proof.
  intros [Hnd Hrect] HndS Hfree HK HndK Hcols.
  assert (Hret : exists D, find_deleted_records S T K = Ok D).
  { unfold find_deleted_records. rewrite active_rows_spec. cbn [mbind result_bind].
    unfold select at 1.
    rewrite (proj2 (find_absent_None (columns S) K)) by (intros k Hk; now apply Hcols).
    cbn [mbind result_bind].
    set (Tact := mkDF (columns T) (List.filter (is_active T) (rows T))).
    set (src := mkDF K _).
    assert (Hm : merge_checks Tact src K ("_x", "_y") true = Ok tt).
    { apply merge_checks_keys_only; simpl; try assumption; try reflexivity.
      - intros k Hk. now apply Hcols.
      - intros _. exact Hfree. }
    destruct (merge Tact src K how_left ("_x", "_y") true) as [m|x] eqn:Em.
    - cbn [mbind result_bind].
      rewrite (left_only_rows _ _ _ _ Em (rectangular_filter T _ Hrect)). eauto.
    - unfold merge in Em. rewrite Hm in Em. discriminate. }
  destruct Hret as [D HD]. rewrite HD. f_equal. now apply deleted_spec in HD.
Qed.

(** C6 (as the code has it).  The status test of [find_deleted_records]
    compares the status cell with the string "0".  For well-formed frames
    and usable keys the function returns, under the labels of the target
    and in their order, the target rows without a key match in the source
    whose status cell is not that string: a row whose status is the
    integer 0, the value the executor writes and tests, is returned with
    them, and only a row whose status is the string "0" is held back. *)
Theorem find_deleted_records_tests_the_string_zero S T K sc :
  wf_frame T -> wf_frame S -> free_of_indicator T ->
  K <> [] -> List.NoDup K ->
  (forall k, In k K -> In k (columns S) /\ In k (columns T)) ->
  keys_of_one_kind T S K ->
  status_col T = Some sc ->
  exists D,
    find_deleted_records S T K = Ok D
    /\ columns D = columns T
    /\ rows D = List.filter (fun t => negb (value_eqb (cell (columns T) t sc) (VStr "0"))
                                      && unmatched T S K t) (rows T)
    /\ (forall t, In t (rows T) -> unmatched T S K t = true ->
          cell (columns T) t sc = VInt 0 -> In t (rows D))
    /\ (forall t, cell (columns T) t sc = VStr "0" -> ~ In t (rows D)).
Proof.
  intros HT [HS _] Hfree HK HndK Hcols _ Hsc.
  eexists. split; [now apply find_deleted_records_rows|]. simpl.
  assert (Hact : forall t, is_active T t
                           = negb (value_eqb (cell (columns T) t sc) (VStr "0"))).
  { intros t. unfold is_active. rewrite Hsc. apply ne_string. }
  split; [reflexivity|]. split.
  - apply List.filter_ext. intros t. now rewrite Hact.
  - split.
    + intros t Ht Hu Hc. apply filter_In. split; [assumption|].
      now rewrite Hact, Hc, Hu.
    + intros t Hc Hin. apply filter_In in Hin as [_ Hin]. rewrite Hact, Hc in Hin.
      discriminate.
Qed.

Lemma status_col_None T :
  (forall c, In c (columns T) -> Str.lower c <> "status") -> status_col T = None.
Proof.
  intros H. unfold status_col. apply find_None_forall. intros c Hc.
  apply String.eqb_neq. now apply H.
Qed.

(** ** The partition by key *)

Lemma key_In_dec (kt : list value) kts : {In kt kts} + {~ In kt kts}.
Proof.
  destruct (existsb (key_eqb kt) kts) eqn:E.
  - left. now apply existsb_key_eqb.
  - right. intros H. apply existsb_key_eqb in H. congruence.
Qed.

Lemma Changed_dec S T K E kt : Changed S T K E kt \/ ~ Changed S T K E kt.
Proof.
  unfold Changed. destruct (find_changed_records S T K E) as [C|x] eqn:HC.
  - destruct (key_In_dec kt (frame_keys C (map Str.lower K))) as [Hin|Hnot].
    + left. eauto.
    + right. intros (C' & [= <-] & Hin). contradiction.
  - right. intros (C' & [=] & _).
Qed.

(** C5.  Whenever [find_new_records] and [find_deleted_records] return, every
    key tuple of the source or of an active target row is in exactly one of
    the classes New, Terminated, Changed and Unchanged, the first three
    read off the results of the three classifiers by key.  The frames are
    rectangular, no two target labels are equal up to case, and no key
    label contains the marker "_target" that [find_changed_records] drops
    from its result. *)
Theorem classes_partition_key_space S T K E :
  rectangular S -> rectangular T ->
  List.NoDup (map Str.lower (columns T)) ->
  (forall k, In k K -> Str.contains "_target" (Str.lower k) = false) ->
  is_ok (find_new_records S T K) = true ->
  is_ok (find_deleted_records S T K) = true ->
  forall kt, key_space S T K kt ->
    exactly_one (New S T K kt) (Terminated S T K kt)
                (Changed S T K E kt) (Unchanged S T K E kt).
Proof.
  intros HrS HrT HndT Hclean HN HD kt Hspace.
  destruct (find_new_records S T K) as [N|] eqn:EN; [clear HN | discriminate].
  destruct (find_deleted_records S T K) as [D|] eqn:ED; [clear HD | discriminate].
  pose proof (new_spec S T K N EN HrS) as [Hc _].
  set (inS := In kt (frame_keys S K)).
  set (inT := In kt (frame_keys T K)).
  set (inTa := exists t, In t (rows T) /\ is_active T t = true /\ key_of (columns T) K t = kt).
  assert (HTa : inTa -> inT).
  { intros (t & Ht & _ & <-). unfold inT, frame_keys. now apply in_map. }
  assert (HNew : New S T K kt <-> inS /\ ~ inT).
  { unfold New, inS, inT. split.
    - intros (N' & HN' & Hin). rewrite EN in HN'. injection HN' as <-.
      now apply (new_keys S T K N kt EN HrS).
    - intros Hin. exists N. split; [exact EN|]. now apply (new_keys S T K N kt EN HrS). }
  assert (HTerm : Terminated S T K kt <-> inTa /\ ~ inS).
  { unfold Terminated, inS, inTa. split.
    - intros (D' & HD' & Hin). rewrite ED in HD'. injection HD' as <-.
      now apply (deleted_keys S T K D kt ED HrT).
    - intros Hin. exists D. split; [exact ED|]. now apply (deleted_keys S T K D kt ED HrT). }
  assert (HCh : Changed S T K E kt -> inS /\ inTa).
  { intros (C & HC & Hin).
    pose proof (changed_spec S T K E C HC) as (_ & Hcc & _).
    assert (Hclean' : forall k, In k (map Str.lower K) -> Str.contains "_target" k = false).
    { intros k Hk. apply in_map_iff in Hk as (k0 & <- & Hk0). now apply Hclean. }
    destruct (changed_keys S T K E C kt HC HrS Hclean' Hin) as [HinS (t & Ht & Ha & Hk)].
    split.
    - unfold inS. rewrite <- (frame_keys_lower S K); [assumption | |].
      + exact (chk_left _ _ _ _ _ Hc).
      + exact (chk_count_l _ _ _ _ _ Hcc).
    - exists t. repeat split; [assumption | now rewrite <- is_active_lower |].
      rewrite <- Hk. symmetry. apply key_of_lower.
      + exact (chk_right _ _ _ _ _ Hc).
      + intros k Hk'. apply count_NoDup; [assumption|].
        apply in_map_iff in Hk' as (k0 & <- & Hk0). apply in_map.
        exact (chk_right _ _ _ _ _ Hc k0 Hk0). }
  unfold exactly_one, Unchanged. fold inS inT.
  destruct (key_In_dec kt (frame_keys S K)) as [HS|HS];
  destruct (key_In_dec kt (frame_keys T K)) as [HT|HT];
  destruct (Changed_dec S T K E kt) as [HC|HC];
  fold inS in HS; fold inT in HT;
  destruct Hspace as [Hsp|Hsp]; fold inS in Hsp; fold inTa in Hsp;
  try (apply HCh in HC as HC'; destruct HC');
  tauto.
Qed.

(** ** When the classifiers return *)

Lemma append_length a s : String.length (a +:+ s) = String.length a + String.length s.
Proof.
  induction a as [|c a IH]; [reflexivity|].
  change (S (String.length (a +:+ s)) = S (String.length a) + String.length s).
  now rewrite IH.
Qed.

Lemma append_inj a b s : a +:+ s = b +:+ s -> a = b.
Proof.
  revert b. induction a as [|c a IH]; intros [|c' b] H.
  - reflexivity.
  - exfalso. apply (f_equal String.length) in H.
    change (String c' b +:+ s) with (String c' (b +:+ s)) in H.
    change (EmptyString +:+ s) with s in H. simpl in H. rewrite append_length in H. lia.
  - exfalso. apply (f_equal String.length) in H.
    change (String c a +:+ s) with (String c (a +:+ s)) in H.
    change (EmptyString +:+ s) with s in H. simpl in H. rewrite append_length in H. lia.
  - change (String c (a +:+ s) = String c' (b +:+ s)) in H.
    injection H as -> H. f_equal. now apply IH.
Qed.

Lemma NoDup_map_inj {A B} (f : A -> B) l :
  (forall x y, f x = f y -> x = y) -> List.NoDup l -> List.NoDup (map f l).
Proof.
  intros Hf. induction 1 as [|x l Hx Hnd IH]; simpl; constructor; [|assumption].
  intros Hin. apply in_map_iff in Hin as (y & Hy & Hin). apply Hf in Hy. now subst.
Qed.

Lemma NoDup_filter' {A} (p : A -> bool) l : List.NoDup l -> List.NoDup (List.filter p l).
Proof.
  induction 1 as [|x l Hx Hnd IH]; simpl; [constructor|].
  destruct (p x); [|assumption]. constructor; [|assumption].
  intros Hin. apply filter_In in Hin as [Hin _]. contradiction.
Qed.

Lemma NoDup_app' {A} (l1 l2 : list A) :
  List.NoDup l1 -> List.NoDup l2 -> (forall x, In x l1 -> ~ In x l2) -> List.NoDup (l1 ++ l2).
Proof.
  induction 1 as [|x l Hx Hnd IH]; simpl; intros H2 Hd; [assumption|].
  constructor.
  - intros Hin. apply in_app_or in Hin as [Hin|Hin]; [contradiction|].
    apply (Hd x); [now left | assumption].
  - apply IH; [assumption|]. intros y Hy. apply Hd. now right.
Qed.

Lemma select_pass df cs :
  (forall c, In c cs -> In c (columns df)) ->
  select df cs = Ok (mkDF cs (map (fun r => map (cell (columns df) r) cs) (rows df))).
Proof. intros H. unfold select. now rewrite (proj2 (find_absent_None _ _) H). Qed.

(** [find_new_records] returns when the keys label one column of each frame
    and neither the indicator nor the suffixes clash with a label. *)
Lemma find_new_records_returns S T K :
  rectangular S -> List.NoDup (columns S) -> List.NoDup (columns T) ->
  K <> [] -> (forall k, In k K -> In k (columns S) /\ In k (columns T)) ->
  free_of_indicator S -> free_of_indicator T ->
  suffix_clash S T K ("_x", "_y") = false ->
  exists N, find_new_records S T K = Ok N.
Proof.
  intros Hrect HS HT HK Hcols HmS HmT Hclash. unfold find_new_records.
  assert (Hm : merge_checks S T K ("_x", "_y") true = Ok tt).
  { apply merge_checks_pass; simpl; try assumption.
    - intros k Hk. now apply Hcols.
    - intros k Hk. now apply Hcols.
    - intros k Hk. apply count_NoDup; [assumption | now apply Hcols].
    - intros k Hk. apply count_NoDup; [assumption | now apply Hcols].
    - intros _. now split. }
  destruct (merge S T K how_left ("_x", "_y") true) as [m|x] eqn:Em.
  - cbn [mbind result_bind]. rewrite (left_only_rows _ _ _ _ Em Hrect). eauto.
  - unfold merge in Em. rewrite Hm in Em. discriminate.
Qed.

(** [find_changed_records] returns when, under lower-cased labels, the
    source has no repeated label, the keys are distinct labels of both
    frames, a field is left to compare, and no label of the source is that
    of a compared field followed by "_target". *)
Lemma find_changed_records_returns S T K E :
  List.NoDup (columns (lower_columns S)) ->
  K <> [] -> List.NoDup (map Str.lower K) ->
  (forall k, In k (map Str.lower K) ->
     In k (columns (lower_columns S)) /\ In k (columns (lower_columns T))) ->
  compare_fields S T K E <> [] ->
  (forall f, In f (compare_fields S T K E) ->
     ~ In (f +:+ "_target") (columns (lower_columns S))) ->
  exists C, find_changed_records S T K E = Ok C.
Proof.
  intros HS HK HndK Hcols Hcf Hfree.
  assert (Hcfnd : List.NoDup (compare_fields S T K E)).
  { unfold compare_fields, compare_fields_of. now do 2 apply NoDup_filter'. }
  assert (Hm : merge_checks (lower_columns S) (right_frame S T K E) (map Str.lower K)
                 (EmptyString, "_target") false = Ok tt).
  { apply merge_checks_pass.
    - destruct K; [contradiction | discriminate].
    - intros k Hk. now apply Hcols.
    - intros k Hk. simpl. apply in_or_app. now left.
    - intros k Hk. apply count_NoDup; [assumption | now apply Hcols].
    - intros k Hk. apply count_NoDup; [|simpl; apply in_or_app; now left].
      simpl. apply NoDup_app'; [assumption.. |].
      intros x Hx Hin. now apply (cf_In S T K E) in Hin as (_ & Hn & _).
    - discriminate.
    - apply suffix_clash_false. simpl fst. simpl snd.
      rewrite left_labels_right, right_labels_right, rest_right. repeat split.
      + assumption.
      + apply NoDup_map_inj; [|assumption]. intros x y. apply append_inj.
      + tauto.
      + intros r Hr Hin. apply in_map_iff in Hr as (f & <- & Hf).
        now apply Hfree in Hin. }
  unfold find_changed_records. rewrite active_rows_spec. cbn [mbind result_bind].
  change (mkDF (columns (lower_columns T)) _) with (active_target T).
  change (compare_fields_of _ _ _ _) with (compare_fields S T K E).
  rewrite (select_pass (active_target T) (map Str.lower K ++ compare_fields S T K E)).
  2:{ intros c Hc. apply in_app_or in Hc as [Hc|Hc]; [now apply Hcols|].
      now apply (cf_In S T K E) in Hc as (_ & _ & _ & Hc). }
  cbn [mbind result_bind].
  change (mkDF (map Str.lower K ++ compare_fields S T K E) _) with (right_frame S T K E).
  unfold merge. rewrite Hm. cbn [mbind result_bind]. simpl fst. simpl snd.
  rewrite left_labels_right, right_labels_right, List.app_nil_r.
  change (columns (lower_columns S) ++ _) with (merged_labels S T K E).
  set (mrows := flat_map _ _).
  rewrite (mapM_map _ (fun f => map (fun r => ne (cell (merged_labels S T K E) r f)
                                               (cell (merged_labels S T K E) r (f +:+ "_target")))
                                    mrows)).
  2:{ intros f Hf. unfold getitem. simpl columns. simpl rows.
      assert (Str.mem f (merged_labels S T K E) = true) as ->.
      { apply mem_In. unfold merged_labels. apply in_or_app. left.
        now apply (cf_In S T K E) in Hf. }
      cbn [mbind result_bind].
      assert (Str.mem (f +:+ "_target") (merged_labels S T K E) = true) as ->.
      { apply mem_In. unfold merged_labels. apply in_or_app. right.
        apply in_map_iff. now exists f. }
      cbn [mbind result_bind]. now rewrite series_ne_map. }
  cbn [mbind result_bind]. rewrite concat_any_map by assumption.
  cbn [mbind result_bind]. rewrite select_pass; [eauto|].
  intros c Hc. now apply filter_In in Hc as [? _].
Qed.

(** ** Frames without a status column *)

Lemma NoDup_map_inv' {A B} (f : A -> B) l : List.NoDup (map f l) -> List.NoDup l.
Proof.
  induction l as [|x l IH]; simpl; intros H; [constructor|].
  inversion H as [|? ? Hx Hnd]; subst. constructor; [|now apply IH].
  intros Hin. apply Hx. now apply in_map.
Qed.

Lemma prefix_refl t : String.prefix t t = true.
Proof.
  induction t as [|d t IH]; simpl; [reflexivity|].
  destruct (ascii_dec d d); [assumption | contradiction].
Qed.

Lemma contains_suffix a s : Str.contains s (a +:+ s) = true.
Proof.
  induction a as [|c a IH].
  - change (EmptyString +:+ s) with s. destruct s as [|c s]; [reflexivity|].
    unfold Str.contains; fold Str.contains. now rewrite prefix_refl.
  - change (String c a +:+ s) with (String c (a +:+ s)).
    unfold Str.contains; fold Str.contains. rewrite IH. apply orb_true_r.
Qed.

(** C10.  When no label of the target lower-cases to "status", both
    classifiers work on the whole target: on well-formed frames with
    usable keys, [find_deleted_records] returns every target row without a
    key match in the source, and [find_changed_records], with a field left
    to compare, returns the source rows that have a key match among all the
    target rows with which they differ in a compared field.  Neither
    raises, and neither leaves a target row out. *)
Theorem no_status_column_all_active S T K E :
  (forall c, In c (columns T) -> Str.lower c <> "status") ->
  rectangular S -> rectangular T ->
  List.NoDup (map Str.lower (columns S)) -> List.NoDup (map Str.lower (columns T)) ->
  free_of_indicator T ->
  (forall c, In c (columns S) -> Str.contains "_target" (Str.lower c) = false) ->
  K <> [] -> List.NoDup (map Str.lower K) ->
  (forall k, In k K -> In k (columns S) /\ In k (columns T)) ->
  keys_of_one_kind T S K -> exact_ints S -> exact_ints T ->
  compare_fields S T K E <> [] ->
  (exists D,
     find_deleted_records S T K = Ok D
     /\ columns D = columns T
     /\ rows D = List.filter (unmatched T S K) (rows T))
  /\ (exists C,
        find_changed_records S T K E = Ok C
        /\ columns C = map Str.lower (columns S)
        /\ forall r, In r (rows C) <->
              In r (rows S) /\
              exists t, In t (rows T)
                /\ key_of (map Str.lower (columns S)) (map Str.lower K) r
                   = key_of (map Str.lower (columns T)) (map Str.lower K) t
                /\ exists f, In f (compare_fields S T K E)
                     /\ differ (cell (map Str.lower (columns S)) r f)
                               (cell (map Str.lower (columns T)) t f)).
Proof.
  intros Hno HrS HrT HndS HndT Hfree Hclean HK HndK Hcols _ _ _ Hcf.
  pose proof (status_col_None T Hno) as Hsc.
  assert (Hact : forall t, is_active T t = true).
  { intros t. unfold is_active. now rewrite Hsc. }
  split.
  - eexists. split.
    + apply find_deleted_records_rows; try assumption.
      * split; [now apply NoDup_map_inv' in HndT | assumption].
      * now apply NoDup_map_inv' in HndS.
      * now apply NoDup_map_inv' in HndK.
    + simpl. split; [reflexivity|]. apply List.filter_ext. intros t. now rewrite Hact.
  - assert (Hclean' : forall c, In c (columns (lower_columns S)) ->
                                Str.contains "_target" c = false).
    { intros c Hc. simpl in Hc. apply in_map_iff in Hc as (c0 & <- & Hc0). now apply Hclean. }
    destruct (find_changed_records_returns S T K E) as [C HC]; try assumption.
    { intros k Hk. apply in_map_iff in Hk as (k0 & <- & Hk0). destruct (Hcols k0 Hk0).
      split; simpl; now apply in_map. }
    { intros f _ Hin. apply Hclean' in Hin. now rewrite contains_suffix in Hin. }
    exists C. split; [assumption|].
    pose proof (changed_rows S T K E C HC HrS Hclean') as [Hc Hrows].
    split; [exact Hc|]. intros r. rewrite Hrows. split.
    + intros (Hs & t & Ht & _ & Hk & f & Hf & Hne). split; [assumption|].
      exists t. repeat split; try assumption. exists f. split; [assumption|].
      now apply ne_differ.
    + intros (Hs & t & Ht & Hk & f & Hf & Hne). split; [assumption|].
      exists t. repeat split; try assumption.
      * rewrite is_active_lower. apply Hact.
      * exists f. split; [assumption|]. now apply ne_differ.
Qed.

End ClassifierTheorems.

(** ** Three-valued conditions and cell updates *)

Module SqlFacts.
Import Pd Sql Facts ClassifierFacts.

Lemma holds_and a b : holds (sql_and a b) = holds a && holds b.
Proof. destruct a as [[]|], b as [[]|]; reflexivity. Qed.

Lemma holds_or a b : holds (sql_or a b) = holds a || holds b.
Proof. destruct a as [[]|], b as [[]|]; reflexivity. Qed.

Lemma holds_ne a b :
  holds (sql_ne a b) = negb (is_null a) && negb (is_null b) && negb (value_eqb a b).
Proof. destruct a, b; simpl; try reflexivity; now destruct (_ =? _)%Z || now destruct (String.eqb _ _). Qed.

Lemma holds_eq_refl a : is_null a = false -> holds (sql_eq a a) = true.
Proof.
  destruct a; simpl; try discriminate; intros _.
  - now rewrite Z.eqb_refl.
  - now rewrite String.eqb_refl.
Qed.

Lemma holds_any_ne scols tcols compared s t :
  holds (fold_right (fun m acc => sql_or (sql_ne (cell scols s m) (cell tcols t m)) acc)
                    (Some false) compared)
  = existsb (fun m => holds (sql_ne (cell scols s m) (cell tcols t m))) compared.
Proof.
  induction compared as [|m ms IH]; simpl; [reflexivity|].
  now rewrite holds_or, IH.
Qed.

Lemma column_of_In a cols k :
  In (Str.lower k) cols -> column_of a cols k = Ok (Str.lower k).
Proof. intros H. unfold column_of, has_column. apply mem_In in H. now rewrite H. Qed.

Lemma mapM_column_of a cols ks :
  (forall k, In k ks -> In (Str.lower k) cols) ->
  mapM (column_of a cols) ks = Ok (map Str.lower ks).
Proof. intros H. apply mapM_map. intros k Hk. apply column_of_In. now apply H. Qed.

Lemma length_set_cell cols r c v : length (set_cell cols r c v) = length r.
Proof.
  revert r. induction cols as [|c1 cols IH]; intros [|x r]; simpl; try reflexivity.
  destruct (String.eqb c1 c); simpl; [reflexivity | now rewrite IH].
Qed.

Lemma cell_set_other cols r c v c' :
  c <> c' -> cell cols (set_cell cols r c v) c' = cell cols r c'.
Proof.
  revert r. induction cols as [|c1 cols IH]; intros [|x r] Hne; simpl; try reflexivity.
  destruct (String.eqb_spec c1 c) as [->|Hc]; simpl.
  - destruct (String.eqb_spec c c'); [contradiction | reflexivity].
  - destruct (String.eqb c1 c'); [reflexivity | now apply IH].
Qed.

Lemma cell_set_same cols r c v :
  In c cols -> length r = length cols -> cell cols (set_cell cols r c v) c = v.
Proof.
  revert r. induction cols as [|c1 cols IH]; intros [|x r] Hin Hlen; simpl in *;
    try contradiction; try discriminate.
  destruct (String.eqb c1 c) eqn:Ec; simpl; rewrite ?Ec; [reflexivity|].
  apply IH; [|lia]. destruct Hin as [->|]; [|assumption].
  rewrite String.eqb_refl in Ec. discriminate.
Qed.

End SqlFacts.

(** ** The in-place update of step 6 *)

Module ExecutorTheorems.
Import Pd Sql Merge Facts ClassifierFacts SqlFacts.

Lemma Forall2_map_r {A B} (R : A -> B -> Prop) (f : A -> B) l :
  (forall x, In x l -> R x (f x)) -> Forall2 R l (map f l).
Proof.
  induction l as [|x l IH]; simpl; intros H; constructor.
  - apply H. now left.
  - apply IH. intros y Hy. apply H. now right.
Qed.

(** The WHERE of the UPDATE holds for every row that [sql_terminated]
    describes. *)
Lemma term_where_terminated s t keys k0 r :
  In r (rows t) -> In k0 keys -> sql_terminated s t keys r = true ->
  term_where (columns s) (columns t) (map Str.lower keys) (Str.lower k0)
             (rows s) (rows t) r = true.
Proof.
  intros Hr Hk0 H. unfold sql_terminated in H.
  apply andb_prop in H as [H Hun]. apply andb_prop in H as [Hact Hnn].
  unfold term_where. apply existsb_exists. exists r. split; [assumption|].
  unfold left_join. rewrite filter_none.
  2:{ intros srow Hs. apply negb_true_iff.
      exact (proj1 (forallb_forall _ _) Hun srow Hs). }
  simpl. rewrite orb_false_r, !holds_and.
  pose proof (proj1 (forallb_forall _ _) Hnn k0 Hk0) as Hn. apply negb_true_iff in Hn.
  rewrite (holds_eq_refl _ Hn). unfold sql_active in Hact. rewrite Hact. reflexivity.
Qed.

Lemma on_keys_single acols bcols k a b :
  on_keys acols bcols [k] a b = sql_eq (cell acols a k) (cell bcols b k).
Proof. unfold on_keys. simpl. now destruct (sql_eq _ _) as [[]|]. Qed.

Lemma sql_eq_true a b : holds (sql_eq a b) = true -> a = b /\ is_null a = false.
Proof.
  destruct a, b; simpl; try discriminate; intros H.
  - destruct (Z.eqb_spec z z0); [subst; auto | discriminate].
  - destruct (String.eqb_spec s s0); [subst; auto | discriminate].
Qed.

(** X13.  With one key column the WHERE of the UPDATE of step 6 holds for
    exactly the target rows that [sql_terminated] describes: the active
    rows whose key is there and is the key of no source row. *)
Lemma term_where_single_key s t k0 r :
  In r (rows t) ->
  term_where (columns s) (columns t) [Str.lower k0] (Str.lower k0) (rows s) (rows t) r
  = sql_terminated s t [k0] r.
Proof.
  intros Hr. destruct (sql_terminated s t [k0] r) eqn:Ht.
  - now apply (term_where_terminated s t [k0] k0 r Hr (or_introl eq_refl)).
  - destruct (term_where _ _ _ _ _ _ r) eqn:Hw; [|reflexivity].
    exfalso. unfold term_where in Hw. apply existsb_exists in Hw as (t1 & Ht1 & Hw).
    apply existsb_exists in Hw as (j & Hj & Hw).
    rewrite !holds_and in Hw. apply andb_prop in Hw as [Hw Hnull].
    apply andb_prop in Hw as [Heq Hact]. apply sql_eq_true in Heq as [Heq Hnn].
    unfold sql_terminated, sql_active in Ht. rewrite Hact in Ht.
    cbn [forallb map] in Ht. rewrite Hnn in Ht. cbn [negb andb] in Ht.
    assert (Hun : List.filter (fun b => holds (on_keys (columns t) (columns s) [Str.lower k0] t1 b))
                              (rows s) = []).
    { unfold left_join in Hj.
      destruct (List.filter _ (rows s)) as [|m ms] eqn:Ef; [reflexivity|].
      exfalso. apply in_map_iff in Hj as (srow & <- & Hin).
      rewrite <- Ef in Hin. apply filter_In in Hin as [_ Hon].
      rewrite on_keys_single in Hon. apply sql_eq_true in Hon as [Hon Hn1].
      simpl in Hnull. rewrite <- Hon in Hnull. rewrite Heq in Hnn.
      unfold holds in Hnull. rewrite Hnn in Hnull. discriminate. }
    assert (forallb (fun srow => negb (holds (on_keys (columns t) (columns s)
                                                 [Str.lower k0] r srow))) (rows s) = true).
    { apply forallb_forall. intros srow Hs. apply negb_true_iff.
      rewrite on_keys_single, Heq, <- on_keys_single.
      destruct (holds (on_keys (columns t) (columns s) [Str.lower k0] t1 srow)) eqn:Hh;
        [|reflexivity].
      assert (In srow (List.filter (fun b => holds (on_keys (columns t) (columns s)
                                                    [Str.lower k0] t1 b)) (rows s)))
        as Hin by (apply filter_In; split; assumption).
      rewrite Hun in Hin. destruct Hin. }
    congruence.
Qed.

End ExecutorTheorems.

(** ** Steps of the run and the exceptions they raise *)

Module RunFacts.
Import Pd Classifier Classes Sql Merge Facts MergeFacts ClassifierFacts SqlFacts.

Lemma answer_None d n k msg : k <> n -> answer (mkEngine d n (Some (k, msg))) = None.
Proof. intros H. unfold answer. simpl. apply Nat.eqb_neq in H. now rewrite H. Qed.

Lemma answer_Some d n msg : answer (mkEngine d n (Some (n, msg))) = Some msg.
Proof. unfold answer. simpl. now rewrite Nat.eqb_refl. Qed.

Lemma read_sql_answered {A} (f : Database -> result A) e :
  answer e = None -> read_sql f e = (tick e (db e), f (db e)).
Proof. intros H. unfold read_sql. now rewrite H. Qed.

Lemma execute_answered q e d' :
  answer e = None -> execute_statement q (db e) = Ok d' ->
  execute q e = (tick e d', Ok tt).
Proof. intros H Hq. unfold execute. now rewrite H, Hq. Qed.

Lemma execute_lost q e msg :
  answer e = Some msg -> execute q e = (tick e (db e), Err (OperationalError msg)).
Proof. intros H. unfold execute. now rewrite H. Qed.

Lemma fetch_column_names_answered sch tbl e :
  answer e = None ->
  exists cm, fetch_column_names sch tbl e = (tick e (db e), Ok cm).
Proof.
  intros H. unfold fetch_column_names, begin. cbv [mbind M_bind mret M_ret].
  rewrite (read_sql_answered _ e H). unfold information_schema_columns.
  destruct (tables (db e) !! (sch, tbl)); simpl; eauto.
Qed.

(** One step of the body: either it raised, and the exception is the
    result of the whole body, or it returned and the body goes on. *)
Ltac step :=
  match goal with
  | |- context [match ?c ?e with pair _ _ => _ end] =>
      let e' := fresh "e" in let a := fresh "a" in let x := fresh "x" in
      destruct (c e) as [e' [a|x]] eqn:?
  end.

Lemma failed_is_not_completed x : "Merge failed: " +:+ str_exn x <> completed.
Proof. intros H. vm_compute in H. discriminate. Qed.













Lemma fetch_column_names_raises sch tbl e e' x :
  fetch_column_names sch tbl e = (e', Err x) ->
  exists m, x = OperationalError m /\ answer e = Some m.
Proof.
  unfold fetch_column_names, begin, read_sql, information_schema_columns.
  cbv [mbind M_bind mret M_ret].
  destruct (answer e) as [msg|].
  - intros [= _ <-]. eauto.
  - destruct (_ !! _); discriminate.
Qed.

Lemma dict_set_lowered d k v :
  lowered d -> Str.lower v = k -> lowered (dict_set d k v).
Proof.
  intros Hd Hv. induction d as [|[k1 v1] d IH]; simpl.
  - intros k' v' [[= <- <-]|[]]. exact Hv.
  - assert (Hd' : lowered d) by (intros k' v' H; apply Hd; now right).
    destruct (String.eqb_spec k1 k) as [->|Hne]; intros k' v' [[= <- <-]|Hin].
    + exact Hv.
    + apply Hd. now right.
    + apply Hd. now left.
    + now apply IH.
Qed.

Lemma dict_set_key d k v : exists v', In (k, v') (dict_set d k v).
Proof.
  induction d as [|[k1 v1] d IH]; simpl; [eexists; now left|].
  destruct (String.eqb_spec k1 k) as [->|Hne].
  - eexists. now left.
  - destruct IH as [v' Hv']. exists v'. now right.
Qed.

Lemma dict_set_keeps d k v k0 v0 :
  In (k0, v0) d -> exists v', In (k0, v') (dict_set d k v).
Proof.
  induction d as [|[k1 v1] d IH]; simpl; [contradiction|].
  intros [[= -> ->]|Hin]; destruct (String.eqb_spec k0 k) as [E|Hne];
    try (destruct (String.eqb_spec k1 k) as [E'|Hne']).
  - subst. eexists. now left.
  - eexists. now left.
  - subst. eexists. now left.
  - destruct (IH Hin) as [v' Hv']. exists v'. now right.
  - subst. exists v0. now right.
  - destruct (IH Hin) as [v' Hv']. exists v'. now right.
Qed.

Lemma column_mapping_spec cols d0 :
  lowered d0 ->
  let d := fold_left (fun d col => dict_set d (Str.lower col) col) cols d0 in
  lowered d
  /\ (forall k v, In (k, v) d0 -> exists v', In (k, v') d)
  /\ (forall c, In c cols -> exists v, In (Str.lower c, v) d).
Proof.
  revert d0. induction cols as [|c cols IH]; intros d0 Hd0; simpl.
  - repeat split; [assumption | eauto | contradiction].
  - destruct (IH (dict_set d0 (Str.lower c) c)) as (H1 & H2 & H3);
      [now apply dict_set_lowered|].
    repeat split; [assumption | |].
    + intros k v Hin. destruct (dict_set_keeps d0 (Str.lower c) c k v Hin) as [v' Hv'].
      now apply (H2 k v').
    + intros c' [<-|Hin]; [|now apply H3].
      destruct (dict_set_key d0 (Str.lower c) c) as [v' Hv']. now apply (H2 _ v').
Qed.

Lemma mapM_Ok_In {A B} (f : A -> result B) xs ys x :
  mapM f xs = Ok ys -> In x xs -> exists y, f x = Ok y.
Proof.
  revert ys. induction xs as [|a xs IH]; intros ys H Hin; [contradiction|].
  simpl in H. destruct (f a) as [b|] eqn:Ea; [|discriminate]. cbn [mbind result_bind] in H.
  destruct (mapM f xs) as [bs|] eqn:Em; [|discriminate].
  destruct Hin as [<-|Hin]; [eauto | now apply (IH bs)].
Qed.

Lemma column_of_Ok a cols k c :
  column_of a cols k = Ok c -> has_column cols (Str.lower k) = true.
Proof. unfold column_of. now destruct (has_column _ _). Qed.

(** A column of the table itself, when the name is not that of a system
    column. *)
Lemma column_of_own a cols k c :
  column_of a cols k = Ok c -> Str.mem (Str.lower k) system_columns = false ->
  In (Str.lower k) cols.
Proof.
  intros H Hsys. apply column_of_Ok in H. unfold has_column in H. rewrite Hsys in H.
  rewrite orb_false_r in H. now apply mem_In.
Qed.

(** A name that both joined tables can be asked for is ambiguous without a
    qualifier. *)
Lemma resolve_ambiguous scols tcols v :
  has_column scols (Str.lower v) = true -> has_column tcols (Str.lower v) = true ->
  is_ok (resolve scols tcols v) = false.
Proof. unfold resolve. now intros -> ->. Qed.

Lemma dict_get_lowered tc k def :
  lowered tc -> Str.lower def = k -> Str.lower (dict_get tc k def) = k.
Proof.
  induction tc as [|[k1 v1] tc IH]; simpl; intros Hl Hd; [assumption|].
  destruct (String.eqb_spec k1 k) as [->|Hne].
  - apply Hl. now left.
  - apply IH; [|assumption]. intros a b Hab. apply Hl. now right.
Qed.

(** The INSERT of step 7 compares [s.m] with [t.m] for every mapped column
    [m] and selects the source column of the same name, up to case,
    without a qualifier: when the comparison can be made the selection is
    ambiguous, so that the statement is never executed. *)
Lemma insert_change_new_rejected d sch src tgt sc tc K vd :
  lowered sc -> lowered tc ->
  is_ok (execute_statement
           (InsertChangeNew sch src tgt (mapped_columns_of sc tc) (map snd sc) K vd) d)
  = false.
Proof.
  intros Hsc Htc. simpl. unfold relation.
  destruct (tables d !! (sch, tgt)) as [t|]; [|reflexivity]. cbn [mbind result_bind].
  destruct (tables d !! (sch, src)) as [s|]; [|reflexivity]. cbn [mbind result_bind].
  destruct sc as [|[k1 v1] sc]; [reflexivity|].
  cbn [mapped_columns_of map fst snd spliced mbind result_bind].
  destruct (spliced K); [|reflexivity]. cbn [mbind result_bind].
  destruct (insert_columns _ _); [|reflexivity]. cbn [mbind result_bind].
  destruct (select_list _ _ _) as [sel|] eqn:Esel; [|reflexivity]. cbn [mbind result_bind].
  destruct (mapM (column_of "s" (columns s)) K); [|reflexivity]. cbn [mbind result_bind].
  destruct (mapM (column_of "t" (columns t)) K); [|reflexivity]. cbn [mbind result_bind].
  destruct (column_of "t" (columns t) "status"); [|reflexivity]. cbn [mbind result_bind].
  destruct (mapM (column_of "s" (columns s)) _) as [sm|] eqn:Esm; [|reflexivity].
  cbn [mbind result_bind].
  destruct (mapM (column_of "t" (columns t)) _) as [tm|] eqn:Etm; [|reflexivity].
  exfalso.
  pose proof (Hsc k1 v1 (or_introl eq_refl)) as Hk1.
  assert (Hidem : Str.lower k1 = k1) by (rewrite <- Hk1; apply lower_idem).
  set (m1 := dict_get tc (Str.lower k1) k1) in *.
  assert (Hm1 : Str.lower m1 = Str.lower v1).
  { unfold m1. rewrite Hidem, Hk1. apply dict_get_lowered; assumption. }
  destruct (mapM_Ok_In _ _ _ m1 Esm (or_introl eq_refl)) as [c1 Hc1].
  destruct (mapM_Ok_In _ _ _ m1 Etm (or_introl eq_refl)) as [c2 Hc2].
  apply column_of_Ok in Hc1, Hc2. rewrite Hm1 in Hc1, Hc2.
  unfold select_list in Esel.
  destruct (mapM_Ok_In _ _ _ v1 Esel (or_introl eq_refl)) as [y Hy].
  pose proof (resolve_ambiguous _ _ _ Hc1 Hc2) as Hr. rewrite Hy in Hr. discriminate.
Qed.

(** The INSERT of step 5 selects the source columns without a qualifier.
    A key that is a column of the source is in that list under a name
    that folds like it, and the join needs it in both tables: the
    statement built from the introspection of its own source, with such a
    key, is never executed. *)
Lemma insert_new_rejected d sch src tgt mapped K k0 vd s :
  tables d !! (sch, src) = Some s -> In k0 K -> In k0 (columns s) ->
  is_ok (execute_statement
           (InsertNew sch src tgt mapped
              (map snd (fold_left (fun d col => dict_set d (Str.lower col) col) (columns s) []))
              K k0 vd) d) = false.
Proof.
  intros Hs Hk0 Hcol. simpl. unfold relation. rewrite Hs.
  destruct (tables d !! (sch, tgt)) as [t|]; [|reflexivity]. cbn [mbind result_bind].
  destruct (spliced mapped); [|reflexivity]. cbn [mbind result_bind].
  destruct (spliced K); [|reflexivity]. cbn [mbind result_bind].
  destruct (insert_columns _ _); [|reflexivity]. cbn [mbind result_bind].
  destruct (select_list _ _ _) as [sel|] eqn:Esel; [|reflexivity]. cbn [mbind result_bind].
  destruct (mapM (column_of "s" (columns s)) K) as [sk|] eqn:Esk; [|reflexivity].
  cbn [mbind result_bind].
  destruct (mapM (column_of "t" (columns t)) K) as [tk|] eqn:Etk; [|reflexivity].
  exfalso.
  destruct (mapM_Ok_In _ _ _ k0 Esk Hk0) as [c1 Hc1]. apply column_of_Ok in Hc1.
  destruct (mapM_Ok_In _ _ _ k0 Etk Hk0) as [c2 Hc2]. apply column_of_Ok in Hc2.
  destruct (column_mapping_spec (columns s) []) as (Hlow & _ & Hkeys);
    [intros ? ? []|].
  destruct (Hkeys _ Hcol) as [v Hv]. pose proof (Hlow _ _ Hv) as Hlv.
  unfold select_list in Esel.
  destruct (mapM_Ok_In _ _ _ v Esel) as [y Hy].
  { apply in_map_iff. now exists (Str.lower k0, v). }
  rewrite <- Hlv in Hc1, Hc2.
  pose proof (resolve_ambiguous _ _ _ Hc1 Hc2) as Hr. rewrite Hy in Hr. discriminate.
Qed.

Lemma fetch_column_names_Ok sch tbl e e' cm :
  fetch_column_names sch tbl e = (e', Ok cm) ->
  db e' = db e
  /\ cm = fold_left (fun d col => dict_set d (Str.lower col) col)
                    (match tables (db e) !! (sch, tbl) with
                     | Some t => columns t
                     | None => []
                     end) [].
Proof.
  unfold fetch_column_names, begin, read_sql, information_schema_columns.
  cbv [mbind M_bind mret M_ret].
  destruct (answer e); [discriminate|].
  destruct (tables (db e) !! (sch, tbl)); intros [= <- <-]; split; reflexivity.
Qed.

Lemma execute_Ok q e e' :
  execute q e = (e', Ok tt) -> execute_statement q (db e) = Ok (db e').
Proof.
  unfold execute. destruct (answer e); [discriminate|].
  destruct (execute_statement q (db e)); [|discriminate]. now intros [= <-].
Qed.

Lemma begin_Ok {A} (body : M A) e e' a :
  begin body e = (e', Ok a) -> body e = (e', Ok a).
Proof. unfold begin. destruct (body e) as [e1 [a1|x]]; [|discriminate]. now intros [= <- <-]. Qed.

End RunFacts.

(** ** Properties of the merge run *)

Module RunTheorems.
Import Pd Classifier Classes Sql Merge Facts MergeFacts ClassifierFacts SqlFacts RunFacts.

(** C2 (as the code has it).  The rename and the copy of the archive run in
    one transaction.  When the rename succeeds (the target is there and no
    backup is in the way) and the store then fails on the copy, the
    transaction is rolled back: the run leaves the database as it found it,
    with the target under its own name and no backup table, and returns the
    failure string built from the message of the store. *)
Theorem archive_copy_failure_rolls_back d n msg sch src tgt K E t :
  tables d !! (sch, tgt) = Some t ->
  tables d !! (sch, tgt +:+ "_bu") = None ->
  run_merge_process (mkEngine d n (Some (3 + n, msg))) sch src tgt K E
  = (mkEngine d (4 + n) (Some (3 + n, msg)), "Merge failed: " +:+ msg)
  /\ exists d', execute_statement (AlterTableRename sch tgt (tgt +:+ "_bu")) d = Ok d'
       /\ tables d' !! (sch, tgt) = None /\ tables d' !! (sch, tgt +:+ "_bu") = Some t.
Proof.
  intros Ht Hbu. split.
  - unfold run_merge_process, merge_steps. cbv [mbind M_bind].
    set (e0 := mkEngine d n (Some (3 + n, msg))).
    destruct (fetch_column_names_answered sch src e0) as [sc Hsc];
      [apply answer_None; lia|].
    rewrite Hsc. 
    destruct (fetch_column_names_answered sch tgt (tick e0 (db e0))) as [tc Htc];
      [apply answer_None; unfold e0; simpl; lia|].
    rewrite Htc. unfold begin at 1. cbv [mbind M_bind].
    erewrite execute_answered.
    2:{ apply answer_None. unfold e0. simpl. lia. }
    2:{ simpl. unfold relation. rewrite Ht. cbn [mbind result_bind]. rewrite Hbu. reflexivity. }
    rewrite execute_lost with (msg := msg).
    2:{ unfold tick. simpl sent. apply answer_Some. }
    reflexivity.
  - eexists. split.
    + simpl. unfold relation. rewrite Ht. cbn [mbind result_bind]. rewrite Hbu. reflexivity.
    + simpl. split.
      * rewrite lookup_insert_ne, lookup_delete_eq; [reflexivity|].
        intros [= H]. clear -H. induction tgt as [|a tg IH]; [discriminate|].
        injection H as H. now apply IH.
      * apply lookup_insert_eq.
Qed.

(** C3 (as the code has it).  Every run returns one of two strings: the
    constant success message when no step raised, or "Merge failed: "
    followed by the text of the exception that stopped it.  The two never
    coincide, and there is no third outcome. *)
Theorem run_returns_one_of_two_strings e sch src tgt K E :
  (exists e', merge_steps sch src tgt K E e = (e', Ok completed)
              /\ run_merge_process e sch src tgt K E = (e', completed))
  \/ (exists e' x, merge_steps sch src tgt K E e = (e', Err x)
                   /\ run_merge_process e sch src tgt K E
                      = (e', "Merge failed: " +:+ str_exn x)
                   /\ "Merge failed: " +:+ str_exn x <> completed).
Proof.
  assert (Hmsg : forall e' m, merge_steps sch src tgt K E e = (e', Ok m) -> m = completed).
  { unfold merge_steps. cbv [mbind M_bind mret M_ret].
    intros e' m. repeat (step; [|discriminate]). now intros [= _ <-]. }
  unfold run_merge_process.
  destruct (merge_steps sch src tgt K E e) as [e' [m|x]] eqn:Hm.
  - left. exists e'. rewrite (Hmsg e' m eq_refl). split; reflexivity.
  - right. exists e', x. repeat split. apply failed_is_not_completed.
Qed.

(** C7 (as the code has it).  [fetch_column_names] has no NotFound: for a
    table that is not in the schema, or that has no column, it returns the
    empty mapping as a success.  It raises only when the store cannot
    answer the query. *)
Theorem fetch_column_names_of_missing_table sch tbl e :
  (forall e' x, fetch_column_names sch tbl e = (e', Err x) ->
                exists m, x = OperationalError m /\ answer e = Some m)
  /\ (answer e = None ->
      tables (db e) !! (sch, tbl) = None
      \/ (exists t, tables (db e) !! (sch, tbl) = Some t /\ columns t = []) ->
      fetch_column_names sch tbl e = (tick e (db e), Ok [])).
Proof.
  split; [apply fetch_column_names_raises|].
  intros Ha Ht. unfold fetch_column_names, begin. cbv [mbind M_bind mret M_ret].
  rewrite (read_sql_answered _ e Ha). unfold information_schema_columns.
  destruct Ht as [-> | (t & -> & ->)]; reflexivity.
Qed.


(** No run completes: a run without keys stops at [business_keys[0]], and
    with keys the INSERT of step 7 is rejected when no earlier step has
    failed (that of step 5 is, when a key is a column of the source). *)
Theorem run_never_completes e sch src tgt K E e' m :
  merge_steps sch src tgt K E e <> (e', Ok m).
Proof.
  unfold merge_steps. cbv [mbind M_bind mret M_ret].
  destruct (fetch_column_names sch src e) as [e1 [sc|x]] eqn:H1; [|discriminate].
  destruct (fetch_column_names sch tgt e1) as [e2 [tc|x]] eqn:H2; [|discriminate].
  destruct (begin _ e2) as [e3 [[]|x]] eqn:H3; [|discriminate].
  destruct (ensure_target_table_exists sch tgt src e3) as [e4 [[]|x]] eqn:H4; [|discriminate].
  destruct (fetch_quarter_details e4) as [e5 [qd|x]] eqn:H5; [|discriminate].
  unfold lift. destruct (loc qd "New") as [vd|]; [|discriminate].
  destruct K as [|k0 K]; [discriminate|]. cbn [mbind result_bind first].
  destruct (begin _ e5) as [e6 [[]|x]] eqn:H6; [|discriminate].
  destruct (loc qd "Delete") as [vd'|]; [|discriminate]. cbn [mbind result_bind].
  destruct (begin _ e6) as [e7 [[]|x]] eqn:H7; [|discriminate].
  destruct (loc qd "Change-Based New") as [vd''|]; [|discriminate]. cbn [mbind result_bind].
  destruct (begin _ e7) as [e8 [[]|x]] eqn:H8; [|discriminate].
  exfalso.
  apply fetch_column_names_Ok in H1 as [_ ->].
  apply fetch_column_names_Ok in H2 as [_ ->].
  apply begin_Ok, execute_Ok in H8.
  match type of H8 with execute_statement (InsertChangeNew _ _ _ (mapped_columns_of ?sc ?tc) _ _ _) _ = _ =>
    pose proof (insert_change_new_rejected (db e7) sch src tgt sc tc (k0 :: K) vd'') as Hrej
  end.
  rewrite H8 in Hrej. discriminate Hrej.
  - now apply column_mapping_spec.
  - now apply column_mapping_spec.
Qed.

End RunTheorems.

(** ** Change detection in the classifier and in the executor *)

Module ChangeTheorems.
Import Pd Classifier Classes Sql Merge Inputs.
Import Facts MergeFacts ClassifierFacts SqlFacts.

(** C4 (as the code has it).  The two comparisons treat a missing value in
    opposite ways.  In [find_changed_records] (pandas [!=]) a compared
    field that is missing on either side, on both as much as on one, is a
    difference, so the source row of the pair is returned as changed.  In
    the WHERE of step 7 (SQL [<>]) a comparison with a missing value is
    unknown and never a difference: the pair is selected exactly when the
    target row is active and some compared column is present on both sides
    with different values. *)
Theorem missing_values_in_change_detection :
  (forall S T K E C s t f,
     find_changed_records S T K E = Ok C -> rectangular S ->
     (forall c, In c (columns (lower_columns S)) -> Str.contains "_target" c = false) ->
     In s (rows S) -> In t (rows T) -> is_active (lower_columns T) t = true ->
     key_of (columns (lower_columns S)) (map Str.lower K) s
     = key_of (columns (lower_columns T)) (map Str.lower K) t ->
     In f (compare_fields S T K E) ->
     is_null (cell (columns (lower_columns S)) s f)
     || is_null (cell (columns (lower_columns T)) t f) = true ->
     In s (rows C))
  /\ (forall scols tcols compared s t,
        change_where scols tcols compared s t = true <->
        sql_active tcols t = true
        /\ exists m, In m compared
             /\ is_null (cell scols s m) = false /\ is_null (cell tcols t m) = false
             /\ cell scols s m <> cell tcols t m).
Proof.
  split.
  - intros S T K E C s t f HC Hrect Hclean Hs Ht Ha Hk Hf Hnull.
    apply (proj2 (changed_rows S T K E C HC Hrect Hclean)).
    split; [assumption|]. exists t. repeat split; try assumption.
    exists f. split; [assumption|]. unfold ne. now rewrite Hnull.
  - intros scols tcols compared s t. unfold change_where, sql_active.
    rewrite holds_and, holds_any_ne, andb_true_iff, existsb_exists.
    split; intros [Ha (m & Hm & Hne)]; (split; [assumption|]); exists m;
      (split; [assumption|]).
    + rewrite holds_ne in Hne. apply andb_prop in Hne as [Hne Hv].
      apply andb_prop in Hne as [Hn1 Hn2]. apply negb_true_iff in Hn1, Hn2, Hv.
      repeat split; try assumption. intros Heq. apply value_eqb_eq in Heq. congruence.
    + destruct Hne as (Hn1 & Hn2 & Hv). rewrite holds_ne, Hn1, Hn2. simpl.
      apply negb_true_iff. destruct (value_eqb _ _) eqn:Ev; [|reflexivity].
      apply value_eqb_eq in Ev. contradiction.
Qed.

(** C1 (where the code departs from it).  The pair below differs in the
    column [note] only, and [note] is excluded.  [find_changed_records]
    honours the exclusion and returns no row.  The executor never reads
    [exclude_fields]: its column list is every source column, the WHERE of
    step 7 selects the pair, and two runs that differ in the exclusions
    only are the same run.  With every shared column excluded the
    classifier has nothing to concatenate and raises instead of returning
    no row. *)
Theorem excluded_column_decides_in_executor :
  find_changed_records S_note T_note ["id"] ("note" :: stamps)
  = Ok (mkDF ["id"; "val"; "note"] [])
  /\ (exists e1 e2 sc tc,
        fetch_column_names "public" "source" engine_note = (e1, Ok sc)
        /\ fetch_column_names "public" "target" e1 = (e2, Ok tc)
        /\ mapped_columns_of sc tc = ["id"; "val"; "note"])
  /\ change_selected (columns S_note) (columns T_note) ["id"] ["id"; "val"; "note"]
                     (rows S_note) (rows T_note)
     = [([VInt 1; VStr "A"; VStr "first"],
         [VInt 1; VStr "A"; VStr "second"; VInt 1; VStr "2024-01-01"; VStr "9999-12-31";
          VStr "v1"])]
  /\ (forall e sch src tgt K E1 E2,
        run_merge_process e sch src tgt K E1 = run_merge_process e sch src tgt K E2)
  /\ find_changed_records S_note T_note ["id"] ("val" :: "note" :: stamps)
     = Err (ValueError "No objects to concatenate").
Proof.
  split; [vm_compute; reflexivity|]. split.
  { do 4 eexists. split; [vm_compute; reflexivity|]. split; vm_compute; reflexivity. }
  split; [vm_compute; reflexivity|]. split; [reflexivity|]. vm_compute. reflexivity.
Qed.

End ChangeTheorems.

(** ** Scenarios and counterexamples *)

Module Examples.
Import Pd Classifier Classes Sql Merge Inputs.

(** Scenario A of the specification. *)
Example scenario_A_new :
  find_new_records S_A T_A ["id"]
  = Ok (mkDF ["id"; "val_x"; "val_y"; "status"] [[VInt 3; VStr "C"; VNull; VNull]]).
Proof. reflexivity. Qed.

Example scenario_A_terminated :
  find_deleted_records S_A T_A ["id"] = Ok (mkDF ["id"; "val"; "status"] []).
Proof. reflexivity. Qed.

Example scenario_A_changed :
  find_changed_records S_A T_A ["id"] ["status"]
  = Ok (mkDF ["id"; "val"] [[VInt 2; VStr "B"]]).
Proof. reflexivity. Qed.

(** Scenario B: key 5 is inactive and is left out; key 6 is returned. *)
Example scenario_B_terminated :
  find_deleted_records S_A T_B ["id"]
  = Ok (mkDF ["id"; "val"; "status"] [[VInt 6; VStr "F"; VStr "1"]]).
Proof. reflexivity. Qed.

(** The statements of steps 5 and 7 select their source columns without a
    qualifier over the join of source and target, so that a key column,
    which both tables have, is ambiguous: the run below stops at step 5,
    after the archive has been committed ([run_never_completes] has the
    general fact). *)
Example run_stops_at_step_5 :
  snd (run_merge_process engine "public" "source" "target" ["id"] [])
  = "Merge failed: column reference id is ambiguous"
  /\ tables (db (fst (run_merge_process engine "public" "source" "target" ["id"] [])))
     !! ("public", "target_bu") = Some target.
Proof. split; vm_compute; reflexivity. Qed.

(** With a composite key the UPDATE of step 6 correlates [t] and [t1] on
    the first key column only: the first row below has its match in the
    source and is updated all the same, because the second row, which has
    none, shares its first key value. *)
Example composite_key_update :
  term_where (columns S_pair) (columns T_pair) ["a"; "b"] "a" (rows S_pair) (rows T_pair)
             [VInt 1; VInt 1; VInt 1; VStr "9999-12-31"] = true
  /\ sql_terminated S_pair T_pair ["a"; "b"] [VInt 1; VInt 1; VInt 1; VStr "9999-12-31"] = false.
Proof. split; reflexivity. Qed.

(** What the page shows: the success message as a success, the failure of
    a run without keys as an error. *)
Example shown_as_success_examples :
  shown_as_success completed = true
  /\ shown_as_success ("Merge failed: " +:+ str_exn IndexError) = false.
Proof. split; reflexivity. Qed.

(** C2, counterexample.  The store is lost at the fourth statement, the
    copy of the archive, after the rename has been executed.  After the
    run the target is under its own name and there is no backup table: the
    state the claim describes (no target, a backup) is not the one the run
    leaves. *)
Lemma archive_copy_failure_counterexample :
  is_ok (execute_statement (AlterTableRename "public" "target" "target_bu") database) = true
  /\ snd (run_merge_process (engine_lost_at 3) "public" "source" "target" ["id"] [])
     = "Merge failed: server closed the connection unexpectedly"
  /\ sent (fst (run_merge_process (engine_lost_at 3) "public" "source" "target" ["id"] [])) = 4
  /\ ~ (tables (db (fst (run_merge_process (engine_lost_at 3)
                           "public" "source" "target" ["id"] [])))
          !! ("public", "target") = None
        /\ is_Some (tables (db (fst (run_merge_process (engine_lost_at 3)
                                       "public" "source" "target" ["id"] [])))
                      !! ("public", "target_bu"))).
Proof.
  split; [vm_compute; reflexivity|]. split; [vm_compute; reflexivity|].
  split; [vm_compute; reflexivity|]. intros [H _]. vm_compute in H. discriminate.
Qed.

(** C3, counterexample.  The run below, started without a business key,
    fails in its fifth step, six statements into the run.  What it returns
    is the text "Merge failed: " followed by [str(e)]: a plain string that
    names neither the phase nor the kind of the exception, where the claim
    has a structured failure; and the only other value a run can return is
    one constant string, without counts. *)
Lemma run_result_counterexample :
  snd (run_merge_process engine "public" "source" "target" [] [])
  = "Merge failed: list index out of range"
  /\ snd (run_merge_process engine "public" "source" "target" [] [])
     = "Merge failed: " +:+ str_exn IndexError
  /\ sent (fst (run_merge_process engine "public" "source" "target" [] [])) = 6
  /\ completed = "Merge process completed successfully!".
Proof. repeat split; vm_compute; reflexivity. Qed.

(** C4, counterexample.  The compared column is missing on both sides and
    [find_changed_records] returns the row as changed; it is missing in the
    target only and the WHERE of step 7 does not select the pair. *)
Lemma missing_values_counterexample :
  find_changed_records S_null T_null ["id"] ["status"]
  = Ok (mkDF ["id"; "val"] [[VInt 1; VNull]])
  /\ change_where ["id"; "val"] ["id"; "val"; "status"] ["id"; "val"]
                  [VInt 1; VStr "A"] [VInt 1; VNull; VInt 1] = false.
Proof. split; reflexivity. Qed.

(** C7, counterexample.  No table "missing" is in the schema and the
    introspection returns the empty mapping. *)
Lemma fetch_column_names_counterexample :
  tables (db engine) !! ("public", "missing") = None
  /\ snd (fetch_column_names "public" "missing" engine) = Ok [].
Proof. split; vm_compute; reflexivity. Qed.


End Examples.

(** ** The theorems at concrete inputs *)

Module Witnesses.
Import Pd Classifier Classes Sql Merge Inputs.
Import ClassifierTheorems ExecutorTheorems RunTheorems ChangeTheorems.

(** Side conditions on concrete frames. *)
Ltac concrete :=
  repeat match goal with
  | |- rectangular _ => repeat constructor
  | |- List.NoDup _ => cbn; repeat constructor; simpl; intuition discriminate
  | |- ~ In _ _ => simpl; intuition discriminate
  | |- _ <> _ => discriminate
  | |- forall _, In _ _ -> _ => simpl; intros ? ?; intuition (subst; auto; discriminate)
  | |- _ = _ => vm_compute; reflexivity
  end.

(** C2, witness: the store of [Inputs], lost at the copy. *)
Lemma archive_copy_failure_rolls_back_witness :
  tables database !! ("public", "target") = Some target
  /\ tables database !! ("public", "target" +:+ "_bu") = None
  /\ run_merge_process (mkEngine database 0 (Some (3 + 0, "disk full")))
       "public" "source" "target" ["id"] []
     = (mkEngine database (4 + 0) (Some (3 + 0, "disk full")), "Merge failed: " +:+ "disk full").
Proof.
  assert (H1 : tables database !! ("public", "target") = Some target) by concrete.
  assert (H2 : tables database !! ("public", "target" +:+ "_bu") = None) by concrete.
  split; [exact H1|]. split; [exact H2|].
  exact (proj1 (archive_copy_failure_rolls_back database 0 "disk full" "public" "source"
                  "target" ["id"] [] target H1 H2)).
Defined.

(** C4, witness: the value is missing in the target only. *)
Lemma missing_values_in_change_detection_witness :
  find_changed_records S_half T_null ["id"] ["status"]
  = Ok (mkDF ["id"; "val"] [[VInt 1; VStr "A"]])
  /\ In [VInt 1; VStr "A"] (rows (mkDF ["id"; "val"] [[VInt 1; VStr "A"]])).
Proof.
  assert (HC : find_changed_records S_half T_null ["id"] ["status"]
               = Ok (mkDF ["id"; "val"] [[VInt 1; VStr "A"]])) by reflexivity.
  split; [exact HC|].
  apply (proj1 missing_values_in_change_detection S_half T_null ["id"] ["status"] _
           [VInt 1; VStr "A"] [VInt 1; VNull; VStr "1"] "val" HC).
  - concrete.
  - simpl. intros c [<-|[<-|[]]]; reflexivity.
  - simpl. now left.
  - simpl. now left.
  - reflexivity.
  - reflexivity.
  - vm_compute. now left.
  - reflexivity.
Defined.

(** C5, witness: key 2 of Scenario A, which is Changed. *)
Lemma classes_partition_key_space_witness :
  key_space S_A T_A ["id"] [VInt 2]
  /\ exactly_one (New S_A T_A ["id"] [VInt 2]) (Terminated S_A T_A ["id"] [VInt 2])
                 (Changed S_A T_A ["id"] ["status"] [VInt 2])
                 (Unchanged S_A T_A ["id"] ["status"] [VInt 2]).
Proof.
  assert (Hk : key_space S_A T_A ["id"] [VInt 2]) by (left; simpl; tauto).
  split; [exact Hk|].
  apply (classes_partition_key_space S_A T_A ["id"] ["status"]); try exact Hk.
  - concrete.
  - concrete.
  - concrete.
  - simpl. intros k [<-|[]]. reflexivity.
  - reflexivity.
  - reflexivity.
Defined.

(** C6, witness: the target of Scenario B with its status as integers:
    key 5, whose status is 0, is returned. *)
Lemma find_deleted_records_tests_the_string_zero_witness :
  status_col T_int = Some "status"
  /\ exists D,
    find_deleted_records S_A T_int ["id"] = Ok D
    /\ columns D = columns T_int
    /\ rows D = List.filter (fun t => negb (value_eqb (cell (columns T_int) t "status")
                                                     (VStr "0"))
                                      && unmatched T_int S_A ["id"] t) (rows T_int)
    /\ (forall t, In t (rows T_int) -> unmatched T_int S_A ["id"] t = true ->
          cell (columns T_int) t "status" = VInt 0 -> In t (rows D))
    /\ (forall t, cell (columns T_int) t "status" = VStr "0" -> ~ In t (rows D)).
Proof.
  split; [reflexivity|].
  apply (find_deleted_records_tests_the_string_zero S_A T_int ["id"] "status").
  - split; concrete.
  - split; concrete.
  - intros c Hc. simpl in Hc. simpl. intuition (subst; discriminate).
  - concrete.
  - concrete.
  - simpl. intros k [<-|[]]. split; simpl; tauto.
  - intros k [<-|[]]. left. reflexivity.
  - reflexivity.
Defined.

(** C7, witness: the table "missing" of the counterexample. *)
Lemma fetch_column_names_of_missing_table_witness :
  answer engine = None
  /\ fetch_column_names "public" "missing" engine = (tick engine (db engine), Ok []).
Proof.
  split; [reflexivity|].
  apply (proj2 (fetch_column_names_of_missing_table "public" "missing" engine)).
  - reflexivity.
  - left. vm_compute. reflexivity.
Defined.

(** C10, witness: Scenario A against a target with the columns [id] and
    [val] only: key 4 has no match, key 2 has another value. *)
Lemma no_status_column_all_active_witness :
  (exists D,
     find_deleted_records S_A T_plain ["id"] = Ok D
     /\ columns D = columns T_plain
     /\ rows D = List.filter (unmatched T_plain S_A ["id"]) (rows T_plain))
  /\ (exists C,
        find_changed_records S_A T_plain ["id"] [] = Ok C
        /\ columns C = map Str.lower (columns S_A)
        /\ forall r, In r (rows C) <->
              In r (rows S_A) /\
              exists t, In t (rows T_plain)
                /\ key_of (map Str.lower (columns S_A)) (map Str.lower ["id"]) r
                   = key_of (map Str.lower (columns T_plain)) (map Str.lower ["id"]) t
                /\ exists f, In f (compare_fields S_A T_plain ["id"] [])
                     /\ differ (cell (map Str.lower (columns S_A)) r f)
                               (cell (map Str.lower (columns T_plain)) t f)).
Proof.
  apply (no_status_column_all_active S_A T_plain ["id"] []).
  - simpl. intros c [<-|[<-|[]]]; discriminate.
  - concrete.
  - concrete.
  - concrete.
  - concrete.
  - intros c Hc. simpl in Hc. simpl. intuition (subst; discriminate).
  - simpl. intros c [<-|[<-|[]]]; reflexivity.
  - concrete.
  - concrete.
  - simpl. intros k [<-|[]]. split; simpl; tauto.
  - intros k [<-|[]]. left. reflexivity.
  - reflexivity.
  - reflexivity.
  - discriminate.
Defined.

End Witnesses.

(** * Further properties of the code *)

(** ** Quoted names and column mappings *)

Module NameFacts.
Import Pd Sql Merge Names Facts ClassifierFacts ClassifierTheorems RunFacts.

Lemma append_cons a s t : String a s +:+ t = String a (s +:+ t).
Proof. reflexivity. Qed.

Lemma append_nil_l t : EmptyString +:+ t = t.
Proof. reflexivity. Qed.

Lemma dquote_cons r : dquote +:+ r = String (ascii_of_nat 34) r.
Proof. reflexivity. Qed.

Lemma contains_cons needle a hay :
  Str.contains needle (String a hay) = false -> Str.contains needle hay = false.
Proof.
  simpl. intros H. apply orb_false_iff in H as [_ H]. exact H.
Qed.

Lemma contains_dquote_head s :
  Str.contains dquote (String (ascii_of_nat 34) s) = true.
Proof.
  unfold dquote. simpl. destruct s; reflexivity.
Qed.

(** A name without a double quote is read back from the text that follows
    its opening quote. *)
Lemma quoted_prefix_inj s s' r r' :
  Str.contains dquote s = false -> Str.contains dquote s' = false ->
  s +:+ dquote +:+ r = s' +:+ dquote +:+ r' -> s = s' /\ r = r'.
Proof.
  revert s'. induction s as [|a s IH]; intros [|a' s'] Hs Hs' H.
  - rewrite !append_nil_l in H. unfold dquote in H. rewrite !append_cons in H.
    injection H as H. now split.
  - exfalso. rewrite append_nil_l in H. unfold dquote at 1 in H.
    rewrite !append_cons in H. injection H as Ha _. subst a'.
    now rewrite contains_dquote_head in Hs'.
  - exfalso. rewrite append_nil_l in H. unfold dquote at 2 in H.
    rewrite !append_cons in H. injection H as Ha _. subst a.
    now rewrite contains_dquote_head in Hs.
  - rewrite !append_cons in H. injection H as -> H.
    apply contains_cons in Hs, Hs'. destruct (IH s' Hs Hs' H) as [-> ->]. now split.
Qed.


(** ** The column mapping as a dict *)

Lemma dict_set_keys d k v :
  map fst (dict_set d k v)
  = if Str.mem k (map fst d) then map fst d else map fst d ++ [k].
Proof.
  induction d as [|[k1 v1] d IH]; simpl; [reflexivity|].
  destruct (String.eqb_spec k1 k) as [->|Hne]; simpl.
  - now rewrite String.eqb_refl.
  - rewrite IH. destruct (String.eqb_spec k k1) as [->|_]; [contradiction|]. simpl.
    now destruct (Str.mem k (map fst d)).
Qed.

Lemma dict_set_NoDup d k v :
  List.NoDup (map fst d) -> List.NoDup (map fst (dict_set d k v)).
Proof.
  intros Hd. rewrite dict_set_keys. destruct (Str.mem k (map fst d)) eqn:E; [assumption|].
  apply mem_false in E. apply NoDup_app'; [assumption | repeat constructor; intros [] |].
  intros x Hx [<-|[]]. contradiction.
Qed.

Lemma dict_set_In d k v k' v' :
  List.NoDup (map fst d) ->
  In (k', v') (dict_set d k v) <-> (k' = k /\ v' = v) \/ (k' <> k /\ In (k', v') d).
Proof.
  induction d as [|[k1 v1] d IH]; simpl; intros Hd.
  - split.
    + intros [[= <- <-]|[]]. now left.
    + intros [[-> ->]|[_ []]]. now left.
  - inversion Hd as [|? ? Hnot Hd']; subst.
    destruct (String.eqb_spec k1 k) as [->|Hne]; simpl.
    + split.
      * intros [[= <- <-]|Hin]; [now left|]. right. split; [|now right].
        intros ->. apply Hnot. apply in_map_iff. now exists (k, v').
      * intros [[-> ->]|[Hne [[= <- <-]|Hin]]]; [now left | contradiction | now right].
    + rewrite (IH Hd'). split.
      * intros [[= <- <-]|[[-> ->]|[Hk Hin]]]; [right; split; [assumption | now left] | now left |].
        right. split; [assumption | now right].
      * intros [[-> ->]|[Hk [[= <- <-]|Hin]]]; [right; now left | now left |].
        right. right. now split.
Qed.

Lemma find_app' {A} (p : A -> bool) l1 l2 :
  List.find p (l1 ++ l2)
  = match List.find p l1 with Some x => Some x | None => List.find p l2 end.
Proof. induction l1 as [|x l1 IH]; simpl; [reflexivity|]. now destruct (p x). Qed.

Lemma last_spelling_cons c cols k :
  last_spelling (c :: cols) k
  = match last_spelling cols k with
    | Some x => Some x
    | None => if String.eqb (Str.lower c) k then Some c else None
    end.
Proof. unfold last_spelling. simpl. rewrite find_app'. reflexivity. Qed.

(** The dict built from the column names: one entry per lower-cased name,
    holding the last column spelled that way. *)
Lemma column_mapping_last cols d0 :
  List.NoDup (map fst d0) ->
  let d := fold_left (fun d col => dict_set d (Str.lower col) col) cols d0 in
  List.NoDup (map fst d)
  /\ forall k v, In (k, v) d <->
       last_spelling cols k = Some v \/ (last_spelling cols k = None /\ In (k, v) d0).
Proof.
  revert d0. induction cols as [|c cols IH]; intros d0 Hd0; simpl.
  - split; [assumption|]. intros k v. unfold last_spelling. simpl. split.
    + intros H. right. now split.
    + intros [H|[_ H]]; [discriminate | assumption].
  - destruct (IH (dict_set d0 (Str.lower c) c) (dict_set_NoDup _ _ _ Hd0)) as [Hnd Hin].
    split; [assumption|]. intros k v. rewrite Hin, last_spelling_cons, dict_set_In by assumption.
    destruct (last_spelling cols k) as [x|].
    + split; (intros [H|[H _]]; [now left | discriminate]).
    + destruct (String.eqb_spec (Str.lower c) k) as [<-|Hne].
      * split.
        -- intros [H|[_ [[_ ->]|[H _]]]]; [discriminate | now left | contradiction].
        -- intros [[= <-]|[H _]]; [|discriminate]. right. split; [reflexivity|]. now left.
      * split.
        -- intros [H|[_ [[-> _]|[_ H]]]]; [discriminate | contradiction |]. right. now split.
        -- intros [H|[_ H]]; [discriminate|]. right. split; [reflexivity|]. right.
           split; [congruence | assumption].
Qed.

Lemma last_spelling_Some cols k v :
  last_spelling cols k = Some v -> In v cols /\ Str.lower v = k.
Proof.
  unfold last_spelling. intros H. apply find_some in H as [Hin Hk].
  split; [now apply in_rev | now apply String.eqb_eq].
Qed.

Lemma last_spelling_None cols k :
  last_spelling cols k = None -> forall c, In c cols -> Str.lower c <> k.
Proof.
  unfold last_spelling. intros H c Hc Hk.
  apply in_rev in Hc. pose proof (find_none _ _ H c Hc) as Hf. simpl in Hf.
  apply String.eqb_neq in Hf. contradiction.
Qed.

Lemma dict_get_spec d k def :
  In (k, dict_get d k def) d \/ (dict_get d k def = def /\ ~ In k (map fst d)).
Proof.
  induction d as [|[k1 v1] d IH]; simpl; [right; split; [reflexivity | intros []]|].
  destruct (String.eqb_spec k1 k) as [->|Hne]; [left; now left|].
  destruct IH as [H|[H1 H2]]; [left; now right|]. right. split; [assumption|].
  intros [->|H]; contradiction.
Qed.

End NameFacts.

Module NameTheorems.
Import Pd Sql Merge Names Facts ClassifierFacts ClassifierTheorems ExecutorTheorems RunFacts NameFacts.

(** X1.  [quote_table_name] writes the two names between double quotes and
    escapes nothing.  As long as the schema names hold no double quote,
    two quoted names are equal only when the schema names are equal and
    the table names are. *)
Theorem quote_table_name_injective s t s' t' :
  Str.contains dquote s = false -> Str.contains dquote s' = false ->
  quote_table_name s t = quote_table_name s' t' -> s = s' /\ t = t'.
Proof.
  intros Hs Hs' H. unfold quote_table_name in H.
  rewrite !dquote_cons in H. injection H as H.
  apply quoted_prefix_inj in H as [-> H]; [|assumption..]. split; [reflexivity|].
  injection H as H. now apply append_inj in H.
Qed.


(** X2.  The mapping [fetch_column_names] returns for a table has one entry
    per lower-cased column name, and the entry holds the last column
    spelled that way: of two columns that differ in case only, the later
    one wins. *)
Theorem fetch_column_names_last_spelling sch tbl e e' cm t :
  fetch_column_names sch tbl e = (e', Ok cm) ->
  tables (db e) !! (sch, tbl) = Some t ->
  List.NoDup (map fst cm)
  /\ forall k v, In (k, v) cm <-> last_spelling (columns t) k = Some v.
Proof.
  intros H Ht. apply fetch_column_names_Ok in H as [_ ->]. rewrite Ht.
  destruct (column_mapping_last (columns t) []) as [Hnd Hin]; [constructor|].
  split; [assumption|]. intros k v. rewrite Hin. split; [|now left].
  intros [H|[_ []]]. assumption.
Qed.

(** X3.  The column list of the INSERTs ([mapped_columns]) lines up with
    the keys of the source mapping.  Each of its names lower-cases to its
    key; it is a column of the target when the target has one of that name
    up to case, and the key itself otherwise. *)
Theorem mapped_columns_differ_in_case_only sch src tgt e e1 e2 sc tc t :
  fetch_column_names sch src e = (e1, Ok sc) ->
  fetch_column_names sch tgt e1 = (e2, Ok tc) ->
  tables (db e) !! (sch, tgt) = Some t ->
  Forall2 (fun k m =>
             Str.lower m = k
             /\ (In m (columns t)
                 \/ (m = k /\ forall c, In c (columns t) -> Str.lower c <> k)))
          (map fst sc) (mapped_columns_of sc tc).
Proof.
  intros Hs Ht Htab.
  apply fetch_column_names_Ok in Hs as [Hd1 ->].
  apply fetch_column_names_Ok in Ht as [_ ->]. rewrite Hd1, Htab.
  set (sc := fold_left _ _ []). set (tc := fold_left _ (columns t) []).
  destruct (column_mapping_spec
              (match tables (db e) !! (sch, src) with Some s => columns s | None => [] end) [])
    as (Hlow & _ & _); [intros ? ? []|]. fold sc in Hlow.
  destruct (column_mapping_last (columns t) []) as [_ Hin]; [constructor|]. fold tc in Hin.
  unfold mapped_columns_of. apply Forall2_map_r. intros k Hk.
  apply in_map_iff in Hk as ([k1 v1] & <- & Hkv). simpl.
  pose proof (Hlow _ _ Hkv) as Hk1.
  assert (Hidem : Str.lower k1 = k1) by (rewrite <- Hk1; apply lower_idem).
  rewrite Hidem.
  destruct (dict_get_spec tc k1 k1) as [H|[H1 H2]].
  - apply Hin in H as [H|[_ []]]. apply last_spelling_Some in H as [Hc Hl]. split; [assumption|].
    now left.
  - rewrite H1. split; [assumption|]. right. split; [reflexivity|].
    intros c Hc Hl.
    destruct (last_spelling (columns t) k1) as [v|] eqn:El.
    + apply H2. apply in_map_iff. exists (k1, v). split; [reflexivity|]. apply Hin. now left.
    + now apply (last_spelling_None _ _ El c).
Qed.

End NameTheorems.

(** ** What a run does to the database *)

Module EffectFacts.
Import Pd Classifier Classes Sql Merge Names RunParts.
Import Facts MergeFacts ClassifierFacts SqlFacts RunFacts NameFacts.

Lemma merge_steps_parts sch src tgt K E :
  merge_steps sch src tgt K E
  = (sc ← fetch_column_names sch src;
     tc ← fetch_column_names sch tgt;
     _ ← archive sch tgt;
     after_archive sch src tgt K sc tc).
Proof. reflexivity. Qed.

Lemma backup_name_neq (sch tgt : string) : (sch, tgt +:+ "_bu") <> (sch, tgt).
Proof.
  intros [= H]. induction tgt as [|a tg IH]; [discriminate|].
  injection H as H. now apply IH.
Qed.

(** Renaming the target and copying it back leaves every table as it was
    and adds the backup. *)
Lemma rename_and_copy (m : gmap (string * string) DataFrame) sch tgt t :
  m !! (sch, tgt) = Some t ->
  <[(sch, tgt) := t]> (<[(sch, tgt +:+ "_bu") := t]> (delete (sch, tgt) m))
  = <[(sch, tgt +:+ "_bu") := t]> m.
Proof.
  intros Ht. apply map_eq. intros k.
  destruct (decide (k = (sch, tgt))) as [->|Hk].
  - rewrite lookup_insert_eq, lookup_insert_ne by apply backup_name_neq. now rewrite Ht.
  - rewrite lookup_insert_ne by congruence.
    destruct (decide (k = (sch, tgt +:+ "_bu"))) as [->|Hb].
    + now rewrite !lookup_insert_eq.
    + rewrite !lookup_insert_ne by congruence. now rewrite lookup_delete_ne by congruence.
Qed.

Lemma answer_healthy e : outage e = None -> answer e = None.
Proof. unfold answer. now intros ->. Qed.

Lemma execute_state q e e' r :
  execute q e = (e', r) ->
  outage e' = outage e /\ sent e' = S (sent e)
  /\ match r with
     | Ok _ => answer e = None /\ execute_statement q (db e) = Ok (db e')
     | Err x => db e' = db e
                /\ (answer e = None -> execute_statement q (db e) = Err x)
     end.
Proof.
  unfold execute. destruct (answer e) as [msg|].
  - intros [= <- <-]. simpl. repeat split. discriminate.
  - destruct (execute_statement q (db e)) as [d|x]; intros [= <- <-]; simpl; repeat split.
Qed.

Lemma read_sql_state {A} (f : Database -> result A) e e' r :
  read_sql f e = (e', r) ->
  e' = tick e (db e) /\ (answer e = None -> r = f (db e)).
Proof.
  unfold read_sql. destruct (answer e) as [msg|]; intros [= <- <-]; split;
    try reflexivity; discriminate.
Qed.

Lemma begin_state {A} (body : M A) e e' r :
  begin body e = (e', r) ->
  exists e1, body e = (e1, r) /\ outage e' = outage e1 /\ sent e' = sent e1
    /\ match r with Ok _ => e' = e1 | Err _ => db e' = db e end.
Proof.
  unfold begin. destruct (body e) as [e1 [a|x]]; intros [= <- <-]; exists e1; repeat split.
Qed.

Lemma fetch_column_names_state sch tbl e :
  exists r, fetch_column_names sch tbl e = (tick e (db e), r)
    /\ (answer e = None ->
        r = Ok (fold_left (fun d col => dict_set d (Str.lower col) col)
                          (match tables (db e) !! (sch, tbl) with
                           | Some t => columns t
                           | None => []
                           end) [])).
Proof.
  unfold fetch_column_names, begin, read_sql, information_schema_columns.
  cbv [mbind M_bind mret M_ret].
  destruct (answer e) as [msg|].
  - eexists. split; [reflexivity | discriminate].
  - destruct (tables (db e) !! (sch, tbl)); eexists; split; reflexivity.
Qed.

Lemma fetch_quarter_details_state e :
  exists r, fetch_quarter_details e = (tick e (db e), r).
Proof.
  unfold fetch_quarter_details, begin, read_sql.
  destruct (answer e) as [msg|]; [eexists; reflexivity|].
  destruct (quarter_detail (db e)); eexists; reflexivity.
Qed.

(** Step 2 either archives the target or leaves the database alone. *)
Lemma archive_effect sch tgt e e' r :
  archive sch tgt e = (e', r) ->
  outage e' = outage e
  /\ match r with
     | Ok _ => exists t, tables (db e) !! (sch, tgt) = Some t
                 /\ tables (db e) !! (sch, tgt +:+ "_bu") = None
                 /\ db e' = archived (db e) sch tgt t
     | Err _ => db e' = db e
     end.
Proof.
  unfold archive. intros H. apply begin_state in H as (e1 & Hb & Ho & _ & Hr).
  cbv [mbind M_bind] in Hb.
  destruct (execute _ e) as [e2 [[]|x]] eqn:Hren.
  - apply execute_state in Hren as (Ho2 & _ & _ & Hren).
    apply execute_state in Hb as (Ho1 & _ & Hcopy).
    split; [congruence|]. destruct r as [[]|x]; [|assumption]. subst e'.
    destruct Hcopy as [_ Hcopy].
    simpl in Hren. unfold relation in Hren.
    destruct (tables (db e) !! (sch, tgt)) as [t|] eqn:Ht; [|discriminate].
    cbn [mbind result_bind] in Hren.
    destruct (tables (db e) !! (sch, tgt +:+ "_bu")) eqn:Hbu; [discriminate|].
    injection Hren as Hren. rewrite <- Hren in Hcopy. simpl in Hcopy. unfold relation in Hcopy.
    simpl in Hcopy. rewrite lookup_insert_eq in Hcopy. cbn [mbind result_bind] in Hcopy.
    rewrite lookup_insert_ne, lookup_delete_eq in Hcopy by apply backup_name_neq.
    injection Hcopy as Hcopy. exists t. repeat split. rewrite <- Hcopy.
    unfold archived, set_tables. simpl. f_equal. now apply rename_and_copy.
  - injection Hb as <- <-. apply execute_state in Hren as (Ho2 & _ & _).
    split; [congruence | assumption].
Qed.

(** On a store that answers, step 2 archives exactly when the target is
    there and no backup is in the way. *)
Lemma archive_answered sch tgt e :
  outage e = None ->
  exists e' r, archive sch tgt e = (e', r)
    /\ match tables (db e) !! (sch, tgt), tables (db e) !! (sch, tgt +:+ "_bu") with
       | Some t, None => r = Ok tt
       | _, _ => exists x, r = Err x /\ rejected x /\ sent e' = S (sent e)
       end.
Proof.
  intros Ho. unfold archive, begin. cbv [mbind M_bind]. unfold execute at 1.
  rewrite (answer_healthy e Ho). simpl execute_statement. unfold relation.
  destruct (tables (db e) !! (sch, tgt)) as [t|] eqn:Ht; cbn [mbind result_bind].
  2:{ do 2 eexists. split; [reflexivity|].
      destruct (tables (db e) !! (sch, tgt +:+ "_bu"));
        eexists; (split; [reflexivity|]); split; try reflexivity; red; eauto. }
  destruct (tables (db e) !! (sch, tgt +:+ "_bu")) eqn:Hbu.
  { do 2 eexists. split; [reflexivity|].
    eexists; (split; [reflexivity|]); split; try reflexivity; red; eauto. }
  unfold execute. rewrite answer_healthy by exact Ho. simpl execute_statement.
  unfold relation. simpl. rewrite lookup_insert_eq. cbn [mbind result_bind].
  rewrite lookup_insert_ne, lookup_delete_eq by apply backup_name_neq.
  do 2 eexists. split; reflexivity.
Qed.

Lemma mapped_columns_of_nil tc : mapped_columns_of [] tc = [].
Proof. reflexivity. Qed.

(** Once the target is archived, the INSERT of step 5 is rejected when its
    first key is a column of the source. *)
Lemma insert_new_after_archive_rejected d sch src tgt t tc k0 K vd :
  tables d !! (sch, tgt) = Some t ->
  tables d !! (sch, tgt +:+ "_bu") = None ->
  (forall s, tables d !! (sch, src) = Some s -> In k0 (columns s)) ->
  let sc := fold_left (fun d col => dict_set d (Str.lower col) col)
                      (match tables d !! (sch, src) with
                       | Some s => columns s
                       | None => []
                       end) [] in
  is_ok (execute_statement
           (InsertNew sch src tgt (mapped_columns_of sc tc) (map snd sc) (k0 :: K) k0 vd)
           (archived d sch tgt t)) = false.
Proof.
  intros Ht Hbu Hkey sc.
  assert (Htgt : tables (archived d sch tgt t) !! (sch, tgt) = Some t).
  { simpl. rewrite lookup_insert_ne by apply backup_name_neq. exact Ht. }
  destruct (decide ((sch, src) = (sch, tgt +:+ "_bu"))) as [[= ->]|Hsb].
  - subst sc. rewrite Hbu. simpl fold_left. rewrite mapped_columns_of_nil.
    simpl execute_statement. unfold relation. rewrite Htgt. cbn [mbind result_bind].
    simpl tables. rewrite lookup_insert_eq. reflexivity.
  - destruct (tables d !! (sch, src)) as [s|] eqn:Hs.
    + apply insert_new_rejected; [|now left | now apply Hkey].
      simpl. rewrite lookup_insert_ne by congruence. exact Hs.
    + simpl execute_statement. unfold relation. rewrite Htgt. cbn [mbind result_bind].
      simpl tables. rewrite lookup_insert_ne by congruence. now rewrite Hs.
Qed.

(** Steps 3 to 7 on an archived target, with keys that are columns of the
    source: the run stops at step 5 at the latest and leaves the database
    as the archive made it. *)
Lemma after_archive_fails sch src tgt K d t e3 tc :
  tables d !! (sch, tgt) = Some t ->
  tables d !! (sch, tgt +:+ "_bu") = None ->
  keys_of_source d sch src K ->
  db e3 = archived d sch tgt t ->
  let sc := fold_left (fun d col => dict_set d (Str.lower col) col)
                      (match tables d !! (sch, src) with
                       | Some s => columns s
                       | None => []
                       end) [] in
  exists e' x, after_archive sch src tgt K sc tc e3 = (e', Err x)
    /\ db e' = db e3 /\ outage e' = outage e3.
Proof.
  intros Ht Hbu Hkeys Hd3 sc.
  assert (Htgt : tables (db e3) !! (sch, tgt) = Some t).
  { rewrite Hd3. simpl. rewrite lookup_insert_ne by apply backup_name_neq. exact Ht. }
  unfold after_archive. cbv [mbind M_bind mret M_ret].
  (* step 3 *)
  destruct (ensure_target_table_exists sch tgt src e3) as [e4 r4] eqn:H4.
  unfold ensure_target_table_exists in H4.
  apply begin_state in H4 as (e4' & Hx4 & Ho4 & _ & Hr4).
  apply execute_state in Hx4 as (Ho4' & _ & Hq4).
  destruct r4 as [[]|x4]; [|exists e4, x4; repeat split; [assumption | congruence]].
  subst e4'. destruct Hq4 as [_ Hq4]. simpl in Hq4. rewrite Htgt in Hq4.
  injection Hq4 as Hd4.
  (* step 4 *)
  destruct (fetch_quarter_details_state e4) as [r5 H5]. rewrite H5.
  destruct r5 as [qd|x5];
    [|exists (tick e4 (db e4)), x5; repeat split; simpl; congruence].
  (* step 5 *)
  unfold lift.
  destruct (loc qd "New") as [vd|x]; cbn [mbind result_bind];
    [|exists (tick e4 (db e4)), x; repeat split; simpl; congruence].
  destruct K as [|k0 K]; cbn [mbind result_bind first];
    [exists (tick e4 (db e4)), IndexError; repeat split; simpl; congruence|].
  destruct (begin _ (tick e4 (db e4))) as [e6 r6] eqn:H6.
  apply begin_state in H6 as (e6' & Hx6 & Ho6 & _ & Hr6).
  apply execute_state in Hx6 as (Ho6' & _ & Hq6).
  destruct r6 as [[]|x6].
  - exfalso. destruct Hq6 as [_ Hq6]. simpl db in Hq6. rewrite <- Hd4, Hd3 in Hq6.
    assert (Hkey : forall s, tables d !! (sch, src) = Some s -> In k0 (columns s)).
    { intros s Hs. apply (Hkeys s Hs). now left. }
    pose proof (insert_new_after_archive_rejected d sch src tgt t tc k0 K vd Ht Hbu Hkey)
      as Hrej.
    cbv zeta in Hrej. fold sc in Hrej. rewrite Hq6 in Hrej. discriminate.
  - exists e6, x6. repeat split; simpl in *; congruence.
Qed.

(** Up to the archive a run reads, and renames and copies the target. *)
Lemma merge_steps_archive sch src tgt K E e :
  (exists e' x, merge_steps sch src tgt K E e = (e', Err x)
     /\ outage e' = outage e /\ db e' = db e)
  \/ (exists sc tc e3 t,
        merge_steps sch src tgt K E e = after_archive sch src tgt K sc tc e3
        /\ sc = fold_left (fun d col => dict_set d (Str.lower col) col)
                  (match tables (db e) !! (sch, src) with
                   | Some s => columns s
                   | None => []
                   end) []
        /\ outage e3 = outage e
        /\ tables (db e) !! (sch, tgt) = Some t
        /\ tables (db e) !! (sch, tgt +:+ "_bu") = None
        /\ db e3 = archived (db e) sch tgt t).
Proof.
  rewrite merge_steps_parts. cbv [mbind M_bind].
  destruct (fetch_column_names_state sch src e) as (r1 & H1 & Hr1). rewrite H1.
  destruct r1 as [sc|x1]; [|left; exists (tick e (db e)), x1; now repeat split].
  destruct (fetch_column_names_state sch tgt (tick e (db e))) as (r2 & H2 & _). rewrite H2.
  simpl db.
  destruct r2 as [tc|x2]; [|left; exists (tick (tick e (db e)) (db e)), x2; now repeat split].
  destruct (archive sch tgt _) as [e3 r3] eqn:H3.
  apply archive_effect in H3 as [Ho3 Hr3]. simpl in Ho3, Hr3.
  destruct r3 as [[]|x3]; [|left; exists e3, x3; now repeat split].
  destruct Hr3 as (t & Ht & Hbu & Hd3).
  right. exists sc, tc, e3, t. repeat split; try assumption.
  pose proof (fetch_column_names_Ok _ _ _ _ _ H1) as [_ Hsc]. exact Hsc.
Qed.

(** With keys that are columns of the source, a run leaves the database
    as it found it or with the backup added. *)
Lemma merge_steps_effect sch src tgt K E e :
  keys_of_source (db e) sch src K ->
  exists e' x, merge_steps sch src tgt K E e = (e', Err x)
    /\ outage e' = outage e
    /\ (db e' = db e
        \/ exists t, tables (db e) !! (sch, tgt) = Some t
             /\ tables (db e) !! (sch, tgt +:+ "_bu") = None
             /\ db e' = archived (db e) sch tgt t).
Proof.
  intros Hkeys.
  destruct (merge_steps_archive sch src tgt K E e)
    as [(e' & x & H & Ho & Hd)|(sc & tc & e3 & t & H & Hsc & Ho3 & Ht & Hbu & Hd3)].
  - exists e', x. repeat split; try assumption. now left.
  - destruct (after_archive_fails sch src tgt K (db e) t e3 tc Ht Hbu Hkeys Hd3)
      as (e' & x & Hr & Hd & Ho).
    simpl in Hr. rewrite <- Hsc in Hr. exists e', x. rewrite H, Hr.
    split; [reflexivity|]. split; [congruence|]. right. exists t. repeat split; congruence.
Qed.

(** On a store that answers every statement, what such a run leaves is
    decided by the tables it finds. *)
Lemma merge_steps_answered sch src tgt K E e :
  outage e = None -> keys_of_source (db e) sch src K ->
  db (fst (merge_steps sch src tgt K E e)) = left_by_run (db e) sch tgt.
Proof.
  intros Ho Hkeys. rewrite merge_steps_parts. cbv [mbind M_bind].
  destruct (fetch_column_names_state sch src e) as (r1 & H1 & Hr1). rewrite H1.
  rewrite (Hr1 (answer_healthy e Ho)).
  destruct (fetch_column_names_state sch tgt (tick e (db e))) as (r2 & H2 & Hr2). rewrite H2.
  rewrite (Hr2 (answer_healthy (tick e (db e)) Ho)). simpl db.
  set (e2 := tick (tick e (db e)) (db e)).
  destruct (archive sch tgt e2) as [e3 r3] eqn:H3.
  pose proof (archive_effect _ _ _ _ _ H3) as [Ho3 Hr3].
  destruct (archive_answered sch tgt e2 Ho) as (e3' & r3' & H3' & Hcase).
  rewrite H3 in H3'. injection H3' as <- <-. simpl in Hr3, Hcase.
  unfold left_by_run.
  destruct (tables (db e) !! (sch, tgt)) as [t|] eqn:Ht.
  2:{ destruct Hcase as [x [-> _]]. exact Hr3. }
  destruct (tables (db e) !! (sch, tgt +:+ "_bu")) eqn:Hbu.
  { destruct Hcase as [x [-> _]]. exact Hr3. }
  subst r3. destruct Hr3 as (t' & Ht' & _ & Hd3). injection Ht' as <-.
  destruct (after_archive_fails sch src tgt K (db e) t e3
              (fold_left (fun d col => dict_set d (Str.lower col) col)
                 (match tables (db e) !! (sch, tgt) with
                  | Some t => columns t
                  | None => []
                  end) []) Ht Hbu Hkeys Hd3) as (e' & x & Hr & Hd & _).
  cbv zeta in Hr. rewrite Ht in Hr. rewrite Hr. simpl. congruence.
Qed.

(** A run that finds the backup of an earlier one, or no target, stops at
    the archive. *)
Lemma merge_steps_blocked sch src tgt K E e :
  tables (db e) !! (sch, tgt) = None \/ is_Some (tables (db e) !! (sch, tgt +:+ "_bu")) ->
  db (fst (merge_steps sch src tgt K E e)) = db e.
Proof.
  intros Hb.
  destruct (merge_steps_archive sch src tgt K E e)
    as [(e' & x & H & _ & Hd)|(sc & tc & e3 & t & _ & _ & _ & Ht & Hbu & _)].
  - now rewrite H.
  - exfalso. destruct Hb as [Hb|[b Hb]]; congruence.
Qed.

Lemma run_merge_process_steps e sch src tgt K E :
  fst (run_merge_process e sch src tgt K E) = fst (merge_steps sch src tgt K E e).
Proof.
  unfold run_merge_process. now destruct (merge_steps sch src tgt K E e) as [e' [m|x]].
Qed.

Lemma left_by_run_blocked d sch tgt :
  tables (left_by_run d sch tgt) !! (sch, tgt) = None
  \/ is_Some (tables (left_by_run d sch tgt) !! (sch, tgt +:+ "_bu")).
Proof.
  unfold left_by_run.
  destruct (tables d !! (sch, tgt)) as [t|] eqn:Ht; [|now left].
  destruct (tables d !! (sch, tgt +:+ "_bu")) eqn:Hbu; [right; now rewrite Hbu|].
  right. simpl. rewrite lookup_insert_eq. eauto.
Qed.

End EffectFacts.

Module EffectTheorems.
Import Pd Classifier Classes Sql Merge Names RunParts.
Import Facts MergeFacts ClassifierFacts SqlFacts RunFacts RunTheorems NameFacts EffectFacts.

(** X5.  Every run ends with an exception: [run_merge_process] returns the
    text "Merge failed: " followed by the text of that exception, and
    never the success message.  When nothing has stopped the run before,
    the INSERT of step 7 does: it compares [s.m] with [t.m] for every
    mapped column and selects the source columns without a qualifier, so
    that the store rejects it whenever the comparison can be made. *)
Theorem every_run_fails e sch src tgt K E :
  exists e' x,
    run_merge_process e sch src tgt K E = (e', "Merge failed: " +:+ str_exn x)
    /\ snd (run_merge_process e sch src tgt K E) <> completed.
Proof.
  unfold run_merge_process.
  destruct (merge_steps sch src tgt K E e) as [e' [m|x]] eqn:H.
  - now apply run_never_completes in H.
  - exists e', x. split; [reflexivity|]. apply failed_is_not_completed.
Qed.

(** X6.  With business keys that are columns of the source table, as the
    page provides them, a run leaves the database as it found it or with
    one more table, the backup copy of the target, whatever the store
    does.  No row of any table is added or changed, and the registry is
    not touched. *)
Theorem run_only_adds_backup e sch src tgt K E :
  keys_of_source (db e) sch src K ->
  let e' := fst (run_merge_process e sch src tgt K E) in
  db e' = db e
  \/ exists t, tables (db e) !! (sch, tgt) = Some t
       /\ tables (db e) !! (sch, tgt +:+ "_bu") = None
       /\ tables (db e') = <[(sch, tgt +:+ "_bu") := t]> (tables (db e))
       /\ quarter_detail (db e') = quarter_detail (db e).
Proof.
  intros Hkeys. simpl. rewrite run_merge_process_steps.
  destruct (merge_steps_effect sch src tgt K E e Hkeys)
    as (e' & x & H & _ & [Hd|(t & Ht & Hbu & Hd)]);
    rewrite H; simpl; [now left|].
  right. exists t. rewrite Hd. repeat split; assumption.
Qed.

(** X7.  A run against a target that is not there creates nothing: the
    database is left as it was.  On a store that answers, the run stops at
    the rename of step 2, which the store rejects, after three statements;
    step 3, which would create the table, is not reached. *)
Theorem missing_target_is_never_created e sch src tgt K E :
  tables (db e) !! (sch, tgt) = None ->
  db (fst (run_merge_process e sch src tgt K E)) = db e
  /\ (outage e = None ->
      exists x, rejected x
        /\ run_merge_process e sch src tgt K E
           = (mkEngine (db e) (3 + sent e) None, "Merge failed: " +:+ str_exn x)).
Proof.
  intros Ht. split.
  - rewrite run_merge_process_steps. apply merge_steps_blocked. now left.
  - intros Ho. unfold run_merge_process. rewrite merge_steps_parts. cbv [mbind M_bind].
    destruct (fetch_column_names_state sch src e) as (r1 & H1 & Hr1). rewrite H1.
    rewrite (Hr1 (answer_healthy e Ho)).
    destruct (fetch_column_names_state sch tgt (tick e (db e))) as (r2 & H2 & Hr2). rewrite H2.
    rewrite (Hr2 (answer_healthy (tick e (db e)) Ho)). simpl db.
    set (e2 := tick (tick e (db e)) (db e)).
    destruct (archive_answered sch tgt e2 Ho) as (e3 & r3 & H3 & Hcase).
    pose proof (archive_effect _ _ _ _ _ H3) as [Ho3 Hr3].
    simpl in Hcase, Ho3, Hr3. rewrite Ht in Hcase. destruct Hcase as (x & -> & Hx & Hsent).
    rewrite H3. exists x. split; [assumption|].
    destruct e3 as [d3 n3 o3]. simpl in *. subst. rewrite Ho. reflexivity.
Qed.

(** X8.  On a store that answers, a run with keys that are columns of the
    source archives the target when it is there and no backup is, and
    does nothing else.  A second run, whatever its source and keys, finds
    the backup in the way and leaves the database as the first run left
    it. *)
Theorem second_run_changes_nothing e sch src tgt K E src' K' E' :
  outage e = None -> keys_of_source (db e) sch src K ->
  let e1 := fst (run_merge_process e sch src tgt K E) in
  db e1 = left_by_run (db e) sch tgt
  /\ db (fst (run_merge_process e1 sch src' tgt K' E')) = db e1.
Proof.
  intros Ho Hkeys. simpl. rewrite !run_merge_process_steps.
  pose proof (merge_steps_answered sch src tgt K E e Ho Hkeys) as H1.
  split; [exact H1|]. apply merge_steps_blocked. rewrite H1. apply left_by_run_blocked.
Qed.

End EffectTheorems.

(** ** The rows the statements and the classifiers select *)

Module SelectionFacts.
Import Pd Classifier Classes Sql Merge Names RunParts.
Import Facts MergeFacts ClassifierFacts ClassifierTheorems SqlFacts RunFacts.

Lemma holds_sql_eq a b :
  holds (sql_eq a b) = negb (is_null a) && value_eqb a b.
Proof. destruct a, b; simpl; try reflexivity; now destruct (_ =? _)%Z || now destruct (String.eqb _ _). Qed.

Lemma holds_on_keys acols bcols keys a b :
  holds (on_keys acols bcols keys a b)
  = forallb (fun k => holds (sql_eq (cell acols a k) (cell bcols b k))) keys.
Proof.
  unfold on_keys. induction keys as [|k keys IH]; simpl; [reflexivity|].
  now rewrite holds_and, IH.
Qed.

Lemma key_eqb_map (f g : string -> value) keys :
  key_eqb (map f keys) (map g keys) = forallb (fun k => value_eqb (f k) (g k)) keys.
Proof.
  unfold key_eqb. rewrite !length_map, Nat.eqb_refl. simpl.
  induction keys as [|k keys IH]; simpl; [reflexivity|]. now rewrite IH.
Qed.

(** The ON condition of the joins holds when no key cell of the left row
    is missing and the key tuples are equal. *)
Lemma on_keys_key_eqb acols bcols keys a b :
  holds (on_keys acols bcols keys a b)
  = negb (has_null_key acols keys a)
    && key_eqb (key_of acols keys a) (key_of bcols keys b).
Proof.
  rewrite holds_on_keys. unfold has_null_key, key_of. rewrite key_eqb_map.
  induction keys as [|k keys IH]; simpl; [reflexivity|].
  rewrite IH, holds_sql_eq, negb_orb.
  destruct (is_null (cell acols a k)), (value_eqb (cell acols a k) (cell bcols b k)),
    (existsb _ keys), (forallb _ keys); reflexivity.
Qed.

Lemma existsb_map' {A B} (p : B -> bool) (f : A -> B) l :
  existsb p (map f l) = existsb (fun x => p (f x)) l.
Proof. induction l as [|x l IH]; simpl; [reflexivity|]. now rewrite IH. Qed.

Lemma flat_map_if' {A B} (p : A -> bool) (g : A -> B) l :
  flat_map (fun x => if p x then [g x] else []) l = map g (List.filter p l).
Proof.
  induction l as [|x l IH]; simpl; [reflexivity|]. rewrite IH. now destruct (p x).
Qed.

Lemma existsb_ext' {A} (p q : A -> bool) l :
  (forall x, p x = q x) -> existsb p l = existsb q l.
Proof. intros H. induction l as [|x l IH]; simpl; [reflexivity|]. now rewrite H, IH. Qed.

Lemma filter_nil_existsb {A} (p : A -> bool) l :
  List.filter p l = [] <-> existsb p l = false.
Proof.
  induction l as [|x l IH]; simpl; [tauto|].
  destruct (p x); simpl; [split; discriminate | exact IH].
Qed.

End SelectionFacts.

Module SelectionTheorems.
Import Pd Classifier Classes Sql Merge Names RunParts.
Import Facts MergeFacts ClassifierFacts ClassifierTheorems SqlFacts RunFacts SelectionFacts.

(** X10.  The rows step 5 selects ([FROM s LEFT JOIN t ON keys WHERE t.k0
    IS NULL], the first key being one of the keys) are the source rows,
    each once and joined to no target row, that have a missing key cell
    or whose key tuple is that of no target row: the rows that
    [find_new_records] keeps, and those with a missing key. *)
Theorem new_selected_unmatched S T K k0 :
  In k0 K ->
  new_selected (columns S) (columns T) K k0 (rows S) (rows T)
  = map (fun s => (s, None))
        (List.filter (fun s => has_null_key (columns S) K s || unmatched S T K s) (rows S)).
Proof.
  intros Hk0. unfold new_selected. rewrite filter_flat_map.
  rewrite <- flat_map_if'. apply flat_map_ext_in'. intros s _.
  unfold left_join.
  set (ms := List.filter (fun b => holds (on_keys (columns S) (columns T) K s b)) (rows T)).
  assert (Hun : unmatched S T K s
                = negb (existsb (fun t => key_eqb (key_of (columns S) K s)
                                                  (key_of (columns T) K t)) (rows T))).
  { unfold unmatched, frame_keys. now rewrite existsb_map'. }
  destruct ms as [|m ms'] eqn:Ems.
  - simpl. apply filter_nil_existsb in Ems.
    destruct (has_null_key (columns S) K s) eqn:Hnull; [reflexivity|]. simpl.
    rewrite Hun.
    rewrite (existsb_ext' _ (fun t => key_eqb (key_of (columns S) K s)
                                              (key_of (columns T) K t))) in Ems.
    2:{ intros t. now rewrite on_keys_key_eqb, Hnull. }
    now rewrite Ems.
  - assert (Hall : forall t, In t (m :: ms') ->
                     holds (on_keys (columns S) (columns T) K s t) = true /\ In t (rows T)).
    { intros t Ht. rewrite <- Ems in Ht. apply filter_In in Ht. tauto. }
    destruct (Hall m (or_introl eq_refl)) as [Hm HmT].
    rewrite on_keys_key_eqb in Hm. apply andb_true_iff in Hm as [Hnull Hkey].
    apply negb_true_iff in Hnull. rewrite Hnull, Hun. simpl orb.
    assert (existsb (fun t => key_eqb (key_of (columns S) K s) (key_of (columns T) K t))
                    (rows T) = true) as ->.
    { apply existsb_exists. now exists m. }
    match goal with |- ?L = _ => assert (Hnil : L = []); [|now rewrite Hnil] end.
    apply filter_none. intros p Hp.
    apply in_map_iff in Hp as (o & <- & Ho). apply in_map_iff in Ho as (t & <- & Ht).
    simpl. destruct (Hall t Ht) as [Hon _]. rewrite holds_on_keys in Hon.
    rewrite forallb_forall in Hon. specialize (Hon k0 Hk0).
    rewrite holds_sql_eq in Hon. apply andb_true_iff in Hon as [Hn He].
    apply value_eqb_eq in He. rewrite <- He. now apply negb_true_iff in Hn.
Qed.

(** X11.  The INSERT statements of steps 5 and 7 select the columns of
    their source, as [fetch_column_names] lists them, without a qualifier
    over the join with the target.  The store rejects that of step 7 on
    every database, and that of step 5 whenever its first key is a column
    of the source: neither changes a table then. *)
Theorem insert_statements_rejected d sch src tgt mapped K k0 vd vd' s tcols :
  tables d !! (sch, src) = Some s ->
  let column_mapping cols :=
    fold_left (fun d col => dict_set d (Str.lower col) col) cols [] in
  let sc := column_mapping (columns s) in
  let tc := column_mapping tcols in
  (In k0 K -> In k0 (columns s) ->
   is_ok (execute_statement (InsertNew sch src tgt mapped (map snd sc) K k0 vd) d) = false)
  /\ is_ok (execute_statement
              (InsertChangeNew sch src tgt (mapped_columns_of sc tc) (map snd sc) K vd') d)
     = false.
Proof.
  intros Hs cm sc tc. split.
  - intros Hk0 Hcol. now apply insert_new_rejected.
  - apply insert_change_new_rejected; now apply column_mapping_spec.
Qed.

(** A key that is no column of the source can be a system column, which
    both tables have: with source columns that are spelled in mixed case
    and so resolve in the target only, the INSERT of step 5 is then
    executed. *)
Example insert_new_with_a_system_key :
  let d := mkDB (<[("public", "source") := mkDF ["Id"; "Val"] [[VInt 1; VStr "A"]]]>
                   (tables Inputs.database)) (Some Inputs.registry) in
  is_ok (execute_statement
           (InsertNew "public" "source" "target" ["id"; "val"] ["Id"; "Val"]
                      ["tableoid"] "tableoid" Inputs.v_new) d) = true.
Proof. reflexivity. Qed.

(** X14.  When the status column holds integers, as the executor writes
    them, the status test of the classifiers (not equal to the string "0")
    removes no row: every row is active, a row that step 6 has term-dated
    included, and [find_deleted_records] returns every target row without
    a key match. *)
Theorem integer_status_is_always_active S T K sc :
  status_col T = Some sc ->
  (forall r, In r (rows T) -> exists z, cell (columns T) r sc = VInt z) ->
  active_rows T = Ok T
  /\ (forall r, In r (rows T) -> is_active T r = true)
  /\ (forall D, rectangular T -> find_deleted_records S T K = Ok D ->
        D = mkDF (columns T) (List.filter (unmatched T S K) (rows T)))
  /\ (forall vd r, sc = "status" -> length r = length (columns T) ->
        cell (columns T) (term_update (columns T) vd r) sc = VInt (Status vd)).
Proof.
  intros Hsc Hint.
  assert (Hact : forall r, In r (rows T) -> is_active T r = true).
  { intros r Hr. unfold is_active. rewrite Hsc. now destruct (Hint r Hr) as [z ->]. }
  split; [|split; [exact Hact | split]].
  - rewrite active_rows_spec. rewrite filter_all by exact Hact. now destruct T.
  - intros D Hrect HD. apply deleted_spec in HD; [|assumption]. subst D. f_equal.
    apply List.filter_ext_in. intros r Hr. now rewrite (Hact r Hr).
  - intros vd r -> Hlen. unfold term_update.
    rewrite cell_set_other by discriminate. apply cell_set_same; [|assumption].
    now apply status_col_In.
Qed.

(** X15.  For well-formed frames, keys of one kind that are labels of
    both, and no clash of a label with the indicator or with the suffixes,
    [find_new_records] returns the source rows whose key tuple is that of
    no target row, in their order, each followed by a missing value for
    every other column of the target. *)
Theorem find_new_records_unmatched_source_rows S T K :
  wf_frame S -> wf_frame T ->
  K <> [] -> List.NoDup K ->
  (forall k, In k K -> In k (columns S) /\ In k (columns T)) ->
  keys_of_one_kind S T K ->
  free_of_indicator S -> free_of_indicator T ->
  suffix_clash S T K ("_x", "_y") = false ->
  exists N,
    find_new_records S T K = Ok N
    /\ columns N = left_labels S T K "_x" ++ right_labels S T K "_y"
    /\ rows N = map (fun l => l ++ map (fun _ => VNull) (rest_labels T K))
                    (List.filter (unmatched S T K) (rows S)).
Proof.
  intros [HS Hrect] [HT _] HK _ Hcols _ HmS HmT Hclash.
  destruct (find_new_records_returns S T K) as [N HN]; try assumption.
  exists N. split; [assumption|].
  apply new_spec in HN as [_ ->]; [|assumption]. split; reflexivity.
Qed.

(** X16.  With usable keys and no source label that is a compared field
    followed by "_target", [find_changed_records] returns when a field is
    left to compare, and raises ValueError("No objects to concatenate")
    when none is: when every column the frames share is a key or is
    excluded. *)
Theorem find_changed_records_needs_a_field S T K E :
  List.NoDup (map Str.lower (columns S)) -> List.NoDup (map Str.lower (columns T)) ->
  K <> [] -> List.NoDup (map Str.lower K) ->
  (forall k, In k (map Str.lower K) ->
     In k (map Str.lower (columns S)) /\ In k (map Str.lower (columns T))) ->
  keys_of_one_kind (lower_columns S) (lower_columns T) (map Str.lower K) ->
  (forall f, In f (compare_fields S T K E) ->
     ~ In (f +:+ "_target") (map Str.lower (columns S))) ->
  match compare_fields S T K E with
  | [] => find_changed_records S T K E = Err (ValueError "No objects to concatenate")
  | _ :: _ => exists C, find_changed_records S T K E = Ok C
  end.
Proof.
  intros HS _ HK HndK Hcols _ Hfree.
  destruct (compare_fields S T K E) as [|f cf] eqn:Hcf.
  2:{ apply find_changed_records_returns; try assumption; rewrite Hcf;
        [discriminate | exact Hfree]. }
  assert (Hm : merge_checks (lower_columns S) (right_frame S T K E) (map Str.lower K)
                 (EmptyString, "_target") false = Ok tt).
  { apply merge_checks_pass.
    - destruct K; [contradiction | discriminate].
    - intros k Hk. now apply Hcols.
    - intros k Hk. simpl. apply in_or_app. now left.
    - intros k Hk. apply count_NoDup; [assumption | now apply Hcols].
    - intros k Hk. apply count_NoDup; [|simpl; apply in_or_app; now left].
      simpl. rewrite Hcf, List.app_nil_r. assumption.
    - discriminate.
    - apply suffix_clash_false. simpl fst. simpl snd.
      rewrite left_labels_right, right_labels_right, rest_right, Hcf.
      repeat split; [assumption | constructor | tauto | now intros r []]. }
  unfold find_changed_records. rewrite active_rows_spec. cbn [mbind result_bind].
  change (mkDF (columns (lower_columns T)) _) with (active_target T).
  change (compare_fields_of _ _ _ _) with (compare_fields S T K E).
  rewrite (select_pass (active_target T) (map Str.lower K ++ compare_fields S T K E)).
  2:{ intros c Hc. rewrite Hcf, List.app_nil_r in Hc. now apply Hcols. }
  cbn [mbind result_bind].
  change (mkDF (map Str.lower K ++ compare_fields S T K E) _) with (right_frame S T K E).
  unfold merge. rewrite Hm. cbn [mbind result_bind]. rewrite Hcf. reflexivity.
Qed.

End SelectionTheorems.

(** ** The buttons of the merger page *)

Module PageFacts.
Import Pd Classifier Classes Sql Merge Names RunParts Page.
Import Facts MergeFacts ClassifierFacts ClassifierTheorems SqlFacts RunFacts.
Import RunTheorems NameFacts EffectFacts.

Lemma setdefault_lookup key value (st : session_state) k :
  setdefault key value st !! k
  = match st !! k with
    | Some v => Some v
    | None => if decide (k = key) then Some value else None
    end.
Proof.
  unfold setdefault, session_state in *. destruct (st !! key) as [v|] eqn:E.
  - destruct (st !! k) as [w|] eqn:Ek; [reflexivity|].
    destruct (decide (k = key)) as [->|]; [congruence | reflexivity].
  - destruct (decide (k = key)) as [->|Hne].
    + now rewrite lookup_insert_eq, E.
    + rewrite lookup_insert_ne by congruence. now destruct (st !! k).
Qed.

Lemma setdefault_present key value (st : session_state) v :
  st !! key = Some v -> setdefault key value st = st.
Proof. unfold setdefault. now intros ->. Qed.

Lemma fetch_table_data_answered sch tbl cols all e t :
  answer e = None -> tables (db e) !! (sch, tbl) = Some t ->
  fetch_table_data sch tbl cols all e
  = match (if all then Ok t else select_quoted t cols) with
    | Ok df => (tick e (db e), Ok df)
    | Err x => (tick e (db e), Err x)
    end.
Proof.
  intros Ha Ht. unfold fetch_table_data, begin. rewrite (read_sql_answered _ e Ha).
  unfold relation. rewrite Ht. cbn [mbind result_bind].
  now destruct (if all then Ok t else select_quoted t cols).
Qed.

Lemma select_quoted_pass t cs :
  (forall c, In c cs -> In c (columns t)) ->
  select_quoted t cs = Ok (mkDF cs (map (fun r => map (cell (columns t) r) cs) (rows t))).
Proof. intros H. unfold select_quoted. now rewrite (proj2 (find_absent_None _ _) H). Qed.

(** The key tuples of a frame cut down to its key columns. *)
Lemma unmatched_select df other K r :
  unmatched df (mkDF K (map (fun r => map (cell (columns other) r) K) (rows other))) K r
  = unmatched df other K r.
Proof. unfold unmatched. now rewrite frame_keys_select. Qed.

Lemma left_labels_keys_only left K rs s :
  left_labels left (mkDF K rs) K s = columns left.
Proof.
  unfold left_labels. rewrite rest_labels_keys. simpl.
  rewrite (map_ext _ (fun c => c)); [apply List.map_id|].
  intros c. now rewrite andb_false_r.
Qed.

Lemma right_labels_keys_only left K rs s : right_labels left (mkDF K rs) K s = [].
Proof. unfold right_labels. now rewrite rest_labels_keys. Qed.

Lemma map_app_nil {A} (l : list (list A)) : map (fun r => r ++ []) l = l.
Proof.
  rewrite (map_ext _ (fun r => r)); [apply List.map_id|]. intros r. apply List.app_nil_r.
Qed.

(** A frame of key columns only renames nothing and collides with nothing. *)
Lemma suffix_clash_keys_only left K rs sfx :
  List.NoDup (columns left) -> suffix_clash left (mkDF K rs) K sfx = false.
Proof.
  intros Hnd. apply suffix_clash_false.
  rewrite left_labels_keys_only, right_labels_keys_only, rest_labels_keys.
  repeat split; [assumption | constructor | intros l _ [] | intros r []].
Qed.

(** ** The page up to its buttons *)

Section Main.
Variable schemata : Database -> list string.
Variable table_names : string -> Database -> list string.

Lemma four_ticks e :
  outage e = None ->
  tick (tick (tick (tick e (db e)) (db e)) (db e)) (db e)
  = mkEngine (db e) (4 + sent e) None.
Proof. destruct e as [d n o]. simpl. now intros ->. Qed.

(** The page sends four queries and then builds the second multiselect:
    it goes on to the buttons when every proposed default is a column of
    the target, and raises otherwise. *)
Lemma main_multiselect sch src tgt K E b e t :
  outage e = None ->
  sch <> EmptyString -> src <> EmptyString -> tgt <> EmptyString ->
  tables (db e) !! (sch, tgt) = Some t ->
  main schemata table_names (mkWidgets (Some sch) (Some src) (Some tgt) K E b) e
  = match multiselect (columns t) (valid_defaults (columns t)) E with
    | Ok E' => buttons sch src tgt (columns t) K E' b (mkEngine (db e) (4 + sent e) None)
    | Err x => (mkEngine (db e) (4 + sent e) None, Err x)
    end.
Proof.
  intros Ho Hsch Hsrc Htgt Ht.
  destruct sch as [|a1 sch]; [contradiction|].
  destruct src as [|a2 src]; [contradiction|].
  destruct tgt as [|a3 tgt]; [contradiction|].
  unfold main, get_schemas, get_tables, get_column_names.
  cbv [mbind M_bind mret M_ret if_selected selected_schema source_table target_table
       business_keys exclude_fields clicked].
  rewrite (read_sql_answered _ e (answer_healthy e Ho)).
  rewrite (read_sql_answered _ _ (answer_healthy (tick e (db e)) Ho)). simpl db.
  rewrite (read_sql_answered _ _ (answer_healthy (tick (tick e (db e)) (db e)) Ho)).
  simpl db. unfold information_schema_columns at 1.
  destruct (tables (db e) !! (String a1 sch, String a2 src)) as [s|];
    (rewrite (read_sql_answered _ _
                (answer_healthy (tick (tick (tick e (db e)) (db e)) (db e)) Ho));
     simpl db; unfold information_schema_columns; rewrite Ht;
     rewrite (four_ticks e Ho); unfold lift;
     now destruct (multiselect (columns t) (valid_defaults (columns t)) E)).
Qed.

Lemma multiselect_accepts options default selected :
  (forall d, In d default -> In d options) ->
  multiselect options default selected = Ok selected.
Proof. intros H. unfold multiselect. now rewrite (proj2 (find_absent_None _ _) H). Qed.

Lemma multiselect_refuses options default selected d :
  In d default -> ~ In d options ->
  exists m, multiselect options default selected = Err (StreamlitAPIException m).
Proof.
  intros Hd Hno. unfold multiselect.
  destruct (List.find _ default) as [c|] eqn:E; [eauto|].
  exfalso. apply Hno. now apply (proj1 (find_absent_None _ _) E).
Qed.

(** The Merge button shows the text of the run, and a run fails. *)
Lemma merge_button_text sch src tgt tcols K E e e' msg :
  buttons sch src tgt tcols K E (Some Merge_Button) e = (e', Ok (Some (Success msg))) ->
  exists x, msg = "Merge failed: " +:+ str_exn x.
Proof.
  unfold buttons, run_merge_process.
  destruct (merge_steps sch src tgt K E e) as [e1 [m|x]] eqn:H.
  - now apply run_never_completes in H.
  - destruct (shown_as_success _); intros [= _ <-]. now exists x.
Qed.

Lemma main_merge_text ui e e' msg :
  clicked ui = Some Merge_Button ->
  main schemata table_names ui e = (e', Ok (Some (Success msg))) ->
  exists x, msg = "Merge failed: " +:+ str_exn x.
Proof.
  intros Hb. unfold main. cbv [mbind M_bind mret M_ret if_selected]. rewrite Hb.
  destruct (get_schemas schemata e) as [e1 [schemas|x]]; [|discriminate].
  destruct (selected_schema ui) as [[|a1 sch]|]; [discriminate| |discriminate].
  destruct (get_tables table_names _ e1) as [e2 [tbls|x]]; [|discriminate].
  destruct (source_table ui) as [[|a2 src]|]; [discriminate| |discriminate].
  destruct (target_table ui) as [[|a3 tgt]|]; [discriminate| |discriminate].
  destruct (get_column_names _ _ e2) as [e3 [scols|x]]; [|discriminate].
  destruct (get_column_names _ _ e3) as [e4 [tcols|x]]; [|discriminate].
  unfold lift. destruct (multiselect tcols _ _) as [E'|x]; [|discriminate].
  apply merge_button_text.
Qed.

End Main.

(** ** The proposed exclusions *)

Lemma valid_defaults_lowered tcols c :
  In c (map Str.lower tcols) ->
  Str.mem c (map Str.lower (valid_defaults tcols))
  = Str.mem c (map Str.lower default_exclude).
Proof.
  intros Hc. apply eq_true_iff_eq. rewrite !mem_In. unfold valid_defaults.
  rewrite !in_map_iff. split.
  - intros (d & <- & Hd). apply filter_In in Hd as [Hd _]. eauto.
  - intros (d & <- & Hd). exists d. split; [reflexivity|]. apply filter_In.
    split; [assumption|]. apply orb_true_iff. right. now apply mem_In.
Qed.

Lemma filter_exclusions (inT : string -> bool) K' E' st (l : list string) :
  (forall c, inT c = true -> Str.mem c E' = Str.mem c st) ->
  List.filter inT (List.filter (fun col => negb (Str.mem col (K' ++ E'))) l)
  = List.filter (fun f => negb (Str.mem f st))
      (List.filter inT (List.filter (fun col => negb (Str.mem col (K' ++ []))) l)).
Proof.
  intros H. induction l as [|c l IH]; [reflexivity|].
  rewrite List.app_nil_r in *. simpl.
  assert (Happ : Str.mem c (K' ++ E') = Str.mem c K' || Str.mem c E')
    by (unfold Str.mem; apply existsb_app).
  rewrite Happ. clear Happ.
  destruct (inT c) eqn:Ein.
  - rewrite (H c Ein).
    destruct (Str.mem c K'), (Str.mem c st) eqn:Est; simpl; rewrite ?Ein; simpl;
      rewrite ?Est; simpl; rewrite IH; reflexivity.
  - destruct (Str.mem c K'), (Str.mem c E'); simpl; rewrite ?Ein; simpl;
      rewrite IH; reflexivity.
Qed.

(** ** Texts *)

Lemma lower_app a b : Str.lower (a +:+ b) = Str.lower a +:+ Str.lower b.
Proof.
  induction a as [|c a IH]; [reflexivity|].
  change (String (Str.lower_ascii c) (Str.lower (a +:+ b))
          = String (Str.lower_ascii c) (Str.lower a +:+ Str.lower b)).
  now rewrite IH.
Qed.

Lemma append_assoc' a b c : (a +:+ b) +:+ c = a +:+ (b +:+ c).
Proof.
  induction a as [|x a IH]; [reflexivity|].
  change (String x ((a +:+ b) +:+ c) = String x (a +:+ (b +:+ c))). now rewrite IH.
Qed.

End PageFacts.

Module PageTheorems.
Import Pd Classifier Classes Sql Merge Names RunParts Page.
Import Facts MergeFacts ClassifierFacts ClassifierTheorems SqlFacts RunFacts.
Import NameFacts EffectFacts PageFacts.

(** X17.  [store_user_selections] never replaces a selection: what the
    session state holds stays, and a second call, with whatever values,
    changes nothing. *)
Theorem store_user_selections_keeps_the_first a b c a' b' c' (st : session_state) :
  (forall k v, st !! k = Some v -> store_user_selections a b c st !! k = Some v)
  /\ store_user_selections a' b' c' (store_user_selections a b c st)
     = store_user_selections a b c st.
Proof.
  split.
  - intros k v H. unfold store_user_selections. rewrite !setdefault_lookup. now rewrite H.
  - apply map_eq. intros k. unfold store_user_selections. rewrite !setdefault_lookup.
    destruct (st !! k) as [v|]; [reflexivity|].
    destruct (decide (k = "selected_schema")) as [->|]; [reflexivity|].
    destruct (decide (k = "source_table")) as [->|]; [reflexivity|].
    destruct (decide (k = "target_table")) as [->|]; reflexivity.
Qed.

(** X18.  On a page whose second multiselect is built (every proposed
    default is a column of the target), with names that can be quoted and
    keys that both tables have and whose cells are all integers or all
    strings, the button "Find New
    Records" is reached after four queries, reads the whole source and
    the key columns of the target, and shows, under the labels of the
    source, the source rows whose key tuple is that of no target row,
    with their number, or the message that there is none. *)
Theorem find_new_button_shows_unmatched_source_rows
    schemata table_names e sch src tgt K E s t :
  outage e = None ->
  sch <> EmptyString -> src <> EmptyString -> tgt <> EmptyString ->
  Forall (fun name => quotable name = true) (sch :: src :: tgt :: K) ->
  tables (db e) !! (sch, src) = Some s ->
  tables (db e) !! (sch, tgt) = Some t ->
  (forall c, In c (valid_defaults (columns t)) -> In c (columns t)) ->
  wf_frame s -> free_of_indicator s ->
  K <> [] -> List.NoDup K ->
  (forall k, In k K -> In k (columns s) /\ In k (columns t)) ->
  keys_of_one_kind s t K ->
  main schemata table_names
       (mkWidgets (Some sch) (Some src) (Some tgt) K E (Some Find_New_Records)) e
  = (mkEngine (db e) (6 + sent e) None,
     Ok (Some (report (mkDF (columns s) (List.filter (unmatched s t K) (rows s)))
                      "No new records found."))).
Proof.
  intros Ho Hsch Hsrc Htgt _ Hs Ht Hdef [Hnd Hrect] Hfree HK HndK Hcols _.
  rewrite (main_multiselect _ _ _ _ _ _ _ _ _ t Ho Hsch Hsrc Htgt Ht).
  rewrite (multiselect_accepts _ _ _ Hdef).
  unfold buttons. cbv [mbind M_bind mret M_ret].
  set (e4 := mkEngine (db e) (4 + sent e) None).
  assert (Ho4 : outage e4 = None) by reflexivity.
  rewrite (fetch_table_data_answered _ _ _ _ _ s (answer_healthy e4 Ho4) Hs).
  rewrite (fetch_table_data_answered _ _ _ _ _ t
             (answer_healthy (tick e4 (db e4)) Ho4) Ht).
  rewrite select_quoted_pass by (intros k Hk; now apply Hcols).
  unfold lift. set (tk := mkDF K _).
  destruct (find_new_records_returns s tk K) as [N HN]; try assumption.
  - intros k Hk. split; [now apply Hcols | exact Hk].
  - intros c Hc Hin. apply (Hfree c Hc). now apply Hcols.
  - now apply suffix_clash_keys_only.
  - rewrite HN. apply new_spec in HN as [_ ->]; [|assumption].
    unfold tk. rewrite left_labels_keys_only, right_labels_keys_only, rest_labels_keys.
    simpl map at 1. rewrite List.app_nil_r, map_app_nil.
    rewrite (List.filter_ext _ (unmatched s t K)) by (intros r; apply unmatched_select).
    reflexivity.
Qed.

(** X19.  On a page whose second multiselect is built, with names that can
    be quoted and keys that both tables have and whose cells are all
    integers or all strings, the button "Find Deleted Records" is reached after four queries, reads
    the whole target and the key columns of the source, and shows, under
    the labels of the target, the target rows whose status cell is not
    the string "0" (every row when the target has no status column) and
    whose key tuple is that of no source row, with their number, or the
    message that there is none. *)
Theorem find_deleted_button_shows_active_unmatched_rows
    schemata table_names e sch src tgt K E s t :
  outage e = None ->
  sch <> EmptyString -> src <> EmptyString -> tgt <> EmptyString ->
  Forall (fun name => quotable name = true) (sch :: src :: tgt :: K) ->
  tables (db e) !! (sch, src) = Some s ->
  tables (db e) !! (sch, tgt) = Some t ->
  (forall c, In c (valid_defaults (columns t)) -> In c (columns t)) ->
  wf_frame t -> free_of_indicator t ->
  K <> [] -> List.NoDup K ->
  (forall k, In k K -> In k (columns s) /\ In k (columns t)) ->
  keys_of_one_kind t s K ->
  let kept r :=
    match status_col t with
    | Some sc => negb (value_eqb (cell (columns t) r sc) (VStr "0"))
    | None => true
    end in
  main schemata table_names
       (mkWidgets (Some sch) (Some src) (Some tgt) K E (Some Find_Deleted_Records)) e
  = (mkEngine (db e) (6 + sent e) None,
     Ok (Some (report (mkDF (columns t)
                            (List.filter (fun r => kept r && unmatched t s K r) (rows t)))
                      "No deleted records found."))).
Proof.
  intros Ho Hsch Hsrc Htgt _ Hs Ht Hdef Hwf Hfree HK HndK Hcols _ kept.
  rewrite (main_multiselect _ _ _ _ _ _ _ _ _ t Ho Hsch Hsrc Htgt Ht).
  rewrite (multiselect_accepts _ _ _ Hdef).
  unfold buttons. cbv [mbind M_bind mret M_ret].
  set (e4 := mkEngine (db e) (4 + sent e) None).
  assert (Ho4 : outage e4 = None) by reflexivity.
  rewrite (fetch_table_data_answered _ _ _ _ _ t (answer_healthy e4 Ho4) Ht).
  rewrite (fetch_table_data_answered _ _ _ _ _ s
             (answer_healthy (tick e4 (db e4)) Ho4) Hs).
  rewrite select_quoted_pass by (intros k Hk; now apply Hcols).
  unfold lift. set (sk := mkDF K _).
  rewrite (find_deleted_records_rows sk t K); try assumption.
  - rewrite (List.filter_ext _ (fun r => kept r && unmatched t s K r)); [reflexivity|].
    intros r. unfold sk. rewrite unmatched_select. f_equal.
    unfold is_active, kept. destruct (status_col t); [apply ne_string | reflexivity].
  - intros k Hk. split; [exact Hk | now apply Hcols].
Qed.

(** X20.  Whatever the button "Merge" writes in the success box is the
    text of a failed run: "Merge failed: " followed by the text of an
    exception, and never the success message of [run_merge_process]. *)
Theorem merge_button_success_is_a_failure schemata table_names ui e e' msg :
  clicked ui = Some Merge_Button ->
  main schemata table_names ui e = (e', Ok (Some (Success msg))) ->
  (exists x, msg = "Merge failed: " +:+ str_exn x) /\ msg <> completed.
Proof.
  intros Hb H. destruct (main_merge_text _ _ _ _ _ _ Hb H) as (x & ->).
  split; [now exists x | apply failed_is_not_completed].
Qed.

(** X21.  The exclusions the page proposes are the upper-case names of the
    stamp columns the target has in some case.  When one of them is not a
    column of the target as it is spelled, the second multiselect raises
    after four queries, whatever is clicked, and no button is reached.
    Passed to [find_changed_records], the proposed exclusions take the
    four stamp columns, and nothing else, out of the compared fields. *)
Theorem default_exclusions_cover_stamp_columns :
  (forall schemata table_names e sch src tgt K E b t d,
     outage e = None ->
     sch <> EmptyString -> src <> EmptyString -> tgt <> EmptyString ->
     tables (db e) !! (sch, tgt) = Some t ->
     In d (valid_defaults (columns t)) -> ~ In d (columns t) ->
     exists m,
       main schemata table_names (mkWidgets (Some sch) (Some src) (Some tgt) K E b) e
       = (mkEngine (db e) (4 + sent e) None, Err (StreamlitAPIException m)))
  /\ (forall S T K,
        compare_fields S T K (valid_defaults (columns T))
        = List.filter
            (fun f => negb (Str.mem f ["status"; "effective_start_date";
                                       "effective_end_date"; "version_id"]))
            (compare_fields S T K [])).
Proof.
  split.
  - intros schemata table_names e sch src tgt K E b t d Ho Hsch Hsrc Htgt Ht Hd Hno.
    rewrite (main_multiselect _ _ _ _ _ _ _ _ _ t Ho Hsch Hsrc Htgt Ht).
    destruct (multiselect_refuses (columns t) _ E d Hd Hno) as (m & ->). now exists m.
  - intros S T K. unfold compare_fields, compare_fields_of.
    apply (filter_exclusions _ _ _ (map Str.lower default_exclude)). intros c Hc.
    apply valid_defaults_lowered. apply mem_In in Hc. exact Hc.
Qed.

End PageTheorems.

(** ** The summary of the viewer *)

Module ViewerFacts.
Import Pd Sql Merge Names Viewer.
Import Facts ClassifierFacts ClassifierTheorems RunFacts NameFacts EffectFacts.

Lemma quoted_inj a b : quoted a = quoted b -> a = b.
Proof.
  unfold quoted. rewrite !dquote_cons. intros H. injection H as H.
  now apply append_inj in H.
Qed.

Lemma mem_quoted c cols : Str.mem (quoted c) (map quoted cols) = Str.mem c cols.
Proof.
  destruct (Str.mem c cols) eqn:E.
  - apply mem_In. apply in_map. now apply mem_In.
  - apply mem_false. apply mem_false in E. intros H. apply E.
    apply in_map_iff in H as (c' & Hq & Hin). apply quoted_inj in Hq. now subst.
Qed.

Lemma filter_map_quoted cols req :
  List.filter (fun col => negb (Str.mem col (map quoted cols))) (map quoted req)
  = map quoted (List.filter (fun c => negb (Str.mem c cols)) req).
Proof.
  induction req as [|c req IH]; simpl; [reflexivity|].
  rewrite mem_quoted, IH. now destruct (Str.mem c cols).
Qed.

End ViewerFacts.

Module ViewerTheorems.
Import Pd Sql Merge Names Viewer.
Import Facts ClassifierFacts ClassifierTheorems RunFacts NameFacts EffectFacts ViewerFacts.

(** X22.  [generate_summary] answers with the one-row frame "Missing
    required columns: ..." that names, in order and between quotes, the
    required columns the table does not have in upper case, and it does
    not query the table then; a table that is not there misses all four.
    When none is missing it returns the five columns of the grouping
    query. *)
Theorem generate_summary_reports_missing_columns grouped e sch tbl :
  answer e = None ->
  let cols := match tables (db e) !! (sch, tbl) with
              | Some t => columns t
              | None => []
              end in
  let missing :=
    List.filter (fun c => negb (Str.mem c cols))
                ["STATUS"; "EFFECTIVE_START_DATE"; "EFFECTIVE_END_DATE"; "VERSION_ID"] in
  (missing <> [] ->
   generate_summary grouped sch tbl e
   = (tick e (db e),
      Ok (mkDF ["Error"]
               [[VStr ("Missing required columns: "
                       +:+ String.concat ", " (map quoted missing))]])))
  /\ (missing = [] -> answer (tick e (db e)) = None ->
      exists t, tables (db e) !! (sch, tbl) = Some t
        /\ generate_summary grouped sch tbl e
           = (tick (tick e (db e)) (db e),
              Ok (mkDF ["STATUS"; "EFFECTIVE_START_DATE"; "EFFECTIVE_END_DATE"; "VERSION_ID";
                        "count_of_records"] (grouped t)))).
Proof.
  intros Ha cols missing.
  assert (Hcols : match tables (db e) !! (sch, tbl) with
                  | Some t => Ok (columns t)
                  | None => Ok []
                  end = Ok cols).
  { unfold cols. now destruct (tables (db e) !! (sch, tbl)). }
  split.
  - intros Hmiss.
    unfold generate_summary, get_column_names. cbv [mbind M_bind mret M_ret].
    rewrite (read_sql_answered _ e Ha). unfold information_schema_columns.
    rewrite Hcols. unfold required_cols. rewrite filter_map_quoted. fold missing.
    destruct missing as [|m ms]; [contradiction|]. reflexivity.
  - intros Hmiss Ha'.
    destruct (tables (db e) !! (sch, tbl)) as [t|] eqn:Ht; [|discriminate].
    exists t. split; [reflexivity|].
    unfold generate_summary, get_column_names. cbv [mbind M_bind mret M_ret].
    rewrite (read_sql_answered _ e Ha). unfold information_schema_columns.
    rewrite Ht. unfold required_cols. rewrite filter_map_quoted. fold cols. fold missing.
    rewrite Hmiss. change (map quoted []) with (@nil string). cbv iota.
    rewrite (read_sql_answered _ _ Ha'). simpl db. unfold relation. now rewrite Ht.
Qed.

End ViewerTheorems.

(** ** Saved column mappings *)

Module MappingFacts.
Import Pd Sql Merge Names Mapping.
Import Facts ClassifierFacts ClassifierTheorems SqlFacts RunFacts.
Import NameFacts EffectFacts SelectionFacts.

Lemma value_eqb_sym a b : value_eqb a b = value_eqb b a.
Proof.
  destruct a, b; simpl; try reflexivity; [apply Z.eqb_sym | apply String.eqb_sym].
Qed.

Lemma value_eqb_refl a : value_eqb a a = true.
Proof. now apply value_eqb_eq. Qed.

Lemma holds_sql_eq_str v x : holds (sql_eq v (VStr x)) = value_eqb v (VStr x).
Proof. rewrite holds_sql_eq. now destruct v. Qed.

Lemma matching_key4 tcols sch src tgt c r :
  matching tcols sch src tgt c r = true
  <-> key4 tcols r = [VStr sch; VStr src; VStr tgt; VStr c].
Proof.
  unfold matching, of_tables, key4. rewrite !holds_and, !holds_sql_eq_str. simpl map.
  rewrite !andb_true_iff, !value_eqb_eq. split.
  - intros [[[-> ->] ->] ->]. reflexivity.
  - intros [= -> -> -> ->]. repeat split.
Qed.

Lemma hit_bool tcols a b c sc tc r :
  hit tcols [a; b; c; sc; tc] r
  = holds (sql_eq a (cell tcols r "schema_name"))
    && (holds (sql_eq b (cell tcols r "source_table"))
        && (holds (sql_eq c (cell tcols r "target_table"))
            && (holds (sql_eq sc (cell tcols r "source_column")) && true))).
Proof. unfold hit. rewrite holds_on_keys. reflexivity. Qed.

Lemma hit_key4 tcols sch src tgt sc tc r :
  hit tcols [VStr sch; VStr src; VStr tgt; sc; tc] r = true
  <-> key4 tcols r = [VStr sch; VStr src; VStr tgt; sc] /\ is_null sc = false.
Proof.
  rewrite hit_bool, !holds_sql_eq, andb_true_r. cbn [is_null negb andb].
  rewrite !andb_true_iff, !value_eqb_eq, negb_true_iff.
  unfold key4, key_columns. cbn [map]. split.
  - intros (<- & <- & <- & Hn & <-). now split.
  - intros [[= <- <- <- <-] Hn]. repeat split. exact Hn.
Qed.

Lemma hit_matching tcols sch src tgt c tc r :
  hit tcols [VStr sch; VStr src; VStr tgt; VStr c; tc] r = matching tcols sch src tgt c r.
Proof.
  apply eq_true_iff_eq. rewrite hit_key4, matching_key4. split; [tauto | now split].
Qed.

Lemma saved_target_filter tcols sch src tgt c rs :
  saved_target tcols sch src tgt c rs
  = match rev (List.filter (matching tcols sch src tgt c) rs) with
    | r :: _ => Some (cell tcols r "target_column")
    | [] => None
    end.
Proof. reflexivity. Qed.

Lemma key4_set_target tcols r v : key4 tcols (set_cell tcols r "target_column" v) = key4 tcols r.
Proof.
  unfold key4, key_columns. simpl map. now rewrite !cell_set_other by discriminate.
Qed.

Lemma matching_ext tcols sch src tgt c r r' :
  key4 tcols r = key4 tcols r' ->
  matching tcols sch src tgt c r = matching tcols sch src tgt c r'.
Proof.
  intros H. apply eq_true_iff_eq. rewrite !matching_key4. now rewrite H.
Qed.

Lemma filter_map_commute {A} (p : A -> bool) (f : A -> A) l :
  (forall x, p (f x) = p x) -> List.filter p (map f l) = map f (List.filter p l).
Proof.
  intros H. induction l as [|x l IH]; simpl; [reflexivity|].
  rewrite H, IH. now destruct (p x).
Qed.

Lemma map_id_on {A} (f : A -> A) l : (forall x, In x l -> f x = x) -> map f l = l.
Proof.
  induction l as [|x l IH]; simpl; intros H; [reflexivity|].
  rewrite H by now left. f_equal. apply IH. intros y Hy. apply H. now right.
Qed.

Lemma filter_app' {A} (p : A -> bool) l1 l2 :
  List.filter p (l1 ++ l2) = List.filter p l1 ++ List.filter p l2.
Proof. induction l1 as [|x l1 IH]; simpl; [reflexivity|]. rewrite IH. now destruct (p x). Qed.

Lemma key4_inserted tcols vals :
  (forall k, In k mapping_columns -> In k tcols) ->
  key4 tcols (inserted_row tcols mapping_columns vals)
  = map (cell mapping_columns vals) key_columns.
Proof.
  intros H. unfold key4, inserted_row. apply map_ext_in. intros k Hk.
  apply cell_map. apply H. unfold mapping_columns. apply in_or_app. now left.
Qed.

(** One upsert: the row of its key holds the new target, and no other key
    sees a change. *)
Lemma upsert_mapping_spec d tcols rs sch src tgt sc tc d' :
  tables d !! mapping_table = Some (mkDF tcols rs) ->
  Forall (fun r => length r = length tcols) rs ->
  upsert_mapping [VStr sch; VStr src; VStr tgt; sc; tc] d = Ok d' ->
  exists rs',
    d' = set_tables d (<[mapping_table := mkDF tcols rs']> (tables d))
    /\ Forall (fun r => length r = length tcols) rs'
    /\ (forall c, sc = VStr c -> saved_target tcols sch src tgt c rs' = Some tc)
    /\ (forall sch' src' tgt' c',
          [VStr sch'; VStr src'; VStr tgt'; VStr c'] <> [VStr sch; VStr src; VStr tgt; sc] ->
          saved_target tcols sch' src' tgt' c' rs' = saved_target tcols sch' src' tgt' c' rs).
Proof.
  intros Ht Hrect Hup. unfold upsert_mapping, relation in Hup.
  change ("table_registry", "column_mapping") with mapping_table in Hup. rewrite Ht in Hup.
  cbn [mbind result_bind columns rows] in Hup.
  destruct (mapM _ mapping_columns) as [named|] eqn:Hnamed; [|discriminate].
  cbn [mbind result_bind] in Hup.
  assert (Hcols : forall k, In k mapping_columns -> In k tcols).
  { intros k Hk. destruct (mapM_Ok_In _ _ _ k Hnamed Hk) as [y Hy].
    unfold mapping_columns, key_columns in Hk. simpl in Hk.
    destruct Hk as [<-|[<-|[<-|[<-|[<-|[]]]]]];
      exact (column_of_own _ _ _ _ Hy eq_refl). }
  assert (Htc : In "target_column" tcols).
  { apply Hcols. unfold mapping_columns. apply in_or_app. right. now left. }
  set (vals := [VStr sch; VStr src; VStr tgt; sc; tc]) in *.
  fold (hit tcols vals) in Hup.
  change (cell mapping_columns vals "target_column") with tc in Hup.
  injection Hup as <-.
  destruct (existsb (hit tcols vals) rs) eqn:Hex.
  - (* a row of this key is there: it takes the new target *)
    set (f := fun r => if hit tcols vals r then set_cell tcols r "target_column" tc else r).
    exists (map f rs). split; [reflexivity|]. split; [|split].
    + apply List.Forall_forall. intros r' Hr'. apply in_map_iff in Hr' as (r & <- & Hr).
      rewrite List.Forall_forall in Hrect. unfold f.
      destruct (hit tcols vals r); [rewrite length_set_cell|]; now apply Hrect.
    + intros c ->. rewrite saved_target_filter.
      rewrite filter_map_commute.
      2:{ intros r. apply matching_ext. unfold f.
          destruct (hit _ _ r); [apply key4_set_target | reflexivity]. }
      rewrite <- map_rev.
      apply existsb_exists in Hex as (r0 & Hr0 & Hhit0).
      assert (Hin0 : In r0 (rev (List.filter (matching tcols sch src tgt c) rs))).
      { apply in_rev. rewrite rev_involutive. apply filter_In. split; [assumption|].
        now rewrite <- (hit_matching tcols sch src tgt c tc). }
      destruct (rev (List.filter (matching tcols sch src tgt c) rs)) as [|r l] eqn:El;
        [contradiction|].
      simpl. f_equal.
      assert (Hr : In r (List.filter (matching tcols sch src tgt c) rs)).
      { apply in_rev. rewrite El. now left. }
      apply filter_In in Hr as [Hr Hm]. rewrite <- (hit_matching _ _ _ _ _ tc) in Hm.
      unfold f. fold vals in Hm. rewrite Hm. apply cell_set_same; [assumption|].
      rewrite List.Forall_forall in Hrect. now apply Hrect.
    + intros sch' src' tgt' c' Hne. rewrite !saved_target_filter.
      rewrite filter_map_commute.
      2:{ intros r. apply matching_ext. unfold f.
          destruct (hit _ _ r); [apply key4_set_target | reflexivity]. }
      rewrite map_id_on; [reflexivity|].
      intros r Hr. apply filter_In in Hr as [_ Hm]. unfold f.
      destruct (hit tcols vals r) eqn:Hh; [|reflexivity].
      exfalso. apply Hne. apply matching_key4 in Hm. apply hit_key4 in Hh as [Hh _].
      congruence.
  - (* no row of this key: one is added *)
    set (new := inserted_row tcols mapping_columns vals).
    assert (Hknew : key4 tcols new = [VStr sch; VStr src; VStr tgt; sc])
      by (unfold new; now rewrite key4_inserted).
    exists (rs ++ [new]). split; [reflexivity|]. split; [|split].
    + apply Forall_app. split; [assumption|]. constructor; [|constructor].
      unfold new, inserted_row. apply length_map.
    + intros c ->. rewrite saved_target_filter, filter_app'. simpl List.filter.
      assert (matching tcols sch src tgt c new = true) as -> by now apply matching_key4.
      rewrite rev_app_distr. simpl. f_equal. unfold new, inserted_row.
      now rewrite cell_map.
    + intros sch' src' tgt' c' Hne. rewrite !saved_target_filter, filter_app'. simpl List.filter.
      assert (matching tcols sch' src' tgt' c' new = false) as ->.
      { apply not_true_iff_false. intros Hm. apply matching_key4 in Hm. congruence. }
      now rewrite List.app_nil_r.
Qed.

Lemma upsert_mapping_returns d t vals :
  tables d !! mapping_table = Some t ->
  (forall k, In k mapping_columns -> In k (columns t)) ->
  exists d', upsert_mapping vals d = Ok d'.
Proof.
  intros Ht Hcols. unfold upsert_mapping, relation.
  change ("table_registry", "column_mapping") with mapping_table. rewrite Ht.
  cbn [mbind result_bind]. rewrite mapM_column_of.
  - cbn [mbind result_bind]. eauto.
  - intros k Hk. unfold mapping_columns, key_columns in Hk. simpl in Hk.
    destruct Hk as [<-|[<-|[<-|[<-|[<-|[]]]]]]; apply Hcols; simpl; tauto.
Qed.

Lemma execute_with_state q e e' r :
  execute_with q e = (e', r) ->
  outage e' = outage e
  /\ match r with
     | Ok _ => q (db e) = Ok (db e')
     | Err _ => db e' = db e
     end.
Proof.
  unfold execute_with. destruct (answer e) as [msg|].
  - intros [= <- <-]. now split.
  - destruct (q (db e)) as [d|x]; intros [= <- <-]; now split.
Qed.

Section Saving.
Variables (sch src tgt : string) (mapping_df : DataFrame).

Local Abbreviation body := (save_row sch src tgt mapping_df).
Local Abbreviation src_of := (source_of mapping_df).
Local Abbreviation tgt_of := (target_of mapping_df).

Lemma save_column_mapping_loop :
  save_column_mapping sch src tgt mapping_df = begin (for_each (rows mapping_df) body).
Proof. reflexivity. Qed.

Lemma save_row_Ok row e e' :
  body row e = (e', Ok tt) ->
  outage e' = outage e
  /\ upsert_mapping [VStr sch; VStr src; VStr tgt; src_of row; tgt_of row] (db e)
     = Ok (db e').
Proof.
  unfold save_row, lift, row_item. cbv [mbind M_bind].
  destruct (Str.mem "source_column" (columns mapping_df)); [|discriminate].
  destruct (Str.mem "target_column" (columns mapping_df)); [|discriminate].
  intros H. now apply execute_with_state in H.
Qed.

(** What the loop has saved when it returns. *)
Lemma for_each_saved rws : forall e e' tcols rs,
  for_each rws body e = (e', Ok tt) ->
  tables (db e) !! mapping_table = Some (mkDF tcols rs) ->
  Forall (fun r => length r = length tcols) rs ->
  outage e' = outage e
  /\ quarter_detail (db e') = quarter_detail (db e)
  /\ (forall k, k <> mapping_table -> tables (db e') !! k = tables (db e) !! k)
  /\ exists rs',
       tables (db e') !! mapping_table = Some (mkDF tcols rs')
       /\ Forall (fun r => length r = length tcols) rs'
       /\ (forall pre row post c,
             rws = pre ++ row :: post -> src_of row = VStr c ->
             (forall r, In r post -> src_of r <> VStr c) ->
             saved_target tcols sch src tgt c rs' = Some (tgt_of row))
       /\ (forall sch' src' tgt' c',
             (forall row, In row rws ->
                [VStr sch'; VStr src'; VStr tgt'; VStr c']
                <> [VStr sch; VStr src; VStr tgt; src_of row]) ->
             saved_target tcols sch' src' tgt' c' rs' = saved_target tcols sch' src' tgt' c' rs).
Proof.
  induction rws as [|row rws IH]; intros e e' tcols rs H Ht Hrect.
  - simpl in H. injection H as <-. repeat split. exists rs. repeat split; try assumption.
    intros pre row post c Hnil. now destruct pre.
  - simpl in H. cbv [mbind M_bind] in H.
    destruct (body row e) as [e1 [[]|x]] eqn:Hrow; [|discriminate].
    apply save_row_Ok in Hrow as [Ho1 Hup].
    destruct (upsert_mapping_spec _ _ _ _ _ _ _ _ _ Ht Hrect Hup)
      as (rs1 & Hd1 & Hrect1 & Hsame & Hother).
    assert (Ht1 : tables (db e1) !! mapping_table = Some (mkDF tcols rs1)).
    { rewrite Hd1. simpl. apply lookup_insert_eq. }
    destruct (IH e1 e' tcols rs1 H Ht1 Hrect1) as (Ho & Hq & Hk & rs' & Ht' & Hrect' & Hlast & Hrest).
    split; [congruence|]. split; [rewrite Hq, Hd1; reflexivity|]. split.
    { intros k Hne. rewrite (Hk k Hne), Hd1. simpl. now rewrite lookup_insert_ne. }
    exists rs'. split; [assumption|]. split; [assumption|]. split.
    + intros pre row0 post c Hsplit Hsrc Hpost. destruct pre as [|p pre].
      * injection Hsplit as <- <-. rewrite Hrest.
        -- now apply Hsame.
        -- intros r Hr [= Hc]. now apply (Hpost r Hr).
      * injection Hsplit as <- ->. now apply (Hlast pre row0 post c).
    + intros sch' src' tgt' c' Hne. rewrite Hrest.
      * apply Hother. apply Hne. now left.
      * intros r Hr. apply Hne. now right.
Qed.

(** The loop returns on a store that answers, when the frame has the two
    labels and the table the five columns. *)
Lemma for_each_returns rws : forall e t,
  outage e = None ->
  tables (db e) !! mapping_table = Some t ->
  (forall k, In k mapping_columns -> In k (columns t)) ->
  In "source_column" (columns mapping_df) -> In "target_column" (columns mapping_df) ->
  exists e', for_each rws body e = (e', Ok tt).
Proof.
  induction rws as [|row rws IH]; intros e t Ho Ht Hcols Hs Htg; [eexists; reflexivity|].
  simpl. cbv [mbind M_bind].
  destruct (upsert_mapping_returns (db e) t
              [VStr sch; VStr src; VStr tgt; src_of row; tgt_of row] Ht Hcols) as [d' Hd'].
  assert (Hrow : body row e = (tick e d', Ok tt)).
  { unfold save_row, lift, row_item. cbv [mbind M_bind].
    apply mem_In in Hs, Htg. rewrite Hs, Htg. unfold execute_with.
    rewrite (answer_healthy e Ho). fold (source_of mapping_df row) (target_of mapping_df row). now rewrite Hd'. }
  rewrite Hrow.
  pose proof Hd' as Hup. unfold upsert_mapping, relation in Hup.
  change ("table_registry", "column_mapping") with mapping_table in Hup. rewrite Ht in Hup.
  cbn [mbind result_bind] in Hup.
  destruct (mapM _ mapping_columns); [|discriminate]. cbn [mbind result_bind] in Hup.
  injection Hup as <-.
  eapply (IH (tick e _) _ Ho); [simpl; apply lookup_insert_eq | exact Hcols | assumption..].
Qed.

End Saving.

(** ** The dict of the saved mappings *)

Lemma vdict_get_set d k v k' default :
  vdict_get (vdict_set d k v) k' default
  = if value_eqb k k' then v else vdict_get d k' default.
Proof.
  induction d as [|[k1 v1] d IH]; simpl.
  - reflexivity.
  - destruct (value_eqb k1 k) eqn:E1; simpl.
    + apply value_eqb_eq in E1. subst k1. now destruct (value_eqb k k').
    + destruct (value_eqb k1 k') eqn:E2.
      * apply value_eqb_eq in E2. subst k1. now rewrite value_eqb_sym, E1.
      * exact IH.
Qed.

Lemma vdict_fold_get ps : forall d k default,
  vdict_get (fold_left (fun d p => vdict_set d (fst p) (snd p)) ps d) k default
  = match List.find (fun p => value_eqb (fst p) k) (rev ps) with
    | Some p => snd p
    | None => vdict_get d k default
    end.
Proof.
  induction ps as [|p ps IH]; intros d k default; simpl; [reflexivity|].
  rewrite IH, find_app'. destruct (List.find _ (rev ps)); [reflexivity|].
  simpl. rewrite vdict_get_set. now destruct (value_eqb (fst p) k).
Qed.

Lemma find_rev_filter {A} (p : A -> bool) l :
  List.find p (rev l) = match rev (List.filter p l) with x :: _ => Some x | [] => None end.
Proof.
  induction l as [|x l IH]; simpl; [reflexivity|].
  rewrite find_app', IH. destruct (p x) eqn:E; simpl.
  - rewrite rev_app_distr || idtac.
    destruct (rev (List.filter p l)) as [|y l'] eqn:El; simpl; [now rewrite E | reflexivity].
  - destruct (rev (List.filter p l)); [now rewrite E | reflexivity].
Qed.

Lemma find_map' {A B} (p : B -> bool) (f : A -> B) l :
  List.find p (map f l) = option_map f (List.find (fun x => p (f x)) l).
Proof. induction l as [|x l IH]; simpl; [reflexivity|]. now destruct (p (f x)). Qed.

(** The dict the page builds from the loaded rows answers with the target
    saved last. *)
Lemma saved_mapping_dict_get tcols sch src tgt rs c default :
  let L := mkDF ["source_column"; "target_column"]
                (map (fun r => [cell tcols r "source_column"; cell tcols r "target_column"])
                     (List.filter (of_tables tcols sch src tgt) rs)) in
  exists sd, saved_mapping_dict L = Ok sd
    /\ vdict_get sd (VStr c) default
       = match saved_target tcols sch src tgt c rs with
         | Some v => v
         | None => default
         end.
Proof.
  intros L. unfold saved_mapping_dict, saved_target.
  rewrite <- filter_filter'.
  set (rs3 := List.filter (of_tables tcols sch src tgt) rs) in *.
  destruct (Page.empty L) eqn:Eempty; simpl negb; cbv iota.
  - exists []. split; [reflexivity|].
    unfold Page.empty, L in Eempty. simpl in Eempty.
    destruct rs3; [reflexivity | discriminate].
  - unfold getitem. simpl Str.mem. cbv iota. cbn [mbind result_bind].
    eexists. split; [reflexivity|]. unfold L. simpl rows. simpl columns.
    rewrite !map_map. simpl cell. rewrite combine_map, vdict_fold_get. simpl vdict_get.
    rewrite <- map_rev, find_map'. simpl fst.
    rewrite find_rev_filter.
    now destruct (rev (List.filter _ rs3)).
Qed.

Lemma load_saved_mappings_answered sch src tgt e t :
  answer e = None ->
  tables (db e) !! mapping_table = Some t ->
  (forall k, In k mapping_columns -> In k (columns t)) ->
  load_saved_mappings sch src tgt e
  = (tick e (db e),
     Ok (mkDF ["source_column"; "target_column"]
              (map (fun r => [cell (columns t) r "source_column";
                              cell (columns t) r "target_column"])
                   (List.filter (of_tables (columns t) sch src tgt) (rows t))))).
Proof.
  intros Ha Ht Hcols. unfold load_saved_mappings, begin.
  rewrite (read_sql_answered _ e Ha). unfold relation.
  change ("table_registry", "column_mapping") with mapping_table. rewrite Ht.
  cbn [mbind result_bind]. rewrite mapM_column_of; [reflexivity|].
  intros k Hk. unfold mapping_columns, key_columns in Hk. simpl in Hk.
  destruct Hk as [<-|[<-|[<-|[<-|[<-|[]]]]]]; apply Hcols; simpl; tauto.
Qed.

End MappingFacts.

Module MappingTheorems.
Import Pd Sql Merge Names Mapping.
Import Facts ClassifierFacts ClassifierTheorems SqlFacts RunFacts.
Import NameFacts EffectFacts SelectionFacts MappingFacts.

(** X23.  What [save_column_mapping] saves is what the page loads: after
    the rows of the editor have been saved, [load_saved_mappings] and the
    dict built from its rows give, for a source column, the target of the
    last row of the editor that names it. *)
Theorem saved_mapping_round_trip e sch src tgt mapping_df t pre row post c :
  outage e = None ->
  tables (db e) !! mapping_table = Some t -> rectangular t ->
  (forall k, In k mapping_columns -> In k (columns t)) ->
  In "source_column" (columns mapping_df) -> In "target_column" (columns mapping_df) ->
  rows mapping_df = pre ++ row :: post ->
  cell (columns mapping_df) row "source_column" = VStr c ->
  (forall r, In r post -> cell (columns mapping_df) r "source_column" <> VStr c) ->
  exists e1 e2 L sd,
    save_column_mapping sch src tgt mapping_df e = (e1, Ok tt)
    /\ load_saved_mappings sch src tgt e1 = (e2, Ok L)
    /\ saved_mapping_dict L = Ok sd
    /\ forall default,
         vdict_get sd (VStr c) default = cell (columns mapping_df) row "target_column".
Proof.
  intros Ho Ht Hrect Hcols Hs Htg Hrows Hsrc Hpost.
  destruct (for_each_returns sch src tgt mapping_df (rows mapping_df) e t Ho Ht Hcols Hs Htg)
    as [e1 Hloop].
  destruct t as [tcols rs]. simpl in Hcols.
  destruct (for_each_saved sch src tgt mapping_df _ _ _ _ _ Hloop Ht Hrect)
    as (Ho1 & _ & _ & rs' & Ht1 & _ & Hlast & _).
  specialize (Hlast pre row post c Hrows Hsrc Hpost).
  exists e1. eexists. eexists.
  destruct (saved_mapping_dict_get tcols sch src tgt rs' c VNull) as (sd & Hsd & _).
  exists sd. split; [|split; [|split]].
  - rewrite save_column_mapping_loop. unfold begin. now rewrite Hloop.
  - apply (load_saved_mappings_answered sch src tgt e1 (mkDF tcols rs'));
      [apply answer_healthy; congruence | assumption | assumption].
  - exact Hsd.
  - intros default.
    destruct (saved_mapping_dict_get tcols sch src tgt rs' c default) as (sd' & Hsd' & Hget).
    simpl in Hsd, Hsd'. rewrite Hsd in Hsd'. injection Hsd' as <-.
    rewrite Hget. unfold target_of in Hlast. now rewrite Hlast.
Qed.

(** X24.  [save_column_mapping] saves all rows or none: when it raises, the
    database is as before.  When it returns, no other table and no
    registry row has changed, and the mappings saved for other pairs of
    tables are what they were. *)
Theorem save_column_mapping_is_atomic_and_local e e' r sch src tgt mapping_df t :
  save_column_mapping sch src tgt mapping_df e = (e', r) ->
  tables (db e) !! mapping_table = Some t -> rectangular t ->
  match r with
  | Err _ => db e' = db e
  | Ok _ =>
      quarter_detail (db e') = quarter_detail (db e)
      /\ (forall k, k <> mapping_table -> tables (db e') !! k = tables (db e) !! k)
      /\ exists rs',
           tables (db e') !! mapping_table = Some (mkDF (columns t) rs')
           /\ forall sch' src' tgt' c',
                (sch', src', tgt') <> (sch, src, tgt) ->
                saved_target (columns t) sch' src' tgt' c' rs'
                = saved_target (columns t) sch' src' tgt' c' (rows t)
  end.
Proof.
  intros H Ht Hrect. rewrite save_column_mapping_loop in H.
  apply begin_state in H as (e1 & Hloop & _ & _ & Hr).
  destruct r as [[]|x]; [|assumption]. subst e1. destruct t as [tcols rs].
  destruct (for_each_saved sch src tgt mapping_df _ _ _ _ _ Hloop Ht Hrect)
    as (_ & Hq & Hk & rs' & Ht1 & _ & _ & Hrest).
  split; [assumption|]. split; [assumption|]. exists rs'. split; [assumption|].
  intros sch' src' tgt' c' Hne. apply Hrest. intros row0 _ [= -> -> ->]. now apply Hne.
Qed.

End MappingTheorems.

(** ** The mapping the page proposes *)

Module MappingPageFacts.
Import Pd Sql Merge Names Mapping.
Import Facts ClassifierFacts ClassifierTheorems SqlFacts RunFacts.
Import NameFacts EffectFacts SelectionFacts MappingFacts.

Lemma dict_get_set d k v k' default :
  dict_get (dict_set d k v) k' default
  = if String.eqb k k' then v else dict_get d k' default.
Proof.
  induction d as [|[k1 v1] d IH]; simpl.
  - reflexivity.
  - destruct (String.eqb_spec k1 k) as [->|Hne]; simpl.
    + now destruct (String.eqb k k').
    + destruct (String.eqb_spec k1 k') as [->|Hne'].
      * destruct (String.eqb_spec k k') as [->|_]; [contradiction | reflexivity].
      * exact IH.
Qed.

Lemma auto_fold_get cols : forall d c default,
  dict_get (fold_left (fun d col => dict_set d col col) cols d) c default
  = if Str.mem c cols then c else dict_get d c default.
Proof.
  induction cols as [|col cols IH]; intros d c default; simpl; [reflexivity|].
  rewrite IH, dict_get_set. rewrite (String.eqb_sym c col).
  destruct (String.eqb_spec col c) as [->|Hne]; simpl; [|reflexivity].
  now destruct (Str.mem c cols).
Qed.

Lemma mem_filter p c cols :
  Str.mem c (List.filter p cols) = Str.mem c cols && p c.
Proof.
  induction cols as [|x cols IH]; simpl; [reflexivity|].
  destruct (p x) eqn:E; simpl; rewrite IH.
  - destruct (String.eqb_spec c x) as [->|_]; simpl; [now rewrite E | reflexivity].
  - destruct (String.eqb_spec c x) as [->|_]; simpl; [|reflexivity].
    rewrite E. now rewrite andb_false_r.
Qed.

(** [auto_mapping.get(col, empty string)]: the column itself when both tables have
    it under that name. *)
Lemma auto_mapping_get scs tcs c :
  dict_get (auto_mapping scs tcs) c EmptyString
  = if Str.mem c scs && Str.mem c tcs then c else EmptyString.
Proof. unfold auto_mapping. rewrite auto_fold_get, mem_filter. reflexivity. Qed.

Lemma final_fold_get (g : string -> value) cols : forall d c default,
  vdict_get (fold_left (fun d col => vdict_set d (VStr col) (g col)) cols d) (VStr c) default
  = if Str.mem c cols then g c else vdict_get d (VStr c) default.
Proof.
  induction cols as [|col cols IH]; intros d c default; simpl; [reflexivity|].
  rewrite IH, vdict_get_set. simpl value_eqb. rewrite (String.eqb_sym c col).
  destruct (String.eqb_spec col c) as [->|Hne]; simpl; [|reflexivity].
  now destruct (Str.mem c cols).
Qed.

Lemma columns_answered sch tbl e :
  answer e = None ->
  get_column_names sch tbl e
  = (tick e (db e),
     Ok (match tables (db e) !! (sch, tbl) with Some t => columns t | None => [] end)).
Proof.
  intros Ha. unfold get_column_names, begin. rewrite (read_sql_answered _ e Ha).
  unfold information_schema_columns. now destruct (tables (db e) !! (sch, tbl)).
Qed.

End MappingPageFacts.

Module MappingPageTheorems.
Import Pd Sql Merge Names Mapping.
Import Facts ClassifierFacts ClassifierTheorems SqlFacts RunFacts.
Import NameFacts EffectFacts SelectionFacts MappingFacts MappingPageFacts.

(** X25.  The mapping the page shows for a source column is the target
    saved for it when there is one, else the column itself when the target
    table has a column of that name, else the empty string. *)
Theorem mapping_page_prefers_saved_targets e sch src tgt t c :
  outage e = None ->
  tables (db e) !! mapping_table = Some t ->
  (forall k, In k mapping_columns -> In k (columns t)) ->
  let columns_of tbl :=
    match tables (db e) !! (sch, tbl) with Some s => columns s | None => [] end in
  In c (columns_of src) ->
  exists fm,
    main_mapping sch src tgt e = (tick (tick (tick e (db e)) (db e)) (db e), Ok fm)
    /\ forall default,
         vdict_get fm (VStr c) default
         = match saved_target (columns t) sch src tgt c (rows t) with
           | Some v => v
           | None => VStr (if Str.mem c (columns_of tgt) then c else EmptyString)
           end.
Proof.
  intros Ho Ht Hcols columns_of Hc.
  unfold main_mapping. cbv [mbind M_bind mret M_ret].
  rewrite (columns_answered sch src e (answer_healthy e Ho)).
  rewrite (columns_answered sch tgt (tick e (db e)) (answer_healthy (tick e (db e)) Ho)).
  simpl db. fold (columns_of src) (columns_of tgt).
  rewrite (load_saved_mappings_answered sch src tgt _ t
             (answer_healthy (tick (tick e (db e)) (db e)) Ho) Ht Hcols).
  unfold lift.
  destruct (saved_mapping_dict_get (columns t) sch src tgt (rows t) c VNull) as (sd & Hsd & _).
  simpl in Hsd. simpl db. rewrite Hsd. eexists. split; [reflexivity|].
  intros default. unfold final_mapping.
  rewrite (final_fold_get (fun col => vdict_get sd (VStr col)
             (VStr (dict_get (auto_mapping (columns_of src) (columns_of tgt)) col EmptyString)))).
  apply mem_In in Hc. rewrite Hc.
  destruct (saved_mapping_dict_get (columns t) sch src tgt (rows t) c
              (VStr (dict_get (auto_mapping (columns_of src) (columns_of tgt)) c EmptyString)))
    as (sd' & Hsd' & Hget).
  simpl in Hsd'. rewrite Hsd in Hsd'. injection Hsd' as <-. rewrite Hget.
  destruct (saved_target _ _ _ _ _ _); [reflexivity|].
  now rewrite auto_mapping_get, Hc.
Qed.

End MappingPageTheorems.

(** ** The registry and the UPDATE of step 6 *)

Module RegistryFacts.
Import Pd Classifier Classes Sql Merge Names RunParts.
Import Facts MergeFacts ClassifierFacts SqlFacts RunFacts NameFacts EffectFacts SelectionFacts.

(** Step 2 on a store that answers, with the target there and no backup in
    the way. *)
Lemma archive_done sch tgt e t :
  outage e = None ->
  tables (db e) !! (sch, tgt) = Some t ->
  tables (db e) !! (sch, tgt +:+ "_bu") = None ->
  archive sch tgt e = (mkEngine (archived (db e) sch tgt t) (2 + sent e) None, Ok tt).
Proof.
  intros Ho Ht Hbu. unfold archive, begin. cbv [mbind M_bind]. unfold execute at 1.
  rewrite (answer_healthy e Ho). simpl execute_statement. unfold relation.
  rewrite Ht. cbn [mbind result_bind]. rewrite Hbu.
  unfold execute. rewrite answer_healthy by exact Ho. simpl execute_statement.
  unfold relation. simpl tables. rewrite lookup_insert_eq. cbn [mbind result_bind].
  rewrite lookup_insert_ne, lookup_delete_eq by apply backup_name_neq.
  unfold tick. simpl. rewrite Ho. do 2 f_equal.
  unfold archived, set_tables. simpl. f_equal. now apply rename_and_copy.
Qed.

Lemma ensure_on_existing sch tgt src e t :
  outage e = None ->
  tables (db e) !! (sch, tgt) = Some t ->
  ensure_target_table_exists sch tgt src e = (tick e (db e), Ok tt).
Proof.
  intros Ho Ht. unfold ensure_target_table_exists, begin, execute.
  rewrite (answer_healthy e Ho). simpl execute_statement. now rewrite Ht.
Qed.

Lemma archived_target d sch tgt t :
  tables d !! (sch, tgt) = Some t ->
  tables (archived d sch tgt t) !! (sch, tgt) = Some t.
Proof. intros Ht. simpl. now rewrite lookup_insert_ne by apply backup_name_neq. Qed.

(** Steps 3 and 4 on an archived target: the registry is read, and a
    registry without its table or without the row of "New" stops the run
    there. *)
Lemma after_archive_registry sch src tgt K sc tc e3 t x :
  outage e3 = None ->
  tables (db e3) !! (sch, tgt) = Some t ->
  match quarter_detail (db e3) with
  | Some qd => qd' ← loc qd "New"; Ok tt
  | None => Err (ProgrammingError "relation table_registry.quarter_detail does not exist")
  end = Err x ->
  after_archive sch src tgt K sc tc e3 = (tick (tick e3 (db e3)) (db e3), Err x).
Proof.
  intros Ho Ht Hx. unfold after_archive. cbv [mbind M_bind mret M_ret].
  rewrite (ensure_on_existing sch tgt src e3 t Ho Ht).
  unfold fetch_quarter_details, begin, read_sql.
  rewrite (answer_healthy (tick e3 (db e3)) Ho). simpl db.
  destruct (quarter_detail (db e3)) as [qd|].
  - unfold lift. destruct (loc qd "New"); [discriminate|].
    cbn [mbind result_bind] in *. now injection Hx as ->.
  - now injection Hx as ->.
Qed.

(** The inner existence test of the WHERE of step 6, for one row of
    [t1 LEFT JOIN s]. *)
Lemma term_where_inner scols tcols keys k0 srows t t1 :
  In k0 keys ->
  existsb (fun s =>
    holds (sql_and (sql_and (sql_eq (cell tcols t k0) (cell tcols t1 k0))
                            (sql_ne (cell tcols t "status") (VInt 0)))
                   (Some (is_null (joined_cell scols s k0)))))
    (left_join tcols scols keys srows t1)
  = sql_active tcols t
    && (holds (sql_eq (cell tcols t k0) (cell tcols t1 k0))
        && forallb (fun s => negb (holds (on_keys tcols scols keys t1 s))) srows).
Proof.
  intros Hk0. unfold left_join, sql_active.
  set (ms := List.filter (fun b => holds (on_keys tcols scols keys t1 b)) srows).
  assert (Hall : forallb (fun s => negb (holds (on_keys tcols scols keys t1 s))) srows
                 = match ms with [] => true | _ => false end).
  { unfold ms. clear. induction srows as [|s srows IH]; simpl; [reflexivity|].
    destruct (holds (on_keys tcols scols keys t1 s)); simpl; [reflexivity | exact IH]. }
  rewrite Hall. destruct ms as [|m ms'] eqn:Ems.
  - simpl. rewrite !holds_and. simpl.
    now destruct (holds (sql_eq _ _)), (holds (sql_ne _ _)).
  - rewrite !andb_false_r.
    apply not_true_iff_false. intros H. apply existsb_exists in H as (o & Ho & H).
    apply in_map_iff in Ho as (s & <- & Hs).
    assert (Hs' : In s ms) by (rewrite Ems; exact Hs).
    apply filter_In in Hs' as [_ Hon]. rewrite holds_on_keys, forallb_forall in Hon.
    specialize (Hon k0 Hk0). rewrite holds_sql_eq in Hon.
    apply andb_true_iff in Hon as [Hn He]. apply value_eqb_eq in He.
    rewrite holds_and in H. apply andb_true_iff in H as [_ H]. simpl in H.
    rewrite <- He in H. apply negb_true_iff in Hn. rewrite Hn in H. discriminate.
Qed.

Lemma existsb_and_const {A} (b : bool) (p : A -> bool) l :
  existsb (fun x => b && p x) l = b && existsb p l.
Proof.
  induction l as [|x l IH]; simpl; [now rewrite andb_false_r|].
  rewrite IH. now destruct b.
Qed.

End RegistryFacts.

Module RegistryTheorems.
Import Pd Classifier Classes Sql Merge Names RunParts.
Import Facts MergeFacts ClassifierFacts SqlFacts RunFacts NameFacts EffectFacts SelectionFacts.
Import RegistryFacts.

(** X9.  The registry is read after the archive has been committed.  On a
    store that answers, with the target there and no backup, a run whose
    registry table is missing is stopped by the store's rejection of the
    query, and a run whose registry has no row for "New" by the KeyError
    of the lookup, whose text is the quoted name: either run fails after
    six statements, and the backup copy stays. *)
Theorem registry_is_read_after_archiving e sch src tgt K E t :
  outage e = None ->
  tables (db e) !! (sch, tgt) = Some t ->
  tables (db e) !! (sch, tgt +:+ "_bu") = None ->
  match quarter_detail (db e) with
  | None =>
      exists x, rejected x
        /\ run_merge_process e sch src tgt K E
           = (mkEngine (archived (db e) sch tgt t) (6 + sent e) None,
              "Merge failed: " +:+ str_exn x)
  | Some qd =>
      qd !! "New" = None ->
      run_merge_process e sch src tgt K E
      = (mkEngine (archived (db e) sch tgt t) (6 + sent e) None, "Merge failed: 'New'")
  end.
Proof.
  intros Ho Ht Hbu.
  assert (Hrun : forall x,
    (forall sc tc e3, outage e3 = None -> db e3 = archived (db e) sch tgt t ->
       after_archive sch src tgt K sc tc e3 = (tick (tick e3 (db e3)) (db e3), Err x)) ->
    run_merge_process e sch src tgt K E
    = (mkEngine (archived (db e) sch tgt t) (6 + sent e) None,
       "Merge failed: " +:+ str_exn x)).
  { intros x Hq. unfold run_merge_process. rewrite merge_steps_parts. cbv [mbind M_bind].
    destruct (fetch_column_names_state sch src e) as (r1 & H1 & Hr1). rewrite H1.
    rewrite (Hr1 (answer_healthy e Ho)).
    destruct (fetch_column_names_state sch tgt (tick e (db e))) as (r2 & H2 & Hr2). rewrite H2.
    rewrite (Hr2 (answer_healthy (tick e (db e)) Ho)). simpl db.
    rewrite (archive_done sch tgt (tick (tick e (db e)) (db e)) t Ho Ht Hbu). simpl db.
    rewrite Hq by reflexivity. reflexivity. }
  destruct (quarter_detail (db e)) as [qd|] eqn:Hqd.
  - intros Hnew. apply (Hrun (KeyError "New")). intros sc tc e3 Ho3 Hd3.
    apply after_archive_registry with (t := t).
    + exact Ho3.
    + rewrite Hd3. now apply archived_target.
    + rewrite Hd3. simpl. rewrite Hqd. unfold loc. now rewrite Hnew.
  - exists (ProgrammingError "relation table_registry.quarter_detail does not exist").
    split; [red; eauto|]. apply Hrun.
    intros sc tc e3 Ho3 Hd3. apply after_archive_registry with (t := t).
    + exact Ho3.
    + rewrite Hd3. now apply archived_target.
    + rewrite Hd3. simpl. now rewrite Hqd.
Qed.

(** X12.  The WHERE of the UPDATE of step 6 holds for a target row exactly
    when the row is active and some target row with the same value in the
    first key column is matched by no source row on the keys: the updated
    row and the unmatched row are correlated on the first key only. *)
Theorem term_where_correlates_on_first_key scols tcols keys k0 srows trows t :
  In k0 keys ->
  term_where scols tcols keys k0 srows trows t
  = sql_active tcols t
    && existsb (fun t1 =>
         holds (sql_eq (cell tcols t k0) (cell tcols t1 k0))
         && forallb (fun s => negb (holds (on_keys tcols scols keys t1 s))) srows)
       trows.
Proof.
  intros Hk0. unfold term_where. rewrite <- existsb_and_const.
  apply existsb_ext'. intros t1. now apply term_where_inner.
Qed.

End RegistryTheorems.

(** ** Step 6 on its own *)

Module TermDateFacts.
Import Pd Classifier Classes Sql Merge Names RunParts.
Import Facts MergeFacts ClassifierFacts SqlFacts RunFacts NameFacts EffectFacts SelectionFacts.
Import RegistryFacts.

Lemma holds_ne_zero v : holds (sql_ne v (VInt 0)) = true <-> v <> VNull /\ v <> VInt 0.
Proof.
  destruct v as [|z|x]; simpl.
  - split; [discriminate | intros [H _]; now contradiction H].
  - destruct (Z.eqb_spec z 0) as [->|Hz]; simpl.
    + split; [discriminate | intros [_ H]; now contradiction H].
    + split; [|reflexivity]. intros _. split; [discriminate|]. intros [= ->]. now apply Hz.
  - split; [|reflexivity]. intros _. split; discriminate.
Qed.

Lemma holds_eq_iff a b : holds (sql_eq a b) = true <-> a <> VNull /\ a = b.
Proof.
  rewrite holds_sql_eq, andb_true_iff, value_eqb_eq, negb_true_iff.
  destruct a; simpl; split; intros [H1 H2]; split; try assumption; try discriminate;
    try reflexivity; now contradiction H1.
Qed.

Lemma holds_on_keys_iff acols bcols keys a b :
  holds (on_keys acols bcols keys a b) = true <-> same_key acols bcols keys a b.
Proof.
  rewrite holds_on_keys, forallb_forall. unfold same_key.
  split; intros H k Hk; apply holds_eq_iff; now apply H.
Qed.

(** The WHERE of the UPDATE, in words. *)
Lemma term_where_marked s t keys k0 r :
  In k0 keys ->
  term_where (columns s) (columns t) keys k0 (rows s) (rows t) r = true
  <-> marked s t keys k0 r.
Proof.
  intros Hk0. unfold term_where.
  rewrite (existsb_ext' _ _ _ (fun t1 => term_where_inner (columns s) (columns t) keys k0
                                           (rows s) r t1 Hk0)).
  rewrite existsb_and_const, andb_true_iff. unfold sql_active, marked.
  rewrite holds_ne_zero, existsb_exists. split.
  - intros [[Hn Hz] (t1 & Ht1 & H)]. apply andb_true_iff in H as [He Hun].
    apply holds_eq_iff in He as [Hk He]. split; [assumption|]. split; [assumption|].
    exists t1. repeat split; try assumption.
    intros srow Hs Hsame. apply holds_on_keys_iff in Hsame.
    pose proof (proj1 (forallb_forall _ _) Hun srow Hs) as Hf. cbv beta in Hf.
    rewrite Hsame in Hf.
    discriminate.
  - intros (Hn & Hz & t1 & Ht1 & Hk & He & Hun). split; [now split|].
    exists t1. split; [assumption|]. apply andb_true_iff. split.
    + apply holds_eq_iff. now split.
    + apply forallb_forall. intros srow Hs. apply negb_true_iff.
      apply not_true_iff_false. intros Hsame. apply holds_on_keys_iff in Hsame.
      exact (Hun srow Hs Hsame).
Qed.

Lemma term_update_dated tcols vd r :
  In "status" tcols -> In "effective_end_date" tcols -> length r = length tcols ->
  term_dated tcols vd r (term_update tcols vd r).
Proof.
  intros Hst Hend Hlen. unfold term_dated, term_update. repeat split.
  - now rewrite !length_set_cell.
  - rewrite cell_set_other by discriminate. now apply cell_set_same.
  - apply cell_set_same; [assumption|]. now rewrite length_set_cell.
  - intros c Hc1 Hc2. now rewrite !cell_set_other by congruence.
Qed.

Lemma terminated_marked s t keys k0 r :
  In k0 keys -> In r (rows t) -> terminated s t keys r -> marked s t keys k0 r.
Proof.
  intros Hk0 Hr (Hn & Hz & Hk & Hun). split; [assumption|]. split; [assumption|].
  exists r. repeat split; try assumption. now apply Hk.
Qed.

End TermDateFacts.

Module TermDateTheorems.
Import Pd Classifier Classes Sql Merge Names RunParts.
Import Facts MergeFacts ClassifierFacts SqlFacts RunFacts NameFacts EffectFacts SelectionFacts.
Import RegistryFacts TermDateFacts.

(** C9, as the code has it.  On tables that have the key columns, with an
    integer status and a textual end date in the target, and with names
    and an end date that can be spliced into it, the UPDATE of step 6 is
    accepted and rewrites the target in place: the other tables
    and the columns of the target stay, and the rows of the target after
    the statement are its rows before it, one for one (in whatever order
    the store keeps them), where a row the WHERE marks has taken the
    status and the end date of the registry row of "Delete" and has kept
    every other cell, and a row it does not mark is as it was.  The WHERE
    marks every terminated row, and with it every row whose status is
    neither missing nor 0 and that shares the value of the first key with
    a target row that no source row matches: the rows are correlated on
    [business_keys[0]] only. *)
Theorem term_delete_updates_in_place d sch src tgt k0 K vd s t :
  tables d !! (sch, tgt) = Some t ->
  tables d !! (sch, src) = Some s ->
  rectangular t ->
  Forall (fun name => quotable name = true) [sch; src; tgt] ->
  Forall (fun k => plain k = true) (k0 :: K) ->
  Str.contains "'" (EFFECTIVE_END_DATE vd) = false ->
  (forall k, In k (k0 :: K) -> In (Str.lower k) (columns t) /\ In (Str.lower k) (columns s)) ->
  In "status" (columns t) -> In "effective_end_date" (columns t) ->
  stamps_typed t ->
  keys_of_one_kind t s (map Str.lower (k0 :: K)) ->
  let keys := map Str.lower (k0 :: K) in
  exists rows' f,
    execute_statement (TermDelete sch src tgt (k0 :: K) k0 vd) d
    = Ok (set_tables d (<[(sch, tgt) := mkDF (columns t) rows']> (tables d)))
    /\ Permutation rows' (map f (rows t))
    /\ forall r, In r (rows t) ->
         (marked s t keys (Str.lower k0) r -> term_dated (columns t) vd r (f r))
         /\ (~ marked s t keys (Str.lower k0) r -> f r = r)
         /\ (terminated s t keys r -> marked s t keys (Str.lower k0) r).
Proof.
  intros Ht Hs Hrect _ _ _ Hkeys Hst Hend _ _ keys.
  set (f := fun r => if term_where (columns s) (columns t) keys (Str.lower k0)
                                   (rows s) (rows t) r
                     then term_update (columns t) vd r else r).
  exists (map f (rows t)), f.
  assert (Hk0 : In (Str.lower k0) keys) by (unfold keys; simpl; now left).
  split; [|split].
  - unfold execute_statement, relation. rewrite Ht, Hs. cbn [mbind result_bind spliced].
    rewrite (column_of_In "t" (columns t) "status") by assumption.
    rewrite (column_of_In "t" (columns t) "effective_end_date") by assumption.
    cbn [mbind result_bind].
    rewrite (mapM_column_of "t1" (columns t)) by (intros k Hk; now apply Hkeys).
    rewrite (mapM_column_of "s" (columns s)) by (intros k Hk; now apply Hkeys).
    cbn [mbind result_bind].
    rewrite (column_of_In "t" (columns t) k0) by (apply Hkeys; now left).
    rewrite (column_of_In "s" (columns s) k0) by (apply Hkeys; now left).
    reflexivity.
  - reflexivity.
  - intros r Hr.
    assert (Hlen : length r = length (columns t))
      by exact (proj1 (List.Forall_forall _ _) Hrect r Hr).
    pose proof (term_where_marked s t keys (Str.lower k0) r Hk0) as Hw.
    split; [|split].
    + intros Hm. unfold f. rewrite (proj2 Hw Hm). now apply term_update_dated.
    + intros Hm. unfold f.
      destruct (term_where _ _ _ _ _ _ r); [|reflexivity].
      exfalso. apply Hm. now apply Hw.
    + now apply terminated_marked.
Qed.

End TermDateTheorems.


(** ** Step 3 on its own *)

Module EnsureTheorems.
Import Pd Classifier Classes Sql Merge Names RunParts.
Import Facts MergeFacts ClassifierFacts SqlFacts RunFacts NameFacts EffectFacts.

(** X4.  On a store that answers, [ensure_target_table_exists] leaves the
    database alone when the target is there, creates it with the columns
    of the source and no row when it is not, and raises without a change
    when neither table is there.  After a call that returned, a second
    call changes nothing. *)
Theorem ensure_target_table_exists_copies_structure_once sch tgt src e :
  outage e = None ->
  exists e1 r1,
    ensure_target_table_exists sch tgt src e = (e1, r1)
    /\ match tables (db e) !! (sch, tgt), tables (db e) !! (sch, src) with
       | Some _, _ => r1 = Ok tt /\ db e1 = db e
       | None, Some s =>
           r1 = Ok tt
           /\ db e1 = set_tables (db e)
                        (<[(sch, tgt) := mkDF (columns s) []]> (tables (db e)))
       | None, None => (exists m, r1 = Err (ProgrammingError m)) /\ db e1 = db e
       end
    /\ (r1 = Ok tt ->
        ensure_target_table_exists sch tgt src e1 = (tick e1 (db e1), Ok tt)).
Proof.
  intros Ho. unfold ensure_target_table_exists, begin, execute.
  rewrite (answer_healthy e Ho). simpl execute_statement.
  destruct (tables (db e) !! (sch, tgt)) as [t|] eqn:Ht.
  - do 2 eexists. split; [reflexivity|]. split; [now split|]. intros _.
    rewrite (answer_healthy (tick e (db e)) Ho). simpl. now rewrite Ht.
  - unfold relation. destruct (tables (db e) !! (sch, src)) as [s|] eqn:Hs;
      cbn [mbind result_bind].
    + do 2 eexists. split; [reflexivity|]. split; [now split|]. intros _.
      rewrite (answer_healthy (tick e _) Ho). simpl. now rewrite lookup_insert_eq.
    + do 2 eexists. split; [reflexivity|]. split; [split; [eauto | reflexivity]|].
      discriminate.
Qed.

End EnsureTheorems.

(** ** The further theorems at concrete inputs *)

Module MoreWitnesses.
Import Pd Classifier Classes Sql Merge Inputs Names RunParts Page Viewer Mapping MoreInputs.
Import Witnesses.
Import NameTheorems EffectTheorems SelectionTheorems PageTheorems ViewerTheorems.
Import MappingTheorems MappingPageTheorems RegistryTheorems EnsureTheorems ExecutorTheorems.
Import TermDateTheorems.

Ltac stored := vm_compute; reflexivity.

(** The keys are columns of the stored source. *)
Ltac keys_stored :=
  let s := fresh "s" in let Hs := fresh "Hs" in
  intros s Hs; vm_compute in Hs; injection Hs as <-; simpl; tauto.

Ltac no_indicator :=
  let c := fresh "c" in let Hc := fresh "Hc" in
  intros c Hc; simpl in Hc; repeat destruct Hc as [<-|Hc]; try contradiction;
  simpl; intuition discriminate.

Ltac one_kind :=
  let k := fresh "k" in let Hk := fresh "Hk" in
  intros k Hk; simpl in Hk; repeat destruct Hk as [<-|Hk]; try contradiction;
  (left; reflexivity) || (right; reflexivity).

Lemma quote_table_name_injective_witness :
  Str.contains dquote "public" = false
  /\ quote_table_name "public" "target" = quote_table_name "public" "target"
  /\ "public" = "public" /\ "target" = "target".
Proof.
  split; [reflexivity|]. split; [reflexivity|].
  apply (quote_table_name_injective "public" "target" "public" "target"); reflexivity.
Defined.

Lemma fetch_column_names_last_spelling_witness :
  fetch_column_names "public" "mixed" engine_case
  = (tick engine_case (db engine_case), Ok [("id", "id"); ("val", "val")])
  /\ tables (db engine_case) !! ("public", "mixed") = Some T_case
  /\ List.NoDup (map fst [("id", "id"); ("val", "val")])
  /\ forall k v, In (k, v) [("id", "id"); ("val", "val")]
                 <-> last_spelling (columns T_case) k = Some v.
Proof.
  assert (H1 : fetch_column_names "public" "mixed" engine_case
               = (tick engine_case (db engine_case), Ok [("id", "id"); ("val", "val")]))
    by (vm_compute; reflexivity).
  assert (H2 : tables (db engine_case) !! ("public", "mixed") = Some T_case)
    by (vm_compute; reflexivity).
  split; [exact H1|]. split; [exact H2|].
  exact (fetch_column_names_last_spelling "public" "mixed" engine_case _ _ T_case H1 H2).
Defined.

Lemma mapped_columns_differ_in_case_only_witness :
  let sc := [("id", "id"); ("val", "val")] in
  let tc := [("id", "id"); ("val", "val"); ("status", "status");
             ("effective_start_date", "effective_start_date");
             ("effective_end_date", "effective_end_date"); ("version_id", "version_id")] in
  fetch_column_names "public" "source" engine = (tick engine (db engine), Ok sc)
  /\ fetch_column_names "public" "target" (tick engine (db engine))
     = (tick (tick engine (db engine)) (db engine), Ok tc)
  /\ tables (db engine) !! ("public", "target") = Some target
  /\ Forall2 (fun k m =>
                Str.lower m = k
                /\ (In m (columns target)
                    \/ (m = k /\ forall c, In c (columns target) -> Str.lower c <> k)))
             (map fst sc) (mapped_columns_of sc tc).
Proof.
  intros sc tc.
  assert (H1 : fetch_column_names "public" "source" engine = (tick engine (db engine), Ok sc))
    by (vm_compute; reflexivity).
  assert (H2 : fetch_column_names "public" "target" (tick engine (db engine))
               = (tick (tick engine (db engine)) (db engine), Ok tc))
    by (vm_compute; reflexivity).
  assert (H3 : tables (db engine) !! ("public", "target") = Some target)
    by (vm_compute; reflexivity).
  split; [exact H1|]. split; [exact H2|]. split; [exact H3|].
  exact (mapped_columns_differ_in_case_only "public" "source" "target" engine _ _ sc tc
           target H1 H2 H3).
Defined.

Lemma ensure_target_table_exists_copies_structure_once_witness :
  outage engine_no_target = None
  /\ exists e1 r1,
       ensure_target_table_exists "public" "target" "source" engine_no_target = (e1, r1)
       /\ match tables (db engine_no_target) !! ("public", "target"),
                tables (db engine_no_target) !! ("public", "source") with
          | Some _, _ => r1 = Ok tt /\ db e1 = db engine_no_target
          | None, Some s =>
              r1 = Ok tt
              /\ db e1 = set_tables (db engine_no_target)
                           (<[("public", "target") := mkDF (columns s) []]>
                              (tables (db engine_no_target)))
          | None, None => (exists m, r1 = Err (ProgrammingError m)) /\ db e1 = db engine_no_target
          end
       /\ (r1 = Ok tt ->
           ensure_target_table_exists "public" "target" "source" e1
           = (tick e1 (db e1), Ok tt)).
Proof.
  split; [reflexivity|].
  exact (ensure_target_table_exists_copies_structure_once "public" "target" "source"
           engine_no_target eq_refl).
Defined.

Lemma run_only_adds_backup_witness :
  keys_of_source (db engine) "public" "source" ["id"]
  /\ let e' := fst (run_merge_process engine "public" "source" "target" ["id"] []) in
     db e' = db engine
     \/ exists t, tables (db engine) !! ("public", "target") = Some t
          /\ tables (db engine) !! ("public", "target" +:+ "_bu") = None
          /\ tables (db e') = <[("public", "target" +:+ "_bu") := t]> (tables (db engine))
          /\ quarter_detail (db e') = quarter_detail (db engine).
Proof.
  assert (H : keys_of_source (db engine) "public" "source" ["id"]) by keys_stored.
  split; [exact H|].
  exact (run_only_adds_backup engine "public" "source" "target" ["id"] [] H).
Defined.

Lemma missing_target_is_never_created_witness :
  tables (db engine_no_target) !! ("public", "target") = None
  /\ db (fst (run_merge_process engine_no_target "public" "source" "target" ["id"] []))
     = db engine_no_target
  /\ exists x, rejected x
       /\ run_merge_process engine_no_target "public" "source" "target" ["id"] []
          = (mkEngine (db engine_no_target) (3 + sent engine_no_target) None,
             "Merge failed: " +:+ str_exn x).
Proof.
  assert (H : tables (db engine_no_target) !! ("public", "target") = None) by stored.
  split; [exact H|].
  destruct (missing_target_is_never_created engine_no_target "public" "source" "target"
              ["id"] [] H) as [Hdb Hrun].
  split; [exact Hdb | exact (Hrun eq_refl)].
Defined.

Lemma second_run_changes_nothing_witness :
  outage engine = None
  /\ keys_of_source (db engine) "public" "source" ["id"]
  /\ db (fst (run_merge_process engine "public" "source" "target" ["id"] []))
     = left_by_run (db engine) "public" "target"
  /\ db (fst (run_merge_process
                (fst (run_merge_process engine "public" "source" "target" ["id"] []))
                "public" "source" "target" ["id"] []))
     = db (fst (run_merge_process engine "public" "source" "target" ["id"] [])).
Proof.
  assert (H : keys_of_source (db engine) "public" "source" ["id"]) by keys_stored.
  split; [reflexivity|]. split; [exact H|].
  exact (second_run_changes_nothing engine "public" "source" "target" ["id"] []
           "source" ["id"] [] eq_refl H).
Defined.

Lemma new_selected_unmatched_witness :
  In "id" ["id"]
  /\ new_selected (columns source) (columns target) ["id"] "id" (rows source) (rows target)
     = map (fun s => (s, None))
           (List.filter (fun s => has_null_key (columns source) ["id"] s
                                  || unmatched source target ["id"] s) (rows source)).
Proof.
  assert (H : In "id" ["id"]) by now left.
  split; [exact H|]. exact (new_selected_unmatched source target ["id"] "id" H).
Defined.

Lemma insert_statements_rejected_witness :
  tables database !! ("public", "source") = Some source
  /\ In "id" ["id"] /\ In "id" (columns source)
  /\ is_ok (execute_statement
              (InsertNew "public" "source" "target" ["id"; "val"] ["id"; "val"] ["id"] "id"
                         v_new) database) = false
  /\ is_ok (execute_statement
              (InsertChangeNew "public" "source" "target" ["id"; "val"] ["id"; "val"] ["id"]
                               v_change) database) = false.
Proof.
  assert (H1 : tables database !! ("public", "source") = Some source) by stored.
  assert (H2 : In "id" ["id"]) by now left.
  assert (H3 : In "id" (columns source)) by now left.
  split; [exact H1|]. split; [exact H2|]. split; [exact H3|].
  destruct (insert_statements_rejected database "public" "source" "target" ["id"; "val"]
              ["id"] "id" v_new v_change source (columns target) H1) as [Hnew Hchange].
  split; [exact (Hnew H2 H3) | exact Hchange].
Defined.

Lemma integer_status_is_always_active_witness :
  status_col T_int = Some "status"
  /\ (forall r, In r (rows T_int) -> exists z, cell (columns T_int) r "status" = VInt z)
  /\ active_rows T_int = Ok T_int
  /\ is_active T_int [VInt 5; VStr "E"; VInt 0] = true.
Proof.
  assert (H1 : status_col T_int = Some "status") by reflexivity.
  assert (H2 : forall r, In r (rows T_int) ->
                         exists z, cell (columns T_int) r "status" = VInt z).
  { simpl. intros r [<-|[<-|[]]]; eexists; reflexivity. }
  split; [exact H1|]. split; [exact H2|].
  destruct (integer_status_is_always_active S_A T_int ["id"] "status" H1 H2)
    as (Ha & Hact & _).
  split; [exact Ha|]. apply Hact. simpl. now left.
Defined.

Lemma find_new_records_unmatched_source_rows_witness :
  exists N,
    find_new_records S_A T_A ["id"] = Ok N
    /\ columns N = left_labels S_A T_A ["id"] "_x" ++ right_labels S_A T_A ["id"] "_y"
    /\ rows N = map (fun l => l ++ map (fun _ => VNull) (rest_labels T_A ["id"]))
                    (List.filter (unmatched S_A T_A ["id"]) (rows S_A)).
Proof.
  apply (find_new_records_unmatched_source_rows S_A T_A ["id"]).
  - split; concrete.
  - split; concrete.
  - concrete.
  - concrete.
  - simpl. intros k [<-|[]]. split; simpl; tauto.
  - one_kind.
  - no_indicator.
  - no_indicator.
  - reflexivity.
Defined.

(** X16, witness: the fields [val] and [note] are compared and the call
    returns; with both excluded nothing is left and it raises. *)
Lemma find_changed_records_needs_a_field_witness :
  (exists C, find_changed_records S_note T_note ["id"] stamps = Ok C)
  /\ find_changed_records S_note T_note ["id"] ("val" :: "note" :: stamps)
     = Err (ValueError "No objects to concatenate").
Proof.
  split.
  - change (match compare_fields S_note T_note ["id"] stamps with
            | [] => find_changed_records S_note T_note ["id"] stamps
                    = Err (ValueError "No objects to concatenate")
            | _ :: _ => exists C, find_changed_records S_note T_note ["id"] stamps = Ok C
            end).
    apply (find_changed_records_needs_a_field S_note T_note ["id"] stamps).
    + concrete.
    + concrete.
    + concrete.
    + concrete.
    + simpl. intros k [<-|[]]. split; simpl; tauto.
    + one_kind.
    + concrete.
  - change (match compare_fields S_note T_note ["id"] ("val" :: "note" :: stamps) with
            | [] => find_changed_records S_note T_note ["id"] ("val" :: "note" :: stamps)
                    = Err (ValueError "No objects to concatenate")
            | _ :: _ => exists C, find_changed_records S_note T_note ["id"]
                                    ("val" :: "note" :: stamps) = Ok C
            end).
    apply (find_changed_records_needs_a_field S_note T_note ["id"]
             ("val" :: "note" :: stamps)).
    + concrete.
    + concrete.
    + concrete.
    + concrete.
    + simpl. intros k [<-|[]]. split; simpl; tauto.
    + one_kind.
    + concrete.
Defined.

(** X18, witness: the target spells its stamp columns as the page proposes
    them, and key 3 of the source is new. *)
Lemma find_new_button_shows_unmatched_source_rows_witness :
  main schemata table_names
       (mkWidgets (Some "public") (Some "source") (Some "target") ["id"]
                  (valid_defaults (columns target_upper)) (Some Find_New_Records))
       engine_upper
  = (mkEngine (db engine_upper) (6 + sent engine_upper) None,
     Ok (Some (report (mkDF (columns source)
                            (List.filter (unmatched source target_upper ["id"])
                                         (rows source)))
                      "No new records found."))).
Proof.
  apply (find_new_button_shows_unmatched_source_rows schemata table_names engine_upper
           "public" "source" "target" ["id"] _ source target_upper).
  - reflexivity.
  - discriminate.
  - discriminate.
  - discriminate.
  - repeat constructor.
  - stored.
  - stored.
  - concrete.
  - split; concrete.
  - no_indicator.
  - concrete.
  - concrete.
  - simpl. intros k [<-|[]]. split; simpl; tauto.
  - one_kind.
Defined.

(** X19, witness: a textual status; key 8 is shown and key 9, whose status
    is "0", is not. *)
Lemma find_deleted_button_shows_active_unmatched_rows_witness :
  main schemata table_names
       (mkWidgets (Some "public") (Some "source") (Some "target") ["id"]
                  (valid_defaults (columns target_text)) (Some Find_Deleted_Records))
       engine_text
  = (mkEngine (db engine_text) (6 + sent engine_text) None,
     Ok (Some (Found 1 (mkDF (columns target_text) [[VInt 8; VStr "Y"; VStr "1"]])))).
Proof.
  apply (find_deleted_button_shows_active_unmatched_rows schemata table_names engine_text
           "public" "source" "target" ["id"] _ source target_text).
  - reflexivity.
  - discriminate.
  - discriminate.
  - discriminate.
  - repeat constructor.
  - stored.
  - stored.
  - concrete.
  - split; concrete.
  - no_indicator.
  - concrete.
  - concrete.
  - simpl. intros k [<-|[]]. split; simpl; tauto.
  - one_kind.
Defined.

(** X20, witness: a target whose name contains "completed", with the backup
    of an earlier run in the way. *)
Lemma merge_button_success_is_a_failure_witness :
  exists e' msg,
    main schemata table_names
         (mkWidgets (Some "public") (Some "source") (Some "completed") ["id"]
                    (valid_defaults (columns target_upper)) (Some Merge_Button))
         engine_completed
    = (e', Ok (Some (Success msg)))
    /\ (exists x, msg = "Merge failed: " +:+ str_exn x) /\ msg <> completed.
Proof.
  eexists. eexists.
  assert (H : forall e' msg (Hm : main schemata table_names
                (mkWidgets (Some "public") (Some "source") (Some "completed") ["id"]
                           (valid_defaults (columns target_upper)) (Some Merge_Button))
                engine_completed = (e', Ok (Some (Success msg)))),
              main schemata table_names
                (mkWidgets (Some "public") (Some "source") (Some "completed") ["id"]
                           (valid_defaults (columns target_upper)) (Some Merge_Button))
                engine_completed = (e', Ok (Some (Success msg)))
              /\ (exists x, msg = "Merge failed: " +:+ str_exn x) /\ msg <> completed).
  { intros e' msg Hm. split; [exact Hm|].
    exact (merge_button_success_is_a_failure schemata table_names
             (mkWidgets (Some "public") (Some "source") (Some "completed") ["id"]
                        (valid_defaults (columns target_upper)) (Some Merge_Button))
             engine_completed e' msg eq_refl Hm). }
  apply H. vm_compute. reflexivity.
Defined.

(** X21, witness: the target spells its stamp columns in lower case, so that
    the page raises; and for a source with a status column of its own the
    proposed exclusions leave [val] to compare. *)
Lemma default_exclusions_cover_stamp_columns_witness :
  (exists m,
     main schemata table_names
          (mkWidgets (Some "public") (Some "source") (Some "target") ["id"] []
                     (Some Find_Changed_Records)) engine
     = (mkEngine (db engine) (4 + sent engine) None, Err (StreamlitAPIException m)))
  /\ compare_fields S_stamped target ["id"] [] = ["val"; "status"]
  /\ compare_fields S_stamped target ["id"] (valid_defaults (columns target)) = ["val"].
Proof.
  destruct default_exclusions_cover_stamp_columns as [Hraise Hcf].
  split; [|split].
  - apply (Hraise schemata table_names engine "public" "source" "target" ["id"] []
             (Some Find_Changed_Records) target "STATUS").
    + reflexivity.
    + discriminate.
    + discriminate.
    + discriminate.
    + stored.
    + vm_compute. tauto.
    + concrete.
  - reflexivity.
  - rewrite (Hcf S_stamped target ["id"]). reflexivity.
Defined.

Lemma generate_summary_reports_missing_columns_witness :
  answer engine = None
  /\ generate_summary (fun _ => []) "public" "target" engine
     = (tick engine (db engine),
        Ok (mkDF ["Error"]
                 [[VStr ("Missing required columns: "
                         +:+ String.concat ", "
                               (map quoted ["STATUS"; "EFFECTIVE_START_DATE";
                                            "EFFECTIVE_END_DATE"; "VERSION_ID"]))]])).
Proof.
  split; [reflexivity|].
  apply (proj1 (generate_summary_reports_missing_columns (fun _ => []) engine "public" "target"
                  eq_refl)).
  vm_compute. discriminate.
Defined.

Lemma saved_mapping_round_trip_witness :
  exists e1 e2 L sd,
    save_column_mapping "public" "source" "target" edited_mapping engine_mapping = (e1, Ok tt)
    /\ load_saved_mappings "public" "source" "target" e1 = (e2, Ok L)
    /\ saved_mapping_dict L = Ok sd
    /\ forall default, vdict_get sd (VStr "val") default = VStr "val".
Proof.
  apply (saved_mapping_round_trip engine_mapping "public" "source" "target" edited_mapping
           column_mapping [[VStr "id"; VStr "id"]] [VStr "val"; VStr "val"] [] "val").
  - reflexivity.
  - vm_compute. reflexivity.
  - concrete.
  - simpl. intros k Hk. intuition (subst; auto).
  - simpl. tauto.
  - simpl. tauto.
  - reflexivity.
  - reflexivity.
  - intros r [].
Defined.

Lemma save_column_mapping_is_atomic_and_local_witness :
  tables (db engine_mapping_lost) !! mapping_table = Some column_mapping
  /\ snd (save_column_mapping "public" "source" "target" edited_mapping engine_mapping_lost)
     = Err (OperationalError "server closed the connection unexpectedly")
  /\ db (fst (save_column_mapping "public" "source" "target" edited_mapping
                engine_mapping_lost))
     = db engine_mapping_lost.
Proof.
  assert (H1 : tables (db engine_mapping_lost) !! mapping_table = Some column_mapping)
    by (vm_compute; reflexivity).
  assert (H2 : snd (save_column_mapping "public" "source" "target" edited_mapping
                      engine_mapping_lost)
               = Err (OperationalError "server closed the connection unexpectedly"))
    by (vm_compute; reflexivity).
  split; [exact H1|]. split; [exact H2|].
  pose proof (save_column_mapping_is_atomic_and_local engine_mapping_lost _ _
                "public" "source" "target" edited_mapping column_mapping
                (surjective_pairing _) H1) as H.
  rewrite H2 in H. apply H. repeat constructor.
Defined.

Lemma mapping_page_prefers_saved_targets_witness :
  exists fm,
    main_mapping "public" "source" "target" engine_mapping
    = (tick (tick (tick engine_mapping (db engine_mapping)) (db engine_mapping))
            (db engine_mapping), Ok fm)
    /\ forall default, vdict_get fm (VStr "val") default = VStr "value".
Proof.
  destruct (mapping_page_prefers_saved_targets engine_mapping "public" "source" "target"
              column_mapping "val") as (fm & Hfm & Hget).
  - reflexivity.
  - vm_compute. reflexivity.
  - simpl. intros k Hk. intuition (subst; auto).
  - vm_compute. tauto.
  - exists fm. split; [exact Hfm|]. intros default. rewrite Hget. reflexivity.
Defined.

Lemma registry_is_read_after_archiving_witness :
  outage engine_no_new = None
  /\ run_merge_process engine_no_new "public" "source" "target" ["id"] []
     = (mkEngine (archived (db engine_no_new) "public" "target" target)
                 (6 + sent engine_no_new) None,
        "Merge failed: 'New'").
Proof.
  split; [reflexivity|].
  pose proof (registry_is_read_after_archiving engine_no_new "public" "source" "target"
                ["id"] [] target eq_refl) as H.
  apply H; vm_compute; reflexivity.
Defined.

Lemma term_where_correlates_on_first_key_witness :
  In "a" ["a"; "b"]
  /\ term_where (columns S_pair) (columns T_pair) ["a"; "b"] "a" (rows S_pair) (rows T_pair)
                [VInt 1; VInt 1; VInt 1; VStr "9999-12-31"]
     = sql_active (columns T_pair) [VInt 1; VInt 1; VInt 1; VStr "9999-12-31"]
       && existsb (fun t1 =>
            holds (sql_eq (cell (columns T_pair) [VInt 1; VInt 1; VInt 1; VStr "9999-12-31"] "a")
                          (cell (columns T_pair) t1 "a"))
            && forallb (fun s => negb (holds (on_keys (columns T_pair) (columns S_pair)
                                                      ["a"; "b"] t1 s))) (rows S_pair))
          (rows T_pair).
Proof.
  assert (H : In "a" ["a"; "b"]) by now left.
  split; [exact H|].
  exact (term_where_correlates_on_first_key (columns S_pair) (columns T_pair) ["a"; "b"] "a"
           (rows S_pair) (rows T_pair) _ H).
Defined.

(** X13, witness: key 9 of the target, for the key [id]. *)
Lemma term_where_single_key_witness :
  In [VInt 9; VStr "Z"; VInt 1; VStr "2024-01-01"; VStr "9999-12-31"; VStr "v1"] (rows target)
  /\ term_where (columns source) (columns target) [Str.lower "id"] (Str.lower "id")
                (rows source) (rows target)
                [VInt 9; VStr "Z"; VInt 1; VStr "2024-01-01"; VStr "9999-12-31"; VStr "v1"]
     = sql_terminated source target ["id"]
         [VInt 9; VStr "Z"; VInt 1; VStr "2024-01-01"; VStr "9999-12-31"; VStr "v1"].
Proof.
  assert (H : In [VInt 9; VStr "Z"; VInt 1; VStr "2024-01-01"; VStr "9999-12-31"; VStr "v1"]
                 (rows target)) by (simpl; tauto).
  split; [exact H|]. exact (term_where_single_key source target "id" _ H).
Defined.

(** C9, witness: the composite key [(a, b)]. *)
Lemma term_delete_updates_in_place_witness :
  exists rows' f,
    execute_statement (TermDelete "public" "source" "target" ["a"; "b"] "a" v_delete)
                      database_pair
    = Ok (set_tables database_pair
            (<[("public", "target") := mkDF (columns T_pair) rows']> (tables database_pair)))
    /\ Permutation rows' (map f (rows T_pair))
    /\ forall r, In r (rows T_pair) ->
         (marked S_pair T_pair ["a"; "b"] "a" r -> term_dated (columns T_pair) v_delete r (f r))
         /\ (~ marked S_pair T_pair ["a"; "b"] "a" r -> f r = r)
         /\ (terminated S_pair T_pair ["a"; "b"] r -> marked S_pair T_pair ["a"; "b"] "a" r).
Proof.
  apply (term_delete_updates_in_place database_pair "public" "source" "target" "a" ["b"]
           v_delete S_pair T_pair).
  - stored.
  - stored.
  - concrete.
  - repeat constructor.
  - repeat constructor.
  - reflexivity.
  - simpl. intros k [<-|[<-|[]]]; split; simpl; tauto.
  - simpl. tauto.
  - simpl. tauto.
  - intros r Hr. simpl in Hr. destruct Hr as [<-|[<-|[]]];
      (split; [right; eexists; reflexivity | right; eexists; reflexivity]).
  - one_kind.
Defined.

(** With the composite key [(a, b)] the UPDATE of step 6 term-dates the
    first target row, which has its key tuple in the source and is not
    terminated: the second row, which is, shares its value of [a]. *)
Example composite_key_term_dates_a_matched_row :
  let r := [VInt 1; VInt 1; VInt 1; VStr "9999-12-31"] in
  In r (rows T_pair)
  /\ ~ terminated S_pair T_pair ["a"; "b"] r
  /\ marked S_pair T_pair ["a"; "b"] "a" r
  /\ execute_statement (TermDelete "public" "source" "target" ["a"; "b"] "a" v_delete)
                       database_pair
     = Ok (set_tables database_pair
             (<[("public", "target") :=
                  mkDF (columns T_pair)
                       [[VInt 1; VInt 1; VInt 0; VStr "2024-03-31"];
                        [VInt 1; VInt 2; VInt 0; VStr "2024-03-31"]]]>
                (tables database_pair))).
Proof.
  intros r. split; [now left|]. split; [|split].
  - intros (_ & _ & _ & H). apply (H [VInt 1; VInt 1]); [now left|].
    intros k [<-|[<-|[]]]; (split; [discriminate | reflexivity]).
  - split; [discriminate|]. split; [discriminate|].
    exists [VInt 1; VInt 2; VInt 1; VStr "9999-12-31"].
    split; [right; now left|]. split; [discriminate|]. split; [reflexivity|].
    intros srow [<-|[]] H. destruct (H "b" (or_intror (or_introl eq_refl))) as [_ Hb].
    discriminate.
  - reflexivity.
Qed.

End MoreWitnesses.
